(** * NDIS planning assistant: chunking, merging, embedding and retrieval

    A shallow embedding of the ingestion and retrieval code of the
    repository (data.py, webscrape.py, IndexingAzureAISearch.py,
    embeddings.py, QueryIndex.py, RAGLLM.py, flaskui.py) together with
    the properties of its specification.

    Conventions.
    - A Python [str] is a list of Unicode code points ([N]); [len] counts
      code points, as Python does.
    - Python integers are [Z].
    - A [while] loop whose termination depends on its arguments is a
      fixpoint on a fuel counter that returns [None] when the fuel is
      exhausted; [yields] and [diverges] speak about all fuels.
    - JSON values are an inductive type; JSON numbers are integers
      (floating-point values lie outside the value universe of the model).
    - An exception that escapes a function is an [Err] result. *)

From Stdlib Require Import ZArith NArith List Bool Lia Sorted.
From Stdlib Require String Ascii.
Import ListNotations.
Import String.StringSyntax.
Delimit Scope string_scope with string.
Open Scope Z_scope.
Set Warnings "-register-all".

(* ================================================================== *)
(** * Python strings and slices *)
(* ================================================================== *)

Module Py.

Definition char := N.
Definition str := list char.

(** A string literal, read as its code points. *)
Definition lit (s : String.string) : str :=
  map Ascii.N_of_ascii (String.list_ascii_of_string s).
Arguments lit s%_string.

Definition len {A : Type} (l : list A) : Z := Z.of_nat (length l).

(** Truth value of a sequence: [if s:] holds iff [s] is non-empty. *)
Definition nonempty {A : Type} (l : list A) : bool :=
  match l with [] => false | _ :: _ => true end.

(** One bound of a slice [s[i:j]]: a negative bound counts from the end,
    and the result is clamped to [0 .. len s]. *)
Definition slice_bound (n i : Z) : Z :=
  let j := if i <? 0 then i + n else i in
  Z.max 0 (Z.min n j).

(** [s[i:j]] *)
Definition slice {A : Type} (s : list A) (i j : Z) : list A :=
  let lo := slice_bound (len s) i in
  let hi := slice_bound (len s) j in
  firstn (Z.to_nat (hi - lo)) (skipn (Z.to_nat lo) s).

(** [s[:j]] *)
Definition slice_to {A : Type} (s : list A) (j : Z) : list A := slice s 0 j.

(** The code points [str.strip()] and [str.split()] treat as whitespace. *)
Definition isspace (c : char) : bool :=
  let c := Z.of_N c in
  ((9 <=? c) && (c <=? 13)) || ((28 <=? c) && (c <=? 32))
  || (c =? 133) || (c =? 160) || (c =? 5760)
  || ((8192 <=? c) && (c <=? 8202))
  || (c =? 8232) || (c =? 8233) || (c =? 8239) || (c =? 8287) || (c =? 12288).

Fixpoint lstrip (s : str) : str :=
  match s with
  | [] => []
  | c :: s' => if isspace c then lstrip s' else s
  end.

Definition rstrip (s : str) : str :=
  fold_right (fun c acc => if isspace c && negb (nonempty acc) then [] else c :: acc) [] s.

(** [s.strip()] *)
Definition strip (s : str) : str := rstrip (lstrip s).

(** [s.split()]: the maximal runs of non-whitespace, in order.  [cur] is
    the run being read (reversed). *)
Fixpoint split_ws (cur : str) (s : str) : list str :=
  match s with
  | [] => if nonempty cur then [rev cur] else []
  | c :: s' =>
      if isspace c
      then (if nonempty cur then rev cur :: split_ws [] s' else split_ws [] s')
      else split_ws (c :: cur) s'
  end.

Definition split (s : str) : list str := split_ws [] s.

(** [sep.join(parts)] *)
Fixpoint join (sep : str) (parts : list str) : str :=
  match parts with
  | [] => []
  | [p] => p
  | p :: ps => p ++ sep ++ join sep ps
  end.

(** [s.startswith(p)] *)
Fixpoint startswith (s p : str) : bool :=
  match p, s with
  | [], _ => true
  | _ :: _, [] => false
  | a :: p', b :: s' => N.eqb a b && startswith s' p'
  end.

Fixpoint str_eqb (a b : str) : bool :=
  match a, b with
  | [], [] => true
  | x :: a', y :: b' => N.eqb x y && str_eqb a' b'
  | _, _ => false
  end.

(** [s.endswith(p)] *)
Definition endswith (s p : str) : bool := startswith (rev s) (rev p).

(** [s.replace(a, b)] for single characters [a] and [b]. *)
Definition replace_char (a b : char) (s : str) : str :=
  map (fun c => if N.eqb c a then b else c) s.

(** [x in l] for a list or set of strings. *)
Definition str_mem (x : str) (l : list str) : bool := existsb (str_eqb x) l.

(** [enumerate(l, start)] *)
Fixpoint enumerate {A : Type} (start : Z) (l : list A) : list (Z * A) :=
  match l with
  | [] => []
  | x :: l' => (start, x) :: enumerate (start + 1) l'
  end.

(** Decimal digits of a non-negative number, most significant first. *)
Fixpoint digits (fuel : nat) (n : N) (acc : str) : str :=
  match fuel with
  | O => acc
  | S fuel' =>
      let acc' := (48 + N.modulo n 10)%N :: acc in
      if (n <? 10)%N then acc' else digits fuel' (N.div n 10) acc'
  end.

(** [str(z)] for an integer. *)
Definition str_of_int (z : Z) : str :=
  let n := Z.abs_N z in
  let d := digits (S (N.to_nat (N.log2 n))) n [] in
  if z <? 0 then 45%N :: d else d.

(** The components of a path, split at [sep]. *)
Fixpoint split_on (sep : char) (cur : str) (s : str) : list str :=
  match s with
  | [] => [rev cur]
  | c :: s' =>
      if N.eqb c sep then rev cur :: split_on sep [] s'
      else split_on sep (c :: cur) s'
  end.

(** [PurePosixPath(p).name]: the last component, empty and [.]
    components being dropped. *)
Definition path_name (p : str) : str :=
  last (filter (fun c => nonempty c && negb (str_eqb c (lit ".")))
               (split_on 47%N [] p)) [].

(** Index of the last [.] of a name, counted from 0; [None] without one. *)
Fixpoint rfind_dot (i : Z) (s : str) : option Z :=
  match s with
  | [] => None
  | c :: s' =>
      match rfind_dot (i + 1) s' with
      | Some j => Some j
      | None => if N.eqb c 46%N then Some i else None
      end
  end.

(** Where pathlib splits a name into stem and suffix. *)
Definition suffix_index (name : str) : option Z :=
  match rfind_dot 0 name with
  | Some i => if (0 <? i) && (i <? len name - 1) then Some i else None
  | None => None
  end.

(** [Path(p).suffix] *)
Definition path_suffix (p : str) : str :=
  let name := path_name p in
  match suffix_index name with
  | Some i => slice name i (len name)
  | None => []
  end.

(** [Path(p).stem] *)
Definition path_stem (p : str) : str :=
  let name := path_name p in
  match suffix_index name with
  | Some i => slice_to name i
  | None => name
  end.

(** Outcome of a loop run on a fuel budget. *)
Definition yields {A : Type} (run : nat -> option A) (r : A) : Prop :=
  exists fuel, run fuel = Some r.

Definition diverges {A : Type} (run : nat -> option A) : Prop :=
  forall fuel, run fuel = None.

End Py.

Import Py.

(* ================================================================== *)
(** * JSON values, dictionaries and exceptions *)
(* ================================================================== *)

Module Json.

(** What [json.loads] can return.  A dictionary is an association list in
    insertion order with distinct keys, as a Python [dict] is. *)
Inductive value : Type :=
| VNone
| VBool (b : bool)
| VInt (z : Z)
| VStr (s : str)
| VList (l : list value)
| VDict (d : list (str * value)).

Definition dict := list (str * value).

(** [bool(v)] *)
Definition truthy (v : value) : bool :=
  match v with
  | VNone => false
  | VBool b => b
  | VInt z => negb (z =? 0)
  | VStr s => nonempty s
  | VList l => nonempty l
  | VDict d => nonempty d
  end.

(** [a or b] *)
Definition por (a b : value) : value := if truthy a then a else b.

(** Lists and dictionaries cannot be members of a [set]. *)
Definition hashable (v : value) : bool :=
  match v with
  | VList _ | VDict _ => false
  | _ => true
  end.

Definition number (v : value) : option Z :=
  match v with
  | VBool b => Some (if b then 1 else 0)
  | VInt z => Some z
  | _ => None
  end.

(** [a == b] on hashable values: [None] equals itself, strings compare by
    content, booleans and integers compare as numbers. *)
Definition py_eq (a b : value) : bool :=
  match a, b with
  | VNone, VNone => true
  | VStr s, VStr t => str_eqb s t
  | _, _ =>
      match number a, number b with
      | Some x, Some y => x =? y
      | _, _ => false
      end
  end.

(** [key in seen] for a set kept as the list of its members. *)
Definition set_mem (key : value) (seen : list value) : bool :=
  existsb (py_eq key) seen.

Fixpoint lookup (d : dict) (k : str) : option value :=
  match d with
  | [] => None
  | (k', v) :: d' => if str_eqb k k' then Some v else lookup d' k
  end.

(** [k in d] *)
Definition has_key (d : dict) (k : str) : bool :=
  match lookup d k with Some _ => true | None => false end.

(** [d.get(k, default)] *)
Definition get_default (d : dict) (k : str) (default : value) : value :=
  match lookup d k with Some v => v | None => default end.

(** [d.get(k)] *)
Definition get (d : dict) (k : str) : value := get_default d k VNone.

(** [d[k] = v]: an existing key keeps its place, a new key goes last. *)
Fixpoint set (d : dict) (k : str) (v : value) : dict :=
  match d with
  | [] => [(k, v)]
  | (k', v') :: d' =>
      if str_eqb k k' then (k', v) :: d' else (k', v') :: set d' k v
  end.

(** The dictionary left by [d.pop(k)]. *)
Fixpoint remove (d : dict) (k : str) : dict :=
  match d with
  | [] => []
  | (k', v') :: d' => if str_eqb k k' then d' else (k', v') :: remove d' k
  end.

Inductive exn : Type :=
| AttributeError
| TypeError
| JSONDecodeError
| FileNotFoundError
| ServiceError.

Inductive result (A : Type) : Type :=
| Ok (a : A)
| Err (e : exn).
Arguments Ok {A} a.
Arguments Err {A} e.

Definition bind {A B : Type} (r : result A) (k : A -> result B) : result B :=
  match r with
  | Ok a => k a
  | Err e => Err e
  end.

(** One line of a JSONL file, by what [json.loads] makes of it. *)
Inductive line : Type :=
| Blank
| Malformed
| Parsed (v : value).

(** [json.loads(line)]; [None] when it raises. *)
Definition loads (l : line) : option value :=
  match l with
  | Parsed v => Some v
  | Blank | Malformed => None
  end.

(** The line [json.dumps(rec) + "\n"] writes. *)
Definition dumps (d : dict) : line := Parsed (VDict d).

End Json.

Import Json.
Notation "x <- r ;; k" := (bind r (fun x => k))
  (at level 61, r at next level, right associativity).

(* ================================================================== *)
(** * data.py: chunking files into records *)
(* ================================================================== *)

Module Data.

(** The loop [while start < n] of [chunk_text]. *)
Fixpoint chunk_loop (fuel : nat) (text : str) (chunk_size overlap : Z)
    (start : Z) (chunks : list str) : option (list str) :=
  match fuel with
  | O => None
  | S fuel' =>
      if start <? len text then
        let end_ := start + chunk_size in
        let chunk := strip (slice text start end_) in
        let chunks' := if nonempty chunk then chunks ++ [chunk] else chunks in
        let next_start := end_ - overlap in
        let start' := if next_start >? start then next_start else end_ in
        chunk_loop fuel' text chunk_size overlap start' chunks'
      else Some chunks
  end.

Definition chunk_text (text : str) (chunk_size overlap : Z) (fuel : nat)
    : option (list str) :=
  chunk_loop fuel text chunk_size overlap 0 [].

Definition is_hidden_or_appledouble (p : str) : bool :=
  let name := path_name p in
  if startswith name (lit "._") then true
  else if startswith name (lit ".") then true
  else false.

Section Corpus.

(** What the file system and the libraries supply: Unicode lower-casing,
    [hashlib.sha1(...).hexdigest()], [str(path.resolve())],
    [path.stat().st_size], and the text each parser extracts from a file
    (empty when the file is skipped or unreadable). *)
Variable str_lower : str -> str.
Variable sha1_hex : str -> str.
Variable resolve : str -> str.
Variable st_size : str -> Z.
Variable parse_docx parse_pdf parse_excel : str -> str.

(** The record built for chunk number [i] of a file. *)
Definition chunk_record (path ext : str) (total : Z) (ic : Z * str) : dict :=
  let '(i, chunk) := ic in
  let sha1 := sha1_hex (resolve path ++ lit "::" ++ chunk) in
  [ (lit "id", VStr (path_stem path ++ lit "_" ++ str_of_int i));
    (lit "source_type", VStr ext);
    (lit "file_name", VStr (path_name path));
    (lit "file_type", VStr ext);
    (lit "path", VStr path);
    (lit "text", VStr chunk);
    (lit "sha1", VStr sha1);
    (lit "meta", VDict [ (lit "size_bytes", VInt (st_size path));
                         (lit "chunk_index", VInt i);
                         (lit "total_chunks", VInt total) ]) ].

(** [make_record(path)]; the inner option is Python's [None]. *)
Definition make_record (path : str) (fuel : nat) : option (option (list dict)) :=
  if is_hidden_or_appledouble path then Some None
  else
    let ext := str_lower (path_suffix path) in
    let parsed :=
      if str_eqb ext (lit ".docx") then Some (parse_docx path)
      else if str_eqb ext (lit ".pdf") then Some (parse_pdf path)
      else if str_eqb ext (lit ".xlsx") then Some (parse_excel path)
      else None in
    match parsed with
    | None => Some None
    | Some text =>
        if negb (nonempty text) then Some None
        else
          match chunk_text text 1000 100 fuel with
          | None => None
          | Some chunks =>
              Some (Some (map (chunk_record path ext (len chunks))
                              (enumerate 1 chunks)))
          end
    end.

Definition supported (p : str) : bool :=
  negb (is_hidden_or_appledouble p)
  && str_mem (str_lower (path_suffix p)) [lit ".docx"; lit ".pdf"; lit ".xlsx"].

(** The writing loop of [build_corpus]. *)
Fixpoint write_corpus (files : list str) (fuel : nat) (out : list line)
    : option (list line) :=
  match files with
  | [] => Some out
  | p :: ps =>
      match make_record p fuel with
      | None => None
      | Some (Some (r :: rs)) => write_corpus ps fuel (out ++ map dumps (r :: rs))
      | Some _ => write_corpus ps fuel out
      end
  end.

(** [build_corpus]: [candidates] are the files found under the data
    directory; the result is the content of the JSONL file written. *)
Definition build_corpus (candidates : list str) (fuel : nat) : option (list line) :=
  write_corpus (filter supported candidates) fuel [].

End Corpus.

End Data.

(* ================================================================== *)
(** * webscrape.py: chunking crawled pages into records *)
(* ================================================================== *)

Module Webscrape.

(** The loop [while start < n] of [chunk_text]; [break] returns. *)
Fixpoint chunk_loop (fuel : nat) (text : str) (max_chars overlap : Z)
    (start : Z) (chunks : list str) : option (list str) :=
  match fuel with
  | O => None
  | S fuel' =>
      if start <? len text then
        let end_ := Z.min (start + max_chars) (len text) in
        let chunk := strip (slice text start end_) in
        let chunks' := if nonempty chunk then chunks ++ [chunk] else chunks in
        let start' := end_ - overlap in
        if start' <? 0 then Some chunks'
        else chunk_loop fuel' text max_chars overlap start' chunks'
      else Some chunks
  end.

Definition chunk_text (text : str) (max_chars overlap : Z) (fuel : nat)
    : option (list str) :=
  chunk_loop fuel text max_chars overlap 0 [].

Record url_parts : Type := { netloc : str; path : str; fragment : str }.

Definition SKIP_EXT : list str :=
  map lit [ ".pdf"; ".doc"; ".docx"; ".xls"; ".xlsx"; ".ppt"; ".pptx"; ".zip";
            ".jpg"; ".jpeg"; ".png"; ".gif"; ".svg"; ".webp"; ".mp4"; ".webm";
            ".json"; ".xml"; ".rss"; ".ics"; ".apk"; ".csv"; ".txt" ]%string.

Record crawl_state : Type := {
  visited : list str;
  to_visit : list str;
  pages_written : Z;
  seen_chunks : list str;
  written : list dict
}.

Section Crawl.

(** What the network and the libraries supply: Unicode lower-casing, the
    SHA-1 hex digest, [urlparse] ([None] when it raises), [urlsplit], and
    [scrape_page], which returns the page text and, when the soup is not
    [None], the [href] of every anchor already resolved by [urljoin]. *)
Variable str_lower : str -> str.
Variable sha1_hex : str -> str.
Variable urlparse : str -> option url_parts.
Variable urlsplit : str -> url_parts.
Variable scrape_page : str -> str * option (list str).

Definition is_html_url (link start_url : str) : bool :=
  match urlparse link, urlparse start_url with
  | Some u, Some s =>
      if nonempty (netloc u) && negb (str_eqb (netloc u) (netloc s)) then false
      else
        let p := str_lower (path u) in
        if existsb (fun ext => endswith p ext) SKIP_EXT then false
        else if nonempty (fragment u) then false
        else true
  | _, _ => false
  end.

(** The record written for chunk number [i] of the page at [url]. *)
Definition chunk_record (url : str) (i : Z) (chunk h : str) : dict :=
  let path_part :=
    if nonempty (path (urlsplit url)) then path (urlsplit url) else lit "/" in
  [ (lit "id", VStr (netloc (urlsplit url) ++ path_part ++ lit "#" ++ str_of_int i));
    (lit "source_type", VStr (lit "web"));
    (lit "file_name",
       VStr (if negb (str_eqb path_part (lit "/")) then path_part else lit "index.html"));
    (lit "file_type", VStr (lit "html"));
    (lit "path", VStr url);
    (lit "text", VStr chunk);
    (lit "sha1", VStr h) ].

(** The loop over the chunks of one page: a chunk whose digest was seen
    on this or an earlier page is not written. *)
Fixpoint write_chunks (url : str) (chunks : list (Z * str))
    (seen : list str) (out : list dict) : list str * list dict :=
  match chunks with
  | [] => (seen, out)
  | (i, chunk) :: rest =>
      let h := sha1_hex chunk in
      if str_mem h seen then write_chunks url rest seen out
      else write_chunks url rest (seen ++ [h]) (out ++ [chunk_record url i chunk h])
  end.

(** The loop [while to_visit and pages_written < max_pages]. *)
Fixpoint crawl_loop (fuel : nat) (start_url : str) (max_pages : Z)
    (st : crawl_state) : option (list dict) :=
  match fuel with
  | O => None
  | S fuel' =>
      match to_visit st with
      | [] => Some (written st)
      | url :: queue =>
          if pages_written st <? max_pages then
            if str_mem url (visited st) then
              crawl_loop fuel' start_url max_pages
                {| visited := visited st; to_visit := queue;
                   pages_written := pages_written st;
                   seen_chunks := seen_chunks st; written := written st |}
            else
              let visited' := visited st ++ [url] in
              let skip :=
                {| visited := visited'; to_visit := queue;
                   pages_written := pages_written st;
                   seen_chunks := seen_chunks st; written := written st |} in
              match scrape_page url with
              | (text, Some links) =>
                  if nonempty text then
                    match chunk_text text 2500 100 fuel' with
                    | None => None
                    | Some chunks =>
                        let '(seen', out') :=
                          write_chunks url (enumerate 1 chunks)
                                       (seen_chunks st) (written st) in
                        let fresh :=
                          filter (fun link => is_html_url link start_url
                                              && negb (str_mem link visited'))
                                 links in
                        crawl_loop fuel' start_url max_pages
                          {| visited := visited'; to_visit := queue ++ fresh;
                             pages_written := pages_written st + 1;
                             seen_chunks := seen'; written := out' |}
                    end
                  else crawl_loop fuel' start_url max_pages skip
              | (_, None) => crawl_loop fuel' start_url max_pages skip
              end
          else Some (written st)
      end
  end.

(** [crawl_website]: the records written to the output file. *)
Definition crawl_website (start_url : str) (max_pages : Z) (fuel : nat)
    : option (list dict) :=
  crawl_loop fuel start_url max_pages
    {| visited := []; to_visit := [start_url]; pages_written := 0;
       seen_chunks := []; written := [] |}.

End Crawl.

End Webscrape.

(* ================================================================== *)
(** * embeddings.py: attaching vectors in batches *)
(* ================================================================== *)

Module Embeddings.

(** The variables [flush_batch] closes over, the output file, and the
    inputs of the service calls made so far. *)
Record state : Type := {
  batch_texts : list value;
  batch_recs : list dict;
  fout : list dict;
  calls : list (list value)
}.

(** What one record gains when its batch is flushed: the vector, its
    dimension, and [text] renamed to [content] unless [content] exists. *)
Definition attach (rec : dict) (embedding : list value) : dict :=
  let rec1 := set rec (lit "embedding") (VList embedding) in
  let rec2 := set rec1 (lit "embedding_dim") (VInt (len embedding)) in
  if negb (has_key rec2 (lit "content")) && has_key rec2 (lit "text")
  then set (remove rec2 (lit "text")) (lit "content") (get rec2 (lit "text"))
  else rec2.

Section Service.

(** [client.embeddings.create(model=MODEL, input=texts)]: the
    [embedding] of every item of [resp.data], or the exception raised. *)
Variable embeddings_create : list value -> result (list (list value)).

(** [int(os.getenv("EMBED_BATCH", "16"))] *)
Variable env_batch : Z.

Definition flush_batch (st : state) : result state :=
  if negb (nonempty (batch_texts st)) then Ok st
  else
    data <- embeddings_create (batch_texts st) ;;
    Ok {| batch_texts := [];
          batch_recs := [];
          fout := fout st ++ map (fun p => attach (fst p) (snd p))
                                 (combine (batch_recs st) data);
          calls := calls st ++ [batch_texts st] |}.

(** The loop [for line in fin]. *)
Fixpoint read_lines (BATCH : Z) (lines : list line) (st : state) : result state :=
  match lines with
  | [] => Ok st
  | Blank :: rest => read_lines BATCH rest st
  | Malformed :: rest => Err JSONDecodeError
  | Parsed (VDict rec) :: rest =>
      let txt := por (get rec (lit "text")) (get rec (lit "content")) in
      if negb (truthy txt) then read_lines BATCH rest st
      else
        let st1 := {| batch_texts := batch_texts st ++ [txt];
                      batch_recs := batch_recs st ++ [rec];
                      fout := fout st; calls := calls st |} in
        if len (batch_texts st1) >=? BATCH
        then st2 <- flush_batch st1 ;; read_lines BATCH rest st2
        else read_lines BATCH rest st1
  | Parsed _ :: rest => Err AttributeError
  end.

(** [int(batch_size or os.getenv("EMBED_BATCH", "16"))] *)
Definition BATCH (batch_size : option Z) : Z :=
  match batch_size with
  | Some b => if b =? 0 then env_batch else b
  | None => env_batch
  end.

(** [build_embeddings(in_path, batch_size=...)]: the records written to
    the output file and the inputs of the service calls, in order. *)
Definition build_embeddings (lines : list line) (batch_size : option Z)
    : result (list dict * list (list value)) :=
  st <- read_lines (BATCH batch_size) lines
          {| batch_texts := []; batch_recs := []; fout := []; calls := [] |} ;;
  st' <- flush_batch st ;;
  Ok (fout st', calls st').

End Service.

End Embeddings.

(* ================================================================== *)
(** * IndexingAzureAISearch.py: merging streams and loading documents *)
(* ================================================================== *)

Module Indexing.

(** The characters an index key may hold. *)
Definition key_char (c : char) : bool :=
  let c := Z.of_N c in
  ((65 <=? c) && (c <=? 90)) || ((97 <=? c) && (c <=? 122))
  || ((48 <=? c) && (c <=? 57)) || (c =? 95) || (c =? 45) || (c =? 61).

(** What [re.sub(r"[^A-Za-z0-9_\-=]", "_", raw)] does to one character. *)
Definition underscore_unsafe (c : char) : char :=
  if key_char c then c else 95%N.

Definition sanitize_id (raw : str) : str :=
  if negb (nonempty raw) then lit "missing_id"
  else
    let safe := map underscore_unsafe raw in
    slice_to safe 512.

(** [rec.get("sha1") or rec.get("id")] *)
Definition dedup_key (rec : dict) : value :=
  por (get rec (lit "sha1")) (get rec (lit "id")).

(** The loop [for line in f] of [combine_jsonl]. *)
Fixpoint combine_lines (lines : list line) (seen : list value) (out : list dict)
    : result (list value * list dict) :=
  match lines with
  | [] => Ok (seen, out)
  | l :: rest =>
      match loads l with
      | None => combine_lines rest seen out
      | Some (VDict rec) =>
          let key := dedup_key rec in
          if negb (hashable key) then Err TypeError
          else if set_mem key seen then combine_lines rest seen out
          else combine_lines rest (seen ++ [key]) (out ++ [rec])
      | Some _ => Err AttributeError
      end
  end.

(** The loop [for p in paths]; [fs p] is the content of the file at [p],
    [None] when no such file exists. *)
Fixpoint combine_paths (fs : str -> option (list line)) (paths : list str)
    (seen : list value) (out : list dict) : result (list value * list dict) :=
  match paths with
  | [] => Ok (seen, out)
  | p :: ps =>
      if negb (nonempty p) then combine_paths fs ps seen out
      else
        match fs p with
        | None => combine_paths fs ps seen out
        | Some lines =>
            so <- combine_lines lines seen out ;;
            combine_paths fs ps (fst so) (snd so)
        end
  end.

(** [combine_jsonl(out_path, paths)]: the records written to [out_path],
    which is taken not to be one of [paths]. *)
Definition combine_jsonl (fs : str -> option (list line)) (paths : list str)
    : result (list dict) :=
  so <- combine_paths fs paths [] [] ;; Ok (snd so).

Section Load.

(** [repr] of a list or a dictionary. *)
Variable repr : value -> str.

(** [str(v)] *)
Definition py_str (v : value) : str :=
  match v with
  | VStr s => s
  | VNone => lit "None"
  | VBool true => lit "True"
  | VBool false => lit "False"
  | VInt z => str_of_int z
  | VList _ | VDict _ => repr v
  end.

(** [v[:n]]; only strings and lists can be sliced. *)
Definition value_slice_to (v : value) (n : Z) : result value :=
  match v with
  | VStr s => Ok (VStr (slice_to s n))
  | VList l => Ok (VList (slice_to l n))
  | _ => Err TypeError
  end.

(** What one line contributes to [docs]: nothing, one document, or an
    exception. *)
Definition load_line (l : line) : result (option dict) :=
  match loads l with
  | None => Ok None
  | Some (VDict rec) =>
      let emb := por (por (get rec (lit "embedding")) (get rec (lit "vector")))
                     (get rec (lit "content_vector")) in
      if negb (truthy emb) then Ok None
      else
        let raw_id := py_str (get_default rec (lit "id") (VStr [])) in
        content <- value_slice_to
                     (por (por (por (get rec (lit "content")) (get rec (lit "text")))
                               (get rec (lit "page_content")))
                          (VStr []))
                     32766 ;;
        Ok (Some [ (lit "id", VStr (sanitize_id raw_id));
                   (lit "content", content);
                   (lit "source",
                      VStr (py_str (por (por (get rec (lit "source"))
                                             (get rec (lit "file_name")))
                                        (VStr (lit "local")))));
                   (lit "embedding", emb) ])
  | Some _ => Err AttributeError
  end.

Fixpoint load_embedded (lines : list line) : result (list dict) :=
  match lines with
  | [] => Ok []
  | l :: rest =>
      d <- load_line l ;;
      docs <- load_embedded rest ;;
      Ok (match d with Some doc => doc :: docs | None => docs end)
  end.

(** [build_index()]: the documents handed to [upload_all].  The input is
    the file corpus, merged with the web corpus when that file exists; it
    is embedded with the default batch size and loaded back. *)
Definition build_index
    (embeddings_create : list value -> result (list (list value))) (env_batch : Z)
    (fs : str -> option (list line)) (IN_PATH WEB_PATH : str)
    : result (list dict) :=
  input <-
    match fs WEB_PATH with
    | Some _ =>
        out <- combine_jsonl fs [IN_PATH; WEB_PATH] ;; Ok (map dumps out)
    | None =>
        match fs IN_PATH with
        | Some lines => Ok lines
        | None => Err FileNotFoundError
        end
    end ;;
  embedded <- Embeddings.build_embeddings embeddings_create env_batch input None ;;
  load_embedded (map dumps (fst embedded)).

End Load.

End Indexing.

(* ================================================================== *)
(** * QueryIndex.py: vector search *)
(* ================================================================== *)

Module QueryIndex.

(** A call to an external service. *)
Inductive call : Type :=
| EmbedCall (input : str)
| SearchCall (vector : list value) (k : Z).

Section Services.

(** [client.embeddings.create(...).data[0].embedding] and the matches
    [search_client.search(...)] iterates over. *)
Variable embed_query : str -> list value.
Variable vector_search : list value -> Z -> list dict.

(** [search_with_query(query_text, k)]: the matches returned, and the
    service calls made on the way.  What the function prints is left out. *)
Definition search_with_query (query_text : str) (k : Z) : list dict * list call :=
  if negb (nonempty query_text) || negb (nonempty (strip query_text))
  then ([], [])
  else
    let query_vector := embed_query query_text in
    let results := vector_search query_vector k in
    (results, [EmbedCall query_text; SearchCall query_vector k]).

End Services.

End QueryIndex.

(* ================================================================== *)
(** * RAGLLM.py: the numbered context *)
(* ================================================================== *)

Module RAGLLM.

Definition _txt (d : dict) : value :=
  if truthy (get d (lit "text")) then get d (lit "text")
  else if truthy (get d (lit "content")) then get d (lit "content")
  else if truthy (get d (lit "chunk")) then get d (lit "chunk")
  else if truthy (get d (lit "page_content")) then get d (lit "page_content")
  else VStr [].

(** One element of [lines]: the number between brackets, the text with
    its whitespace collapsed, and the reference. *)
Record entry : Type := { label : Z; body : str; ref : str }.

Definition newline : str := [10%N].

(** [f"[{i}] {body}\n(Source: {ref})"] *)
Definition render (e : entry) : str :=
  lit "[" ++ str_of_int (label e) ++ lit "] " ++ body e
  ++ newline ++ lit "(Source: " ++ ref e ++ lit ")".

Section Context.

(** [repr] of a list or dictionary, [str.lower] and [str.title]. *)
Variable repr : value -> str.
Variable str_lower : str -> str.
Variable str_title : str -> str.

Definition fmt (v : value) : str := Indexing.py_str repr v.

(** The body of the loop for document [d] at number [i]: no entry when
    the text is empty. *)
Definition context_entry (i : Z) (d : dict) : result (option entry) :=
  let text := _txt d in
  if negb (truthy text) then Ok None
  else
    let src := get_default d (lit "source") (VStr []) in
    let page := por (get d (lit "page")) (get d (lit "page_number")) in
    title <-
      (if truthy src then
         if truthy (get d (lit "title")) then Ok (get d (lit "title"))
         else
           match src with
           | VStr s => Ok (VStr (str_title (replace_char 95%N 32%N (path_stem s))))
           | _ => Err TypeError
           end
       else Ok (VStr (lit "Source " ++ str_of_int i))) ;;
    match src with
    | VStr s =>
        let r :=
          if startswith (str_lower s) (lit "http") then fmt title ++ lit " - " ++ s
          else if nonempty s then
            fmt title ++ (if truthy page then lit " (Page " ++ fmt page ++ lit ")" else [])
          else lit "Source " ++ str_of_int i in
        match text with
        | VStr t => Ok (Some {| label := i; body := join (lit " ") (split t); ref := r |})
        | _ => Err AttributeError
        end
    | _ => Err AttributeError
    end.

(** The loop [for i, d in enumerate(docs, start=1)]. *)
Fixpoint context_entries (docs : list (Z * dict)) : result (list entry) :=
  match docs with
  | [] => Ok []
  | (i, d) :: rest =>
      e <- context_entry i d ;;
      es <- context_entries rest ;;
      Ok (match e with Some x => x :: es | None => es end)
  end.

Definition build_context_lines (docs : list dict) : result (list entry) :=
  context_entries (enumerate 1 docs).

Definition build_context (docs : list dict) : result str :=
  es <- build_context_lines docs ;;
  Ok (join (newline ++ newline) (map render es)).

End Context.

End RAGLLM.

(* ================================================================== *)
(** * Vocabulary of the properties *)
(* ================================================================== *)

Module Spec.

(** The value a hashable key stands for under [==]: [True] and [1] are
    the same key, [False] and [0] too. *)
Inductive key_class : Type :=
| KNone
| KNum (z : Z)
| KStr (s : str).

Definition classify (v : value) : option key_class :=
  match v with
  | VNone => Some KNone
  | VBool b => Some (KNum (if b then 1 else 0))
  | VInt z => Some (KNum z)
  | VStr s => Some (KStr s)
  | VList _ | VDict _ => None
  end.

(** The records of a JSONL stream: the lines that parse to an object. *)
Definition records_of (lines : list line) : list dict :=
  flat_map (fun l => match loads l with Some (VDict d) => [d] | _ => [] end) lines.

(** A line [combine_jsonl] can process: it does not parse, or it parses
    to an object whose dedup key can be put in a set. *)
Definition well_keyed (l : line) : bool :=
  match loads l with
  | None => true
  | Some (VDict d) => hashable (Indexing.dedup_key d)
  | Some _ => false
  end.


(** The records whose fingerprint equals [f]. *)
Definition with_fingerprint (f : value) (recs : list dict) : list dict :=
  filter (fun r => py_eq f (get r (lit "sha1"))) recs.

(** A line that leaves [combine_jsonl] unchanged once [seen] holds its
    key. *)
Definition already_seen (seen : list value) (l : line) : bool :=
  match loads l with
  | None => true
  | Some (VDict d) =>
      hashable (Indexing.dedup_key d) && set_mem (Indexing.dedup_key d) seen
  | Some _ => false
  end.

(** [dedupe(A)]: one stream merged on its own. *)
Definition dedupe (fs : str -> option (list line)) (p : str) : result (list dict) :=
  Indexing.combine_jsonl fs [p].

(** A stream that contributes nothing: no path, no file, or an empty file. *)
Definition absent (fs : str -> option (list line)) (p : str) : Prop :=
  p = [] \/ fs p = None \/ fs p = Some [].

(** The lines [combine_jsonl] reads, in order: those of every path that
    is non-empty and names an existing file. *)
Definition merged_input (fs : str -> option (list line)) (paths : list str)
    : list line :=
  flat_map (fun p => if nonempty p
                     then match fs p with Some lines => lines | None => [] end
                     else [])
           paths.

(** A record with a non-empty value under [embedding], [vector] or
    [content_vector]. *)
Definition has_vector (rec : dict) : bool :=
  truthy (get rec (lit "embedding")) || truthy (get rec (lit "vector"))
  || truthy (get rec (lit "content_vector")).

(** A line that parses as JSON, to a record that has a vector. *)
Definition carries_vector (l : line) : bool :=
  match loads l with
  | Some (VDict rec) => has_vector rec
  | _ => false
  end.

Definition is_text (v : value) : bool :=
  match v with VStr _ => true | _ => false end.

Definition is_text_or_list (v : value) : bool :=
  match v with VStr _ | VList _ => true | _ => false end.

(** A JSON object. *)
Definition is_object (v : value) : bool :=
  match v with VDict _ => true | _ => false end.

(** The text a record carries for the index. *)
Definition text_payload (rec : dict) : value :=
  por (por (por (get rec (lit "content")) (get rec (lit "text")))
           (get rec (lit "page_content")))
      (VStr []).

(** A line of a corpus file: it does not parse, or it parses to a record
    (a JSON object) whose text, when the record has a vector, is a string
    or a list. *)
Definition corpus_line (l : line) : bool :=
  match loads l with
  | None => true
  | Some (VDict rec) => negb (has_vector rec) || is_text_or_list (text_payload rec)
  | Some _ => false
  end.

(** A numbered document whose text is not empty. *)
Definition has_text (p : Z * dict) : bool := truthy (RAGLLM._txt (snd p)).

(** A retrieved document: its text, when not empty, and its source are
    strings. *)
Definition retrieved_doc (d : dict) : bool :=
  negb (truthy (RAGLLM._txt d))
  || (is_text (RAGLLM._txt d) && is_text (get_default d (lit "source") (VStr []))).

(** The keys under which a retrieved document may hold its text, in the
    order they are tried. *)
Definition TEXT_KEYS : list str :=
  [lit "text"; lit "content"; lit "chunk"; lit "page_content"].

(** The first non-empty value a document holds under the accepted keys. *)
Definition text_under_keys (d : dict) : option value :=
  find truthy (map (get d) TEXT_KEYS).

(** A document whose text is empty under all accepted keys. *)
Definition empty_under_all_keys (d : dict) : bool :=
  forallb (fun k => negb (truthy (get d k))) TEXT_KEYS.

(** A numbered document that has text under some accepted key. *)
Definition keeps_entry (p : Z * dict) : bool := negb (empty_under_all_keys (snd p)).

(** The block emitted for an entry: the label [i] between brackets, the
    body, and on the next line the reference. *)
Definition labelled (i : Z) (body ref : str) : str :=
  lit "[" ++ str_of_int i ++ lit "] " ++ body
  ++ [10%N] ++ lit "(Source: " ++ ref ++ lit ")".

(** The text the context consists of: the blocks of the entries, an
    empty line between two of them. *)
Definition emitted (es : list RAGLLM.entry) : str :=
  join [10%N; 10%N]
       (map (fun e => labelled (RAGLLM.label e) (RAGLLM.body e) (RAGLLM.ref e)) es).

(** A document [build_context] can read: its text, when it has one under
    the accepted keys, and its source are strings. *)
Definition readable_doc (d : dict) : bool :=
  match text_under_keys d with
  | None => true
  | Some v => is_text v && is_text (get_default d (lit "source") (VStr []))
  end.

(** The text sent to the embedding service for a record. *)
Definition record_text (rec : dict) : value :=
  por (get rec (lit "text")) (get rec (lit "content")).

(** A record with extractable text. *)
Definition embeddable (rec : dict) : bool := truthy (record_text rec).

(** A line of a corpus of records: blank, or a JSON object. *)
Definition record_line (l : line) : bool :=
  match l with
  | Blank | Parsed (VDict _) => true
  | _ => false
  end.

(** The service contract: one vector per input text. *)
Definition one_vector_per_text
    (create : list value -> result (list (list value))) : Prop :=
  forall batch, exists data, create batch = Ok data /\ length data = length batch.

(** The vectors the service returns for a call, and for a series of calls. *)
Definition response (create : list value -> result (list (list value)))
    (batch : list value) : list (list value) :=
  match create batch with Ok data => data | Err _ => [] end.

Definition responses (create : list value -> result (list (list value)))
    (calls : list (list value)) : list (list value) :=
  concat (map (response create) calls).

(** Records paired with vectors position by position. *)
Definition attach_all (recs : list dict) (vectors : list (list value)) : list dict :=
  map (fun p => Embeddings.attach (fst p) (snd p)) (combine recs vectors).

(** The state of the reading loop after the records [flushed] have been
    sent and written: every call so far was a full batch, the pending
    batch has room, and the output pairs the flushed records with the
    vectors returned. *)
Record batching (create : list value -> result (list (list value))) (B : Z)
    (st : Embeddings.state) (flushed : list dict) : Prop := {
  batching_full : Forall (fun c => len c = B) (Embeddings.calls st);
  batching_room : len (Embeddings.batch_texts st) < B;
  batching_texts : Embeddings.batch_texts st = map record_text (Embeddings.batch_recs st);
  batching_sent : concat (Embeddings.calls st) = map record_text flushed;
  batching_resp : length (responses create (Embeddings.calls st)) = length flushed;
  batching_out : Embeddings.fout st = attach_all flushed (responses create (Embeddings.calls st))
}.

End Spec.

Import Spec.

(* ================================================================== *)
(** * Sample data *)
(* ================================================================== *)

Module Samples.

Definition file_rec (id text sha1 : String.string) : dict :=
  [ (lit "id", VStr (lit id)); (lit "text", VStr (lit text));
    (lit "sha1", VStr (lit sha1)) ].
Arguments file_rec (id text sha1)%_string.

(** A corpus file with a repeated fingerprint and a line that does not
    parse, and a web file that repeats one of its records. *)
Definition corpus_fs (p : str) : option (list line) :=
  if str_eqb p (lit "out/ndis_parsed.jsonl") then
    Some [ dumps (file_rec "guide_1" "alpha" "aa11");
           Malformed;
           dumps (file_rec "guide_2" "beta" "bb22");
           dumps (file_rec "copy_1" "alpha" "aa11") ]
  else if str_eqb p (lit "out/web_parsed.jsonl") then
    Some [ dumps (file_rec "host/#1" "gamma" "cc33");
           dumps (file_rec "host/x#1" "beta" "bb22") ]
  else None.


(** An embedded corpus in which the second record has no vector, the third
    line does not parse and the fourth has an empty vector. *)
Definition embedded_lines : list line :=
  [ dumps [ (lit "id", VStr (lit "guide_1")); (lit "content", VStr (lit "alpha"));
            (lit "embedding", VList [VInt 1; VInt 2]) ];
    dumps [ (lit "id", VStr (lit "guide_2")); (lit "content", VStr (lit "beta")) ];
    Malformed;
    dumps [ (lit "id", VStr (lit "guide_3")); (lit "content", VStr (lit "gamma"));
            (lit "embedding", VList []) ];
    dumps [ (lit "id", VStr (lit "host/x#1")); (lit "text", VStr (lit "delta"));
            (lit "file_name", VStr (lit "/x")); (lit "vector", VList [VInt 3]) ] ].

(** Three retrieved documents, the second without text. *)
Definition retrieved : list dict :=
  [ [ (lit "content", VStr (lit "alpha  beta")); (lit "source", VStr (lit "guide.pdf")) ];
    [ (lit "content", VStr []); (lit "source", VStr (lit "empty.pdf")) ];
    [ (lit "content", VStr (lit "gamma")); (lit "source", VStr (lit "https://host/x")) ] ].

(** Stand-ins for the library functions the code calls. *)
Definition repr_stub (v : value) : str := lit "<container>".
Definition ascii_lower (s : str) : str :=
  map (fun c => if ((65 <=? c) && (c <=? 90))%N then (c + 32)%N else c) s.
Definition title_stub (s : str) : str := s.

(** One guide delivered as a PDF and as a Word file. *)
Definition guide_pdf : str := lit "/data/guide.pdf".
Definition guide_docx : str := lit "/data/guide.docx".
Definition parse_pdf_stub (p : str) : str :=
  if str_eqb p guide_pdf then lit "NDIS guide" else [].
Definition parse_docx_stub (p : str) : str :=
  if str_eqb p guide_docx then lit "NDIS guide" else [].
Definition parse_excel_stub (p : str) : str := [].

(** A file system that holds the file corpus only. *)
Definition corpus_only (corpus : list line) (p : str) : option (list line) :=
  if str_eqb p (lit "out/ndis_parsed.jsonl") then Some corpus else None.

(** A digest stand-in that keeps its input. *)
Definition digest_stub (s : str) : str := s.

(** An embedding service that answers every text with the same vector. *)
Definition constant_service (batch : list value) : result (list (list value)) :=
  Ok (map (fun _ => [VInt 1; VInt 0]) batch).

(** Thirty-five records with text, then one without. *)
Definition corpus_35 : list line :=
  map (fun i => dumps [ (lit "id", VStr (lit "guide_" ++ str_of_int i));
                        (lit "text", VStr (lit "chunk " ++ str_of_int i)) ])
      (map Z.of_nat (seq 1 35))
  ++ [ dumps [ (lit "id", VStr (lit "guide_36")); (lit "text", VStr []) ] ].

End Samples.

(* ================================================================== *)
(** * IndexingAzureAISearch.py: uploading in batches *)
(* ================================================================== *)

Module Upload.

(** The loop behind [range(start, stop, step)] for a non-zero step. *)
Fixpoint range_loop (fuel : nat) (i stop step : Z) : list Z :=
  match fuel with
  | O => []
  | S fuel' =>
      if (if 0 <? step then i <? stop else stop <? i)
      then i :: range_loop fuel' (i + step) stop step
      else []
  end.

(** [range(start, stop, step)]; [None] is the [ValueError] of a zero
    step.  A range has at most [|stop - start|] elements. *)
Definition range (start stop step : Z) : option (list Z) :=
  if step =? 0 then None
  else Some (range_loop (S (Z.to_nat (Z.abs (stop - start)))) start stop step).

(** [upload_all(search_client, docs, batch_size)]: the batches handed to
    [search_client.upload_documents], in order; [None] when [range]
    raises. *)
Definition upload_all (docs : list dict) (batch_size : Z) : option (list (list dict)) :=
  match range 0 (len docs) batch_size with
  | None => None
  | Some starts => Some (map (fun i => slice docs i (i + batch_size)) starts)
  end.

End Upload.

(* ================================================================== *)
(** * RAGLLM.py: answering a question *)
(* ================================================================== *)

Module Answer.

(** A call to an external service made while answering. *)
Inductive service_call : Type :=
| Retrieval (c : QueryIndex.call)
| ChatCall (system user : str).

(** ["I don't have enough context to answer that."], with the
    typographic apostrophe of the source. *)
Definition NO_CONTEXT : str :=
  lit "I don" ++ [8217%N] ++ lit "t have enough context to answer that.".

Section Rag.

(** The services and library functions [rag] depends on: query embedding,
    vector search, the chat completion ([None] when the message has no
    content), [repr], [str.lower], [str.title], and the system prompt. *)
Variable embed_query : str -> list value.
Variable vector_search : list value -> Z -> list dict.
Variable chat_create : str -> str -> option str.
Variable repr : value -> str.
Variable str_lower : str -> str.
Variable str_title : str -> str.
Variable SYSTEM_PROMPT : str.

(** [f"Question: {query}\n\nContext:\n{context}"] *)
Definition user_message (query context : str) : str :=
  lit "Question: " ++ query ++ RAGLLM.newline ++ RAGLLM.newline
  ++ lit "Context:" ++ RAGLLM.newline ++ context.

(** [rag(query, k)]: the answer and the service calls made, in order. *)
Definition rag (query : str) (k : Z) : result (str * list service_call) :=
  let '(docs, calls) := QueryIndex.search_with_query embed_query vector_search query k in
  let trace := map Retrieval calls in
  context <- RAGLLM.build_context repr str_lower str_title docs ;;
  if negb (nonempty context) then Ok (NO_CONTEXT, trace)
  else
    let user := user_message query context in
    let content := match chat_create SYSTEM_PROMPT user with
                   | Some c => c
                   | None => []
                   end in
    Ok (strip content, trace ++ [ChatCall SYSTEM_PROMPT user]).

End Rag.

End Answer.

(* ================================================================== *)
(** * flaskui.py: the question endpoint *)
(* ================================================================== *)

Module Flaskui.

(** The code points [str.splitlines()] breaks a line at. *)
Definition linebreak (c : char) : bool :=
  let c := Z.of_N c in
  ((10 <=? c) && (c <=? 13)) || ((28 <=? c) && (c <=? 30))
  || (c =? 133) || (c =? 8232) || (c =? 8233).

(** [s.splitlines()]: a carriage return followed by a line feed is one
    break, and a final break opens no empty line.  [cur] is the line
    being read (reversed). *)
Fixpoint splitlines_loop (cur : str) (s : str) : list str :=
  match s with
  | [] => if nonempty cur then [rev cur] else []
  | c :: s' =>
      if linebreak c then
        rev cur ::
        match s' with
        | c2 :: s'' =>
            if N.eqb c 13 && N.eqb c2 10 then splitlines_loop [] s''
            else splitlines_loop [] s'
        | [] => []
        end
      else splitlines_loop (c :: cur) s'
  end.

Definition splitlines (s : str) : list str := splitlines_loop [] s.

(** [cur in {"-", "*", "\u2022"}] *)
Definition is_marker (cur : str) : bool :=
  str_mem cur [lit "-"; lit "*"; [8226%N]].

(** The loop [while i < len(lines)] of [_fix_bullets], run over the lines
    from index [i] on.  [pending] holds inside the inner loop, which
    looks for the first non-blank line after a lone bullet marker. *)
Fixpoint fix_lines (pending : bool) (lines : list str) : list str :=
  match lines with
  | [] => []
  | l :: rest =>
      if pending then
        if nonempty (strip l) then (lit "- " ++ lstrip l) :: fix_lines false rest
        else fix_lines true rest
      else if is_marker (strip l) then fix_lines true rest
      else l :: fix_lines false rest
  end.

(** [re.sub(r"\n{3,}", "\n\n", text)]: a run of three or more line feeds
    becomes two.  [run] counts the line feeds read and not yet written. *)
Fixpoint squeeze_newlines (run : nat) (s : str) : str :=
  match s with
  | [] => repeat 10%N (Nat.min run 2)
  | c :: s' =>
      if N.eqb c 10 then squeeze_newlines (S run) s'
      else repeat 10%N (Nat.min run 2) ++ c :: squeeze_newlines 0 s'
  end.

Definition _fix_bullets (text : str) : str :=
  let lines := map rstrip (splitlines text) in
  let out := fix_lines false lines in
  strip (squeeze_newlines 0 (join RAGLLM.newline out)).

(** [(title or "").strip()] *)
Definition strip_or_empty (title : value) : result value :=
  if negb (truthy title) then Ok (VStr [])
  else match title with
       | VStr s => Ok (VStr (strip s))
       | _ => Err AttributeError
       end.

(** The reference built from one item of a list; nothing for an item
    that is not an object. *)
Definition ref_of (it : value) : result (option dict) :=
  match it with
  | VDict d =>
      let url := por (por (por (get d (lit "url")) (get d (lit "link")))
                          (get d (lit "source"))) (get d (lit "href")) in
      let title := por (por (por (get d (lit "title")) (get d (lit "name")))
                            (get d (lit "doc_title"))) url in
      let page := por (por (get d (lit "page")) (get d (lit "page_number")))
                      (get d (lit "pg")) in
      t <- strip_or_empty title ;;
      Ok (Some [ (lit "url", url); (lit "title", t); (lit "page", page) ])
  | _ => Ok None
  end.

(** The loop [for it in val]. *)
Fixpoint refs_of (val : list value) : result (list dict) :=
  match val with
  | [] => Ok []
  | it :: rest =>
      r <- ref_of it ;;
      rs <- refs_of rest ;;
      Ok (match r with Some x => x :: rs | None => rs end)
  end.

(** The loop [for key in (...)]: the references of the first key whose
    list yields any. *)
Fixpoint collect_keys (r : dict) (keys : list str) : result (list dict) :=
  match keys with
  | [] => Ok []
  | key :: rest =>
      match get r key with
      | VList val =>
          out <- refs_of val ;;
          if nonempty out then Ok out else collect_keys r rest
      | _ => collect_keys r rest
      end
  end.

Definition REF_KEYS : list str :=
  [lit "refs"; lit "sources"; lit "documents"; lit "context"; lit "chunks"].

Definition _collect_refs (r : value) : result (list dict) :=
  match r with
  | VDict d => collect_keys d REF_KEYS
  | _ => Ok []
  end.

(** How a request to [/api/plan] ends: a JSON response with its status,
    or an exception that leaves the handler; [NameError] is the one
    raised by the call of [_link_citations], which is defined nowhere. *)
Inductive outcome : Type :=
| Response (status : Z) (payload : dict)
| Raises (e : exn)
| RaisesNameError.

Section App.

(** [rag(q)] with its default [k], [markdown(text, extensions=...)], and
    [repr] of a list or dictionary. *)
Variable rag : str -> result value.
Variable markdown : str -> str.
Variable repr : value -> str.

(** [(request.get_json(silent=True) or {}).get("query", "").strip()];
    [body] is [None] when the body does not parse. *)
Definition query_of (body : option value) : result str :=
  let data := match body with
              | Some v => if truthy v then v else VDict []
              | None => VDict []
              end in
  match data with
  | VDict d =>
      match get_default d (lit "query") (VStr []) with
      | VStr s => Ok (strip s)
      | _ => Err AttributeError
      end
  | _ => Err AttributeError
  end.

(** The text of the answer: a field of a dictionary result, or [str] of
    the result. *)
Definition answer_text_of (result : value) : value :=
  match result with
  | VDict d =>
      por (por (por (get d (lit "answer")) (get d (lit "output"))) (get d (lit "text")))
          (VStr (Indexing.py_str repr result))
  | _ => VStr (Indexing.py_str repr result)
  end.

(** What [plan] does once [rag] has returned [result]. *)
Definition respond (result : value) : outcome :=
  match answer_text_of result with
  | VStr answer_text =>
      let clean_text := _fix_bullets answer_text in
      let answer_html := markdown clean_text in
      match (match result with VDict _ => _collect_refs result | _ => Ok [] end) with
      | Err e => Raises e
      | Ok refs =>
          if nonempty refs then RaisesNameError
          else Response 200 [ (lit "answer", VStr answer_text);
                              (lit "answer_html", VStr answer_html) ]
      end
  | _ => Raises AttributeError
  end.

(** [plan()]: [is_json] is [request.is_json]. *)
Definition plan (is_json : bool) (body : option value) : outcome :=
  if negb is_json
  then Response 400 [ (lit "error", VStr (lit "Send JSON: {'query': '...'}")) ]
  else
    match query_of body with
    | Err e => Raises e
    | Ok q =>
        if negb (nonempty q)
        then Response 400 [ (lit "error", VStr (lit "Please provide 'query'")) ]
        else
          match rag q with
          | Err e => Raises e
          | Ok result => respond result
          end
    end.

End App.

End Flaskui.

(* ================================================================== *)
(** * Vocabulary of the further properties *)
(* ================================================================== *)

Module Shape.

(** What every chunk of [text] cut with window [size] looks like: it is
    not empty, has no whitespace at either end, has at most [size]
    characters, and occurs in [text] as it stands. *)
Definition chunk_of (text : str) (size : Z) (c : str) : Prop :=
  c <> [] /\ strip c = c /\ len c <= size /\ exists a b, text = a ++ c ++ b.

(** The number a string of decimal digits denotes, read from its last
    digit. *)
Fixpoint value_lsf (s : str) : N :=
  match s with
  | [] => 0%N
  | c :: s' => ((c - 48) + 10 * value_lsf s')%N
  end.

(** [int(s)] for a string of decimal digits. *)
Definition int_of_digits (s : str) : N := value_lsf (rev s).

(** [rec["meta"][k]] *)
Definition get_meta (rec : dict) (k : str) : value :=
  match get rec (lit "meta") with
  | VDict m => get m k
  | _ => VNone
  end.

(** A line of the file corpus: the record of one of [files], with an id
    and a non-empty text. *)
Definition corpus_line_of (files : list str) (l : line) : Prop :=
  exists rec p c id h,
    l = dumps rec
    /\ In p files
    /\ get rec (lit "path") = VStr p
    /\ get rec (lit "id") = VStr id
    /\ get rec (lit "sha1") = VStr h
    /\ get rec (lit "text") = VStr c
    /\ c <> [].

(** A record written by the crawler: a non-empty text from a web page. *)
Definition web_record (rec : dict) : Prop :=
  exists c, get rec (lit "text") = VStr c /\ c <> []
            /\ get rec (lit "source_type") = VStr (lit "web").

(** The state of a crawl, [pages] being the pages written so far: the
    digests seen are those of the records written, none twice; every
    record comes from one of [pages]; and [pages] has at most
    [max_pages] distinct visited URLs. *)
Record crawl_inv (max_pages : Z) (st : Webscrape.crawl_state) (pages : list str)
    : Prop := {
  inv_sha : map (fun r => get r (lit "sha1")) (Webscrape.written st)
            = map VStr (Webscrape.seen_chunks st);
  inv_nodup : NoDup (Webscrape.seen_chunks st);
  inv_text : Forall web_record (Webscrape.written st);
  inv_count : Z.of_nat (length pages) <= Webscrape.pages_written st;
  inv_budget : Webscrape.pages_written st <= Z.max 0 max_pages;
  inv_visited : incl pages (Webscrape.visited st);
  inv_pages : NoDup pages;
  inv_paths : Forall (fun r => exists u, In u pages /\ get r (lit "path") = VStr u)
                     (Webscrape.written st)
}.

(** Records whose dedup keys can be put in a set, are not in [seen], and
    differ from one another. *)
Fixpoint fresh_keys (seen : list value) (recs : list dict) : Prop :=
  match recs with
  | [] => True
  | r :: recs' =>
      hashable (Indexing.dedup_key r) = true
      /\ set_mem (Indexing.dedup_key r) seen = false
      /\ fresh_keys (seen ++ [Indexing.dedup_key r]) recs'
  end.

(** A JSON value that is not an object. *)
Definition not_object (v : value) : Prop :=
  match v with VDict _ => False | _ => True end.

(** A document fit for the index: exactly the four fields of the schema,
    a key the store accepts, a content of bounded length, a vector. *)
Definition index_doc (doc : dict) : Prop :=
  map fst doc = [lit "id"; lit "content"; lit "source"; lit "embedding"]
  /\ (exists id, get doc (lit "id") = VStr id
                 /\ id <> []
                 /\ Forall (fun c => Indexing.key_char c = true) id
                 /\ len id <= 512)
  /\ (exists s, get doc (lit "source") = VStr s)
  /\ ((exists s, get doc (lit "content") = VStr s /\ len s <= 32766)
      \/ (exists l, get doc (lit "content") = VList l /\ len l <= 32766))
  /\ truthy (get doc (lit "embedding")) = true.

(** The call that carries the text of one record only. *)
Definition single_call (rec : dict) : list value := [record_text rec].

(** A record as the corpus builders write it: a non-empty string under
    [text] and no [content] field. *)
Definition text_record (rec : dict) : Prop :=
  has_key rec (lit "content") = false
  /\ exists c, get rec (lit "text") = VStr c /\ c <> [].

(** An embedding service that never returns an empty vector. *)
Definition nonempty_vectors (create : list value -> result (list (list value))) : Prop :=
  forall batch, Forall (fun v => v <> []) (response create batch).

(** The index document of a record of the corpus and its vector. *)
Definition index_document (repr : value -> str) (rec : dict) (e : list value) : dict :=
  [ (lit "id",
       VStr (Indexing.sanitize_id
               (Indexing.py_str repr (get_default rec (lit "id") (VStr [])))));
    (lit "content",
       match get rec (lit "text") with
       | VStr c => VStr (slice_to c 32766)
       | v => v
       end);
    (lit "source",
       VStr (Indexing.py_str repr
               (por (por (get rec (lit "source")) (get rec (lit "file_name")))
                    (VStr (lit "local")))));
    (lit "embedding", VList e) ].

(** A match as the search service returns it and the result loop of
    [search_with_query] can print it: a score that is a number, an id,
    and a content that is a string when it is not empty. *)
Definition search_result (r : dict) : Prop :=
  has_key r (lit "@search.score") = true
  /\ number (get r (lit "@search.score")) <> None
  /\ has_key r (lit "id") = true
  /\ (truthy (get r (lit "content")) = false \/ is_text (get r (lit "content")) = true).

(** A document with no text under any of the keys [_txt] reads. *)
Definition textless (d : dict) : Prop := truthy (RAGLLM._txt d) = false.

(** A text without three line feeds in a row. *)
Definition no_blank_run (s : str) : Prop :=
  forall a b, s <> a ++ [10%N; 10%N; 10%N] ++ b.

(** The same, decided from left to right; [k] is the number of line
    feeds just before [s]. *)
Fixpoint bounded_runs (k : nat) (s : str) : bool :=
  match s with
  | [] => true
  | c :: s' =>
      if N.eqb c 10 then (k <? 2)%nat && bounded_runs (S k) s'
      else bounded_runs 0 s'
  end.

(** A line [_fix_bullets] writes for the lines [lines]: one of them left
    as it is, or a non-blank one turned into a bullet; never a lone
    bullet marker. *)
Definition bullet_fixed (lines : list str) (o : str) : Prop :=
  Flaskui.is_marker (strip o) = false
  /\ exists l, In l lines
               /\ (o = l \/ (strip l <> [] /\ o = lit "- " ++ lstrip l)).

(** A text of one line. *)
Definition one_line (s : str) : Prop := Forall (fun c => Flaskui.linebreak c = false) s.

(** An item of a reference list whose title can be trimmed. *)
Definition titled (it : value) : Prop :=
  exists r, Flaskui.ref_of it = Ok r.

(** The endpoint as it is deployed: [plan] over [rag] with its default
    [k], the answer of [rag] being a string. *)
Definition endpoint
    (embed_query : str -> list value) (vector_search : list value -> Z -> list dict)
    (chat_create : str -> str -> option str)
    (repr : value -> str) (str_lower str_title : str -> str) (SYSTEM_PROMPT : str)
    (TOP_K : Z) (markdown : str -> str)
    (is_json : bool) (body : option value) : Flaskui.outcome :=
  Flaskui.plan
    (fun q => r <- Answer.rag embed_query vector_search chat_create repr str_lower
                     str_title SYSTEM_PROMPT q TOP_K ;;
              Ok (VStr (fst r)))
    markdown repr is_json body.

(** A request body without a usable query: no JSON, an empty value, or
    an object whose [query] is missing or blank. *)
Definition no_query (body : option value) : Prop :=
  body = None
  \/ (exists v, body = Some v /\ truthy v = false)
  \/ (exists d s, body = Some (VDict d)
                  /\ get_default d (lit "query") (VStr []) = VStr s /\ strip s = []).

(** A request body that asks [q]: an object whose [query] is a string
    that trims to the non-empty [q]. *)
Definition asks (body : option value) (q : str) : Prop :=
  exists d s, body = Some (VDict d)
              /\ get_default d (lit "query") (VStr []) = VStr s
              /\ strip s = q /\ q <> [].

(** A request body the handler cannot read: a non-empty JSON value that
    is not an object, or an object whose [query] is not a string. *)
Definition unreadable (body : option value) : Prop :=
  (exists v, body = Some v /\ truthy v = true /\ not_object v)
  \/ (exists d, body = Some (VDict d) /\ d <> []
                /\ is_text (get_default d (lit "query") (VStr [])) = false).

(** A record whose text has fewer than 100 characters. *)
Definition short_record (r : dict) : Prop :=
  exists c, get r (lit "text") = VStr c /\ len c < 100.

(** The records [build_index] embeds: those of the file corpus, or the
    merge of the file corpus and the web corpus when the latter exists. *)
Definition index_input (fs : str -> option (list line)) (IN_PATH WEB_PATH : str)
    (recs : list dict) : Prop :=
  (fs WEB_PATH = None /\ fs IN_PATH = Some (map dumps recs))
  \/ (fs WEB_PATH <> None /\ Indexing.combine_jsonl fs [IN_PATH; WEB_PATH] = Ok recs).

End Shape.

Import Shape.

(* ================================================================== *)
(** * Sample services *)
(* ================================================================== *)

Module SampleServices.

(** An embedding service that leaves the last text of a call unanswered. *)
Definition short_service (batch : list value) : result (list (list value)) :=
  Ok (map (fun _ => [VInt 1]) (removelast batch)).

(** An embedding service that is down. *)
Definition failing_service (batch : list value) : result (list (list value)) :=
  Err ServiceError.

(** A query embedding, a search service with two matches, the second
    without content, and a chat model that pads its answer. *)
Definition embed_stub (query : str) : list value := [VInt 1; VInt 0].

Definition search_stub (vector : list value) (k : Z) : list dict :=
  [ [ (lit "content", VStr (lit "Plans are reviewed yearly."));
      (lit "source", VStr (lit "guide.pdf")); (lit "id", VStr (lit "guide_1"));
      (lit "@search.score", VInt 1) ];
    [ (lit "content", VStr []); (lit "source", VStr (lit "empty.pdf"));
      (lit "id", VStr (lit "empty_1")); (lit "@search.score", VInt 0) ] ].

Definition chat_stub (system user : str) : option str :=
  Some (lit " Plans are reviewed every year [1]. ").

(** A stand-in for the Markdown renderer. *)
Definition markdown_stub (text : str) : str := lit "<p>" ++ text ++ lit "</p>".

(** A [rag] that returns its answer with the documents it used. *)
Definition rag_with_refs (q : str) : result value :=
  Ok (VDict [ (lit "answer", VStr (lit "Plans are reviewed yearly [1]."));
              (lit "refs", VList [ VStr (lit "note");
                                   VDict [ (lit "url", VStr (lit "https://host/x"));
                                           (lit "title", VStr (lit " Guide ")) ] ]) ]).

(** A site whose every page holds a hundred letters and no link. *)
Definition long_page (u : str) : str * option (list str) :=
  (repeat 97%N 100, Some []).

End SampleServices.

(* ================================================================== *)
(** * A sample site *)
(* ================================================================== *)

Module SampleSite.

(** Two pages with the same short text, linking to each other. *)
Definition home : str := lit "https://host/".
Definition about : str := lit "https://host/about".

Definition parts (u : str) : Webscrape.url_parts :=
  {| Webscrape.netloc := lit "host";
     Webscrape.path := if str_eqb u about then lit "/about" else lit "/";
     Webscrape.fragment := [] |}.

Definition scrape (u : str) : str * option (list str) :=
  if str_eqb u home then (lit "Welcome to the scheme.", Some [about; home])
  else if str_eqb u about then (lit "Welcome to the scheme.", Some [home])
  else ([], None).

Definition crawl (max_pages : Z) (fuel : nat) : option (list dict) :=
  Webscrape.crawl_website Samples.ascii_lower Samples.digest_stub
    (fun u => Some (parts u)) parts scrape home max_pages fuel.

End SampleSite.

(* ================================================================== *)
(** * Properties *)
(* ================================================================== *)

(** ** Slices and trimming *)

Lemma len_nonneg {A : Type} (l : list A) : 0 <= len l.
Proof. unfold len. lia. Qed.


Lemma nonempty_true {A : Type} (l : list A) : nonempty l = true <-> l <> [].
Proof. destruct l; simpl; split; congruence. Qed.

Lemma nonempty_false {A : Type} (l : list A) : nonempty l = false <-> l = [].
Proof. destruct l; simpl; split; congruence. Qed.

(** ** Running the chunkers *)

Lemma data_chunk_loop_step fuel text S O start chunks :
  Data.chunk_loop (Datatypes.S fuel) text S O start chunks =
  if start <? len text then
    Data.chunk_loop fuel text S O
      (if start + S - O >? start then start + S - O else start + S)
      (if nonempty (strip (slice text start (start + S)))
       then chunks ++ [strip (slice text start (start + S))] else chunks)
  else Some chunks.
Proof. reflexivity. Qed.

Lemma web_chunk_loop_step fuel text S O start chunks :
  Webscrape.chunk_loop (Datatypes.S fuel) text S O start chunks =
  if start <? len text then
    let end_ := Z.min (start + S) (len text) in
    let chunks' := if nonempty (strip (slice text start end_))
                   then chunks ++ [strip (slice text start end_)] else chunks in
    if end_ - O <? 0 then Some chunks'
    else Webscrape.chunk_loop fuel text S O (end_ - O) chunks'
  else Some chunks.
Proof. reflexivity. Qed.

(** The file chunker moves [start] forward by at least one character per
    round as soon as the chunk size is positive, whatever the overlap. *)
Lemma data_chunk_loop_terminates text S O :
  0 < S ->
  forall fuel start chunks,
    Z.max 0 (len text - start) < Z.of_nat fuel ->
    exists r, Data.chunk_loop fuel text S O start chunks = Some r.
Proof.
  intros HS. induction fuel as [|fuel IH]; intros start chunks Hfuel.
  - lia.
  - rewrite data_chunk_loop_step.
    destruct (start <? len text) eqn:Elt; [|eauto].
    apply Z.ltb_lt in Elt.
    apply IH.
    destruct (start + S - O >? start) eqn:Egt.
    + apply Z.gtb_lt in Egt. lia.
    + lia.
Qed.

Lemma data_chunk_text_terminates text S O :
  0 < S -> exists r, Data.chunk_text text S O (Datatypes.S (length text)) = Some r.
Proof.
  intros HS. unfold Data.chunk_text.
  apply data_chunk_loop_terminates; [assumption|].
  unfold len. lia.
Qed.

(** Once the window has reached the end of the text, the web chunker sets
    [start] back to [len text - overlap] for ever: with a positive overlap
    that fits in the window and in the text, [start] stays in
    [0 .. len text - overlap] and the loop condition stays true. *)
Lemma web_chunk_loop_stuck text S O :
  0 < O -> O <= S -> O <= len text ->
  forall fuel start chunks,
    0 <= start <= len text - O ->
    Webscrape.chunk_loop fuel text S O start chunks = None.
Proof.
  intros HO HS Hn. induction fuel as [|fuel IH]; intros start chunks Hstart.
  - reflexivity.
  - rewrite web_chunk_loop_step.
    destruct (start <? len text) eqn:Elt.
    2:{ apply Z.ltb_ge in Elt. lia. }
    cbv zeta.
    destruct (Z.min (start + S) (len text) - O <? 0) eqn:Eneg.
    { apply Z.ltb_lt in Eneg. lia. }
    apply IH. apply Z.ltb_ge in Eneg. lia.
Qed.

Lemma web_chunk_text_diverges text S O :
  0 < O -> O <= S -> O <= len text ->
  diverges (Webscrape.chunk_text text S O).
Proof.
  intros HO HS Hn fuel. unfold Webscrape.chunk_text.
  apply web_chunk_loop_stuck; try assumption. lia.
Qed.

(** C1 (the file-corpus half): with the default window of 1000 characters
    and overlap of 100, and with any positive chunk size and any overlap,
    the file chunker returns. *)
Lemma data_chunk_text_yields text S O :
  0 < S -> exists r, yields (Data.chunk_text text S O) r.
Proof.
  intros HS. destruct (data_chunk_text_terminates text S O HS) as [r Hr].
  exists r, (Datatypes.S (length text)). exact Hr.
Qed.

(** C1: the web-page chunker, called as [crawl_website] calls it (windows
    of 2500 characters overlapping by 100), never returns on a page text of
    100 characters: no amount of fuel lets the loop finish. *)
Theorem web_chunk_text_never_returns :
  diverges (Webscrape.chunk_text (repeat 97%N 100) 2500 100).
Proof.
  apply web_chunk_text_diverges.
  - lia.
  - lia.
  - unfold len. rewrite repeat_length. simpl. lia.
Qed.

(** ** Texts shorter than one window *)









(** ** Index keys *)

Lemma slice_to_firstn {A : Type} (l : list A) (j : Z) :
  0 <= j -> slice_to l j = firstn (Z.to_nat j) l.
Proof.
  intros Hj. pose proof (len_nonneg l) as Hn.
  unfold slice_to, slice, slice_bound.
  replace (0 <? 0) with false by reflexivity.
  destruct (j <? 0) eqn:Ej; [apply Z.ltb_lt in Ej; lia|].
  rewrite (Z.min_r (len l) 0) by lia.
  rewrite (Z.max_r 0 0) by lia. rewrite Z.sub_0_r. simpl skipn.
  destruct (Z.le_gt_cases j (len l)) as [Hle|Hgt].
  - rewrite Z.min_r by lia. rewrite Z.max_r by lia. reflexivity.
  - rewrite Z.min_l by lia. rewrite Z.max_r by lia.
    unfold len in *. rewrite Nat2Z.id.
    rewrite firstn_all. symmetry. apply firstn_all2. lia.
Qed.

Lemma key_char_underscore_unsafe c :
  Indexing.key_char (Indexing.underscore_unsafe c) = true.
Proof. unfold Indexing.underscore_unsafe. destruct (Indexing.key_char c) eqn:E; [exact E|reflexivity]. Qed.

Lemma underscore_unsafe_fixed c :
  Indexing.key_char c = true -> Indexing.underscore_unsafe c = c.
Proof. unfold Indexing.underscore_unsafe. intros ->. reflexivity. Qed.

Lemma sanitize_id_cons c s :
  Indexing.sanitize_id (c :: s) = firstn 512 (map Indexing.underscore_unsafe (c :: s)).
Proof.
  unfold Indexing.sanitize_id. cbn [nonempty negb].
  rewrite slice_to_firstn by lia. reflexivity.
Qed.

Lemma Forall_firstn_keep {A : Type} (P : A -> Prop) (n : nat) (l : list A) :
  Forall P l -> Forall P (firstn n l).
Proof.
  intros H. revert n. induction H as [|x l Hx Hl IH]; intros [|n]; simpl; auto.
Qed.

Lemma map_fixed {A : Type} (f : A -> A) (l : list A) :
  Forall (fun x => f x = x) l -> map f l = l.
Proof. induction 1 as [|x l Hx Hl IH]; simpl; congruence. Qed.

Lemma sanitize_id_safe s :
  Forall (fun c => Indexing.key_char c = true) (Indexing.sanitize_id s).
Proof.
  destruct s as [|c s].
  - vm_compute. repeat constructor.
  - rewrite sanitize_id_cons. apply Forall_firstn_keep.
    apply Forall_forall. intros x Hx. apply in_map_iff in Hx.
    destruct Hx as [y [<- _]]. apply key_char_underscore_unsafe.
Qed.

Lemma sanitize_id_nonempty s : Indexing.sanitize_id s <> [].
Proof.
  destruct s as [|c s].
  - vm_compute. discriminate.
  - rewrite sanitize_id_cons. simpl. discriminate.
Qed.

Lemma sanitize_id_length s : len (Indexing.sanitize_id s) <= 512.
Proof.
  destruct s as [|c s].
  - vm_compute. discriminate.
  - rewrite sanitize_id_cons. unfold len.
    pose proof (firstn_le_length 512 (map Indexing.underscore_unsafe (c :: s))). lia.
Qed.

(** C6: sanitising is idempotent; its result is never empty, holds only
    letters, digits, [_], [-] and [=], and has at most 512 characters; the
    empty string becomes ["missing_id"]. *)
Theorem sanitize_id_idempotent (s : str) :
  Indexing.sanitize_id (Indexing.sanitize_id s) = Indexing.sanitize_id s
  /\ Indexing.sanitize_id s <> []
  /\ Forall (fun c => Indexing.key_char c = true) (Indexing.sanitize_id s)
  /\ len (Indexing.sanitize_id s) <= 512
  /\ Indexing.sanitize_id [] = lit "missing_id".
Proof.
  split; [|split; [apply sanitize_id_nonempty|
           split; [apply sanitize_id_safe|
           split; [apply sanitize_id_length|reflexivity]]]].
  pose proof (sanitize_id_safe s) as Hsafe.
  pose proof (sanitize_id_length s) as Hlen.
  pose proof (sanitize_id_nonempty s) as Hne.
  destruct (Indexing.sanitize_id s) as [|c t] eqn:E; [congruence|].
  rewrite sanitize_id_cons.
  rewrite map_fixed.
  - apply firstn_all2. unfold len in Hlen. lia.
  - eapply Forall_impl; [|exact Hsafe]. intros a Ha. apply underscore_unsafe_fixed, Ha.
Qed.

(** ** Empty queries *)

(** C8: on a query that is empty or made of whitespace only,
    [search_with_query] returns no match and calls neither the embedding
    service nor the vector store, whatever [k] is. *)
Theorem empty_query_no_calls
    (embed_query : str -> list value) (vector_search : list value -> Z -> list dict)
    (query_text : str) (k : Z) :
  Forall (fun c => isspace c = true) query_text ->
  QueryIndex.search_with_query embed_query vector_search query_text k = ([], []).
Proof.
  intros Hws. unfold QueryIndex.search_with_query.
  assert (Hstrip : strip query_text = []).
  { unfold strip.
    assert (Hl : lstrip query_text = []).
    { induction Hws as [|c s Hc Hs IH]; simpl; [reflexivity|]. rewrite Hc. exact IH. }
    rewrite Hl. reflexivity. }
  rewrite Hstrip. simpl. rewrite orb_true_r. reflexivity.
Qed.

Lemma empty_query_no_calls_witness :
  QueryIndex.search_with_query (fun _ => [VInt 1]) (fun _ _ => [[(lit "id", VStr (lit "a"))]])
    (lit "   ") 5 = ([], [])
  /\ QueryIndex.search_with_query (fun _ => [VInt 1]) (fun _ _ => [[(lit "id", VStr (lit "a"))]])
    [] 3 = ([], []).
Proof.
  split.
  - apply (empty_query_no_calls (fun _ => [VInt 1])
             (fun _ _ => [[(lit "id", VStr (lit "a"))]]) (lit "   ") 5).
    repeat constructor.
  - apply (empty_query_no_calls (fun _ => [VInt 1])
             (fun _ _ => [[(lit "id", VStr (lit "a"))]]) [] 3).
    constructor.
Defined.

(** ** Keys and sets *)

Lemma str_eqb_eq a b : str_eqb a b = true <-> a = b.
Proof.
  revert b. induction a as [|x a IH]; intros [|y b]; simpl; split;
    try congruence; try discriminate.
  - intros H. apply andb_true_iff in H. destruct H as [Hx Ha].
    apply N.eqb_eq in Hx. apply IH in Ha. congruence.
  - intros H. injection H as -> ->. rewrite N.eqb_refl. apply IH. reflexivity.
Qed.

Lemma str_eqb_refl a : str_eqb a a = true.
Proof. apply str_eqb_eq. reflexivity. Qed.

Lemma py_eq_classify a b :
  py_eq a b = true <-> exists c, classify a = Some c /\ classify b = Some c.
Proof.
  destruct a as [|x|x|x|x|x], b as [|y|y|y|y|y]; simpl; split;
    try discriminate; try (intros [c [H1 H2]]; congruence);
    try (intros _; eexists; split; reflexivity).
  all: try (intros H; apply Z.eqb_eq in H; rewrite H; eexists; split; reflexivity).
  all: try (intros [c [H1 H2]]; apply Z.eqb_eq; congruence).
  - intros H. apply str_eqb_eq in H. subst. eexists; split; reflexivity.
  - intros [c [H1 H2]]. apply str_eqb_eq. congruence.
Qed.

Lemma hashable_classify v : hashable v = true <-> exists c, classify v = Some c.
Proof.
  destruct v; simpl; split; try discriminate; try (intros [c H]; discriminate);
    intros _; eauto.
Qed.

Lemma py_eq_refl v : hashable v = true -> py_eq v v = true.
Proof.
  intros H. apply hashable_classify in H. destruct H as [c Hc].
  apply py_eq_classify. eauto.
Qed.

Lemma py_eq_sym a b : py_eq a b = py_eq b a.
Proof.
  destruct (py_eq a b) eqn:E1, (py_eq b a) eqn:E2; try reflexivity.
  - apply py_eq_classify in E1. destruct E1 as [c [H1 H2]].
    assert (py_eq b a = true) by (apply py_eq_classify; eauto). congruence.
  - apply py_eq_classify in E2. destruct E2 as [c [H1 H2]].
    assert (py_eq a b = true) by (apply py_eq_classify; eauto). congruence.
Qed.



Lemma set_mem_app k seen more :
  set_mem k (seen ++ more) = set_mem k seen || set_mem k more.
Proof. apply existsb_app. Qed.


(** ** Merging streams *)

Lemma already_seen_app seen more l :
  already_seen seen l = true -> already_seen (seen ++ more) l = true.
Proof.
  unfold already_seen. destruct (loads l) as [[| | | | |d]|]; try congruence.
  intros H. apply andb_true_iff in H. destruct H as [Hh Hm].
  rewrite Hh, set_mem_app, Hm. reflexivity.
Qed.

(** Lines whose keys are all in [seen] are read without writing anything. *)
Lemma combine_lines_already_seen lines seen out :
  Forall (fun l => already_seen seen l = true) lines ->
  Indexing.combine_lines lines seen out = Ok (seen, out).
Proof.
  induction 1 as [|l lines Hl Hrest IH]; simpl; [reflexivity|].
  unfold already_seen in Hl.
  destruct (loads l) as [[| | | | |d]|]; try discriminate; [|exact IH].
  apply andb_true_iff in Hl. destruct Hl as [Hh Hm].
  rewrite Hh, Hm. simpl. exact IH.
Qed.

(** After a successful pass every key read is in the set, and the set
    only grew. *)
Lemma combine_lines_ok lines :
  forall seen out seen' out',
    Indexing.combine_lines lines seen out = Ok (seen', out') ->
    (exists more, seen' = seen ++ more)
    /\ Forall (fun l => already_seen seen' l = true) lines.
Proof.
  induction lines as [|l lines IH]; simpl; intros seen out seen' out' H.
  - injection H as <- <-. split; [exists []; symmetry; apply app_nil_r|constructor].
  - destruct (loads l) as [[| | | | |d]|] eqn:El; try discriminate.
    + destruct (hashable (Indexing.dedup_key d)) eqn:Eh; simpl in H; [|discriminate].
      destruct (set_mem (Indexing.dedup_key d) seen) eqn:Em.
      * destruct (IH _ _ _ _ H) as [[more Hmore] Hall].
        split; [eauto|]. constructor; [|exact Hall].
        unfold already_seen. rewrite El, Eh. subst seen'.
        rewrite set_mem_app, Em. reflexivity.
      * destruct (IH _ _ _ _ H) as [[more Hmore] Hall].
        split; [exists ([Indexing.dedup_key d] ++ more); rewrite Hmore, <- app_assoc; reflexivity|].
        constructor; [|exact Hall].
        unfold already_seen. rewrite El, Eh. subst seen'.
        rewrite !set_mem_app. simpl. rewrite py_eq_refl by exact Eh.
        rewrite orb_true_r. reflexivity.
    + destruct (IH _ _ _ _ H) as [Hmore Hall].
      split; [exact Hmore|]. constructor; [|exact Hall].
      unfold already_seen. rewrite El. reflexivity.
Qed.

Lemma combine_lines_twice lines seen out seen' out' :
  Indexing.combine_lines lines seen out = Ok (seen', out') ->
  Indexing.combine_lines lines seen' out' = Ok (seen', out').
Proof.
  intros H. apply combine_lines_already_seen.
  exact (proj2 (combine_lines_ok _ _ _ _ _ H)).
Qed.

Lemma combine_paths_absent fs q seen out :
  absent fs q -> Indexing.combine_paths fs [q] seen out = Ok (seen, out).
Proof.
  intros [-> | [H | H]]; simpl.
  - reflexivity.
  - destruct (nonempty q); simpl; [rewrite H|]; reflexivity.
  - destruct (nonempty q); simpl; [rewrite H|]; reflexivity.
Qed.

Lemma combine_paths_cons fs p ps seen out :
  Indexing.combine_paths fs (p :: ps) seen out =
  so <- Indexing.combine_paths fs [p] seen out ;;
  Indexing.combine_paths fs ps (fst so) (snd so).
Proof.
  simpl. destruct (negb (nonempty p)); [reflexivity|].
  destruct (fs p) as [lines|]; [|reflexivity].
  destruct (Indexing.combine_lines lines seen out) as [[s o]|e]; reflexivity.
Qed.

Lemma combine_paths_one_twice fs p seen out seen' out' :
  Indexing.combine_paths fs [p] seen out = Ok (seen', out') ->
  Indexing.combine_paths fs [p] seen' out' = Ok (seen', out').
Proof.
  simpl. destruct (negb (nonempty p)); [congruence|].
  destruct (fs p) as [lines|]; [|congruence].
  destruct (Indexing.combine_lines lines seen out) as [[s o]|e] eqn:E; simpl; [|discriminate].
  intros H. injection H as <- <-.
  rewrite (combine_lines_twice _ _ _ _ _ E). reflexivity.
Qed.

(** C5: merging a stream with itself gives what deduplicating the stream
    alone gives, and so does merging it with an absent or empty stream, on
    either side; an absent stream on its own gives the empty result and no
    exception. *)
Theorem merge_absent_and_self
    (fs : str -> option (list line)) (A q : str) :
  Indexing.combine_jsonl fs [A; A] = dedupe fs A
  /\ (absent fs q ->
      Indexing.combine_jsonl fs [A; q] = dedupe fs A
      /\ Indexing.combine_jsonl fs [q; A] = dedupe fs A
      /\ Indexing.combine_jsonl fs [q] = Ok []).
Proof.
  unfold dedupe, Indexing.combine_jsonl. split.
  - rewrite combine_paths_cons.
    destruct (Indexing.combine_paths fs [A] [] []) as [[s o]|e] eqn:E; [|reflexivity].
    cbn [bind fst snd]. rewrite (combine_paths_one_twice _ _ _ _ _ _ E). reflexivity.
  - intros Hq. repeat split.
    + rewrite combine_paths_cons.
      destruct (Indexing.combine_paths fs [A] [] []) as [[s o]|e]; [|reflexivity].
      cbn [bind fst snd]. rewrite (combine_paths_absent fs q s o Hq). reflexivity.
    + rewrite combine_paths_cons.
      rewrite (combine_paths_absent fs q [] [] Hq). reflexivity.
    + rewrite (combine_paths_absent fs q [] [] Hq). reflexivity.
Qed.

Lemma merge_absent_and_self_witness :
  Indexing.combine_jsonl Samples.corpus_fs
    [lit "out/ndis_parsed.jsonl"; lit "out/missing.jsonl"]
  = dedupe Samples.corpus_fs (lit "out/ndis_parsed.jsonl")
  /\ Indexing.combine_jsonl Samples.corpus_fs
       [lit "out/ndis_parsed.jsonl"; lit "out/ndis_parsed.jsonl"]
     = Ok [ Samples.file_rec "guide_1" "alpha" "aa11";
            Samples.file_rec "guide_2" "beta" "bb22" ].
Proof.
  assert (Habs : absent Samples.corpus_fs (lit "out/missing.jsonl")).
  { right. left. reflexivity. }
  pose proof (merge_absent_and_self Samples.corpus_fs
                (lit "out/ndis_parsed.jsonl") (lit "out/missing.jsonl"))
    as [Hself Habsent].
  destruct (Habsent Habs) as [H1 _].
  split; [exact H1|]. rewrite Hself. reflexivity.
Defined.

Lemma combine_lines_app l1 l2 seen out :
  Indexing.combine_lines (l1 ++ l2) seen out =
  so <- Indexing.combine_lines l1 seen out ;;
  Indexing.combine_lines l2 (fst so) (snd so).
Proof.
  revert seen out. induction l1 as [|l l1 IH]; intros seen out; simpl; [reflexivity|].
  destruct (loads l) as [[| | | | |d]|]; try reflexivity; [|apply IH].
  destruct (negb (hashable (Indexing.dedup_key d))); [reflexivity|].
  destruct (set_mem (Indexing.dedup_key d) seen); apply IH.
Qed.

(** Reading several files is reading their lines one after the other. *)
Lemma combine_paths_merged fs paths :
  forall seen out,
    Indexing.combine_paths fs paths seen out =
    Indexing.combine_lines (merged_input fs paths) seen out.
Proof.
  induction paths as [|p ps IH]; intros seen out; simpl; [reflexivity|].
  rewrite combine_lines_app.
  destruct (nonempty p); simpl.
  - destruct (fs p) as [lines|]; simpl.
    + destruct (Indexing.combine_lines lines seen out) as [[s o]|e]; simpl; [apply IH|reflexivity].
    + apply IH.
  - apply IH.
Qed.

Lemma records_of_cons l lines :
  records_of (l :: lines) =
  match loads l with Some (VDict d) => [d] | _ => [] end ++ records_of lines.
Proof. reflexivity. Qed.






(** ** Loading the embedded corpus *)

Lemma truthy_por a b : truthy (por a b) = truthy a || truthy b.
Proof. unfold por. destruct (truthy a) eqn:E; [rewrite E|]; reflexivity. Qed.

Lemma load_line_vector repr rec :
  Indexing.load_line repr (Parsed (VDict rec)) =
  if has_vector rec then
    content <- Indexing.value_slice_to (text_payload rec) 32766 ;;
    Ok (Some [ (lit "id",
                  VStr (Indexing.sanitize_id
                          (Indexing.py_str repr (get_default rec (lit "id") (VStr [])))));
               (lit "content", content);
               (lit "source",
                  VStr (Indexing.py_str repr
                          (por (por (get rec (lit "source")) (get rec (lit "file_name")))
                               (VStr (lit "local")))));
               (lit "embedding",
                  por (por (get rec (lit "embedding")) (get rec (lit "vector")))
                      (get rec (lit "content_vector"))) ])
  else Ok None.
Proof.
  unfold Indexing.load_line, has_vector. simpl loads. cbv iota.
  rewrite !truthy_por.
  destruct (truthy (get rec (lit "embedding")) || truthy (get rec (lit "vector"))
            || truthy (get rec (lit "content_vector"))); reflexivity.
Qed.

(** A line that does not parse, and a record without vector, add nothing
    and raise nothing. *)
Lemma load_line_dropped repr l :
  (loads l = None -> Indexing.load_line repr l = Ok None)
  /\ (forall rec, l = Parsed (VDict rec) -> has_vector rec = false ->
        Indexing.load_line repr l = Ok None).
Proof.
  split.
  - intros H. unfold Indexing.load_line. rewrite H. reflexivity.
  - intros rec -> Hv. rewrite load_line_vector, Hv. reflexivity.
Qed.

(** Whatever the loader returns for a line, it is a document exactly when
    the line carries a vector. *)
Lemma load_line_ok repr l r :
  Indexing.load_line repr l = Ok r ->
  (carries_vector l = true /\ exists doc, r = Some doc)
  \/ (carries_vector l = false /\ r = None).
Proof.
  destruct l as [| |[| | | | |rec]]; try (simpl; discriminate);
    try (simpl; intros H; injection H as <-; right; split; reflexivity).
  rewrite load_line_vector. unfold carries_vector. simpl loads. cbv iota.
  destruct (has_vector rec).
  - destruct (Indexing.value_slice_to (text_payload rec) 32766); simpl; [|discriminate].
    intros H. injection H as <-. left. split; [reflexivity|eauto].
  - intros H. injection H as <-. right. split; reflexivity.
Qed.

(** On a line of a corpus file the loader returns. *)
Lemma load_line_total repr l :
  corpus_line l = true -> exists r, Indexing.load_line repr l = Ok r.
Proof.
  unfold corpus_line.
  destruct l as [| |[| | | | |rec]]; simpl loads; cbv iota; try discriminate;
    try (intros _; eexists; reflexivity).
  intros H. rewrite load_line_vector.
  destruct (has_vector rec); [|eauto].
  simpl in H. destruct (text_payload rec); try discriminate; simpl; eauto.
Qed.

Lemma load_embedded_ok repr lines :
  forall docs,
    Indexing.load_embedded repr lines = Ok docs ->
    Forall2 (fun l doc => Indexing.load_line repr l = Ok (Some doc))
            (filter carries_vector lines) docs.
Proof.
  induction lines as [|l lines IH]; simpl; intros docs H.
  - injection H as <-. constructor.
  - destruct (Indexing.load_line repr l) as [r|e] eqn:El; simpl in H; [|discriminate].
    destruct (Indexing.load_embedded repr lines) as [rest|e]; simpl in H; [|discriminate].
    injection H as <-.
    destruct (load_line_ok repr l r El) as [[Hv [doc ->]]|[Hv ->]]; rewrite Hv.
    + constructor; [exact El|apply IH; reflexivity].
    + apply IH. reflexivity.
Qed.

Lemma load_embedded_total repr lines :
  Forall (fun l => corpus_line l = true) lines ->
  exists docs, Indexing.load_embedded repr lines = Ok docs.
Proof.
  induction 1 as [|l lines Hl Hrest [docs IH]]; simpl; [eauto|].
  destruct (load_line_total repr l Hl) as [r ->]. rewrite IH. simpl. eauto.
Qed.

(** A line on which [load_line] raises nothing is a corpus line. *)
Lemma load_line_corpus repr l r :
  Indexing.load_line repr l = Ok r -> corpus_line l = true.
Proof.
  unfold corpus_line.
  destruct l as [| |[| | | | |rec]]; simpl loads; cbv iota; try reflexivity;
    try (simpl; discriminate).
  rewrite load_line_vector.
  destruct (has_vector rec); [|reflexivity].
  destruct (text_payload rec); simpl; try discriminate; reflexivity.
Qed.

Lemma load_embedded_corpus repr lines :
  forall docs,
    Indexing.load_embedded repr lines = Ok docs ->
    Forall (fun l => corpus_line l = true) lines.
Proof.
  induction lines as [|l lines IH]; intros docs H; [constructor|].
  simpl in H.
  destruct (Indexing.load_line repr l) as [r|e] eqn:El; simpl in H; [|discriminate].
  destruct (Indexing.load_embedded repr lines) as [rest|e]; simpl in H; [|discriminate].
  constructor; [apply (load_line_corpus repr l r El)|apply (IH rest); reflexivity].
Qed.

(** C9, as amended.  A line yields an upload document exactly when it
    parses to a record (a JSON object) that has a non-empty [embedding],
    [vector] or [content_vector] and whose text, the first non-empty of
    [content], [text] and [page_content], is a string or a list.  A line
    yields nothing and raises nothing exactly when it does not parse or
    is a record without vector.  Every other line raises: JSON that is
    not an object gives [AttributeError], a record with a vector whose
    text is neither a string nor a list gives [TypeError].
    [load_embedded] returns exactly when no line raises, and then returns
    the documents of the lines that carry a vector, one each, in order. *)
Theorem load_embedded_keeps_vectors (repr : value -> str) :
  (forall l,
     (exists doc, Indexing.load_line repr l = Ok (Some doc))
     <-> (carries_vector l = true /\ corpus_line l = true))
  /\ (forall l,
        Indexing.load_line repr l = Ok None
        <-> (loads l = None
             \/ exists rec, l = Parsed (VDict rec) /\ has_vector rec = false))
  /\ (forall l e,
        Indexing.load_line repr l = Err e
        <-> ((exists v, l = Parsed v /\ is_object v = false /\ e = AttributeError)
             \/ (exists rec, l = Parsed (VDict rec) /\ has_vector rec = true
                             /\ is_text_or_list (text_payload rec) = false
                             /\ e = TypeError)))
  /\ (forall lines,
        (exists docs, Indexing.load_embedded repr lines = Ok docs)
        <-> Forall (fun l => corpus_line l = true) lines)
  /\ (forall lines docs,
        Indexing.load_embedded repr lines = Ok docs ->
        Forall2 (fun l doc => Indexing.load_line repr l = Ok (Some doc))
                (filter carries_vector lines) docs
        /\ length docs = length (filter carries_vector lines)).
Proof.
  split; [|split; [|split; [|split]]].
  - intros l. split.
    + intros [doc H]. split; [|apply (load_line_corpus repr l _ H)].
      destruct (load_line_ok repr l _ H) as [[Hv _]|[_ Hn]]; [exact Hv|discriminate].
    + intros [Hv Hc]. destruct (load_line_total repr l Hc) as [r Hr].
      destruct (load_line_ok repr l r Hr) as [[_ [doc ->]]|[Hn _]]; [eauto|congruence].
  - intros l. split.
    + intros H. destruct l as [| |[| | | | |rec]]; try (left; reflexivity);
        try (simpl in H; discriminate).
      right. exists rec. split; [reflexivity|].
      rewrite load_line_vector in H.
      destruct (has_vector rec); [|reflexivity].
      destruct (Indexing.value_slice_to (text_payload rec) 32766); simpl in H; discriminate.
    + intros [H|[rec [-> H]]]; [apply load_line_dropped, H|].
      apply (proj2 (load_line_dropped repr (Parsed (VDict rec))) rec eq_refl H).
  - intros l e. split.
    + intros H. destruct l as [| |v]; try (simpl in H; discriminate).
      destruct v as [| | | | |rec];
        try (left; eexists; split; [reflexivity|]; split; [reflexivity|];
             unfold Indexing.load_line in H; simpl in H; congruence).
      right. exists rec. split; [reflexivity|].
      rewrite load_line_vector in H.
      destruct (has_vector rec); [|discriminate]. split; [reflexivity|].
      destruct (text_payload rec); simpl in H; try discriminate;
        (split; [reflexivity|congruence]).
    + intros [[v [-> [Hv ->]]]|[rec [-> [Hv [Ht ->]]]]].
      * destruct v; try reflexivity. discriminate Hv.
      * rewrite load_line_vector, Hv.
        destruct (text_payload rec); try discriminate; reflexivity.
  - intros lines. split.
    + intros [docs H]. apply (load_embedded_corpus repr lines docs H).
    + apply load_embedded_total.
  - intros lines docs Hrun.
    pose proof (load_embedded_ok repr lines docs Hrun) as H2.
    split; [exact H2|]. symmetry. apply (Forall2_length H2).
Qed.

Lemma load_embedded_keeps_vectors_witness :
  exists docs,
    Indexing.load_embedded Samples.repr_stub Samples.embedded_lines = Ok docs
    /\ map (fun d => get d (lit "id")) docs
       = [VStr (lit "guide_1"); VStr (lit "host_x_1")].
Proof.
  assert (Hc : Forall (fun l => corpus_line l = true) Samples.embedded_lines).
  { vm_compute. repeat constructor. }
  destruct (proj2 (proj1 (proj2 (proj2 (proj2 (load_embedded_keeps_vectors
                                             Samples.repr_stub))))
                     Samples.embedded_lines) Hc)
    as [docs Hrun].
  exists docs. split; [exact Hrun|].
  vm_compute in Hrun. injection Hrun as <-. reflexivity.
Defined.

(** C9 as stated fails on a line that parses and carries a vector but
    whose text cannot be cut: no document is produced and the whole file
    is rejected with [TypeError]; and a line that parses to JSON other
    than an object is not dropped either, it raises [AttributeError]. *)
Lemma vector_without_text_counterexample :
  carries_vector
    (Parsed (VDict [ (lit "id", VStr (lit "x")); (lit "content", VInt 5);
                     (lit "embedding", VList [VInt 1]) ])) = true
  /\ Indexing.load_line Samples.repr_stub
       (Parsed (VDict [ (lit "id", VStr (lit "x")); (lit "content", VInt 5);
                        (lit "embedding", VList [VInt 1]) ])) = Err TypeError
  /\ Indexing.load_embedded Samples.repr_stub
       (Samples.embedded_lines
        ++ [Parsed (VDict [ (lit "id", VStr (lit "x")); (lit "content", VInt 5);
                            (lit "embedding", VList [VInt 1]) ])]) = Err TypeError
  /\ loads (Parsed (VInt 5)) = Some (VInt 5)
  /\ Indexing.load_embedded Samples.repr_stub [Parsed (VInt 5)] = Err AttributeError.
Proof. repeat split; reflexivity. Qed.

(** ** The numbered context *)

Lemma enumerate_In {A : Type} (l : list A) :
  forall s i x,
    In (i, x) (enumerate s l) <-> s <= i /\ nth_error l (Z.to_nat (i - s)) = Some x.
Proof.
  induction l as [|y l IH]; intros s i x; simpl.
  - split; [intros []|]. intros [_ H]. destruct (Z.to_nat (i - s)); discriminate.
  - rewrite IH. split.
    + intros [H|[Hle Hnth]].
      * injection H as <- <-. split; [lia|]. rewrite Z.sub_diag. reflexivity.
      * split; [lia|].
        replace (Z.to_nat (i - s)) with (Datatypes.S (Z.to_nat (i - (s + 1)))) by lia.
        exact Hnth.
    + intros [Hle Hnth].
      destruct (Z.eq_dec i s) as [->|Hne].
      * left. rewrite Z.sub_diag in Hnth. simpl in Hnth. congruence.
      * right. split; [lia|].
        replace (Z.to_nat (i - s)) with (Datatypes.S (Z.to_nat (i - (s + 1)))) in Hnth by lia.
        exact Hnth.
Qed.

Lemma enumerate_filter_sorted {A : Type} (f : Z * A -> bool) (l : list A) :
  forall s,
    StronglySorted Z.lt (map fst (filter f (enumerate s l)))
    /\ Forall (fun i => s <= i) (map fst (filter f (enumerate s l))).
Proof.
  induction l as [|x l IH]; intros s; simpl.
  - split; constructor.
  - destruct (IH (s + 1)) as [Hsorted Hlow].
    assert (Hlow' : Forall (fun i => s < i) (map fst (filter f (enumerate (s + 1) l)))).
    { eapply Forall_impl; [|exact Hlow]. simpl. intros; lia. }
    destruct (f (s, x)); simpl.
    + split.
      * constructor; assumption.
      * constructor; [lia|]. eapply Forall_impl; [|exact Hlow']. simpl. intros; lia.
    + split; [assumption|]. eapply Forall_impl; [|exact Hlow']. simpl. intros; lia.
Qed.

(** Whatever the loop body returns for document [d] at number [i], it is
    an entry labelled [i] with the text of [d] exactly when that text is
    not empty. *)
Lemma context_entry_ok repr lower title i d r :
  RAGLLM.context_entry repr lower title i d = Ok r ->
  (has_text (i, d) = true
   /\ exists e t,
        r = Some e
        /\ RAGLLM.label e = i
        /\ RAGLLM._txt d = VStr t
        /\ RAGLLM.body e = join (lit " ") (split t))
  \/ (has_text (i, d) = false /\ r = None).
Proof.
  unfold has_text, RAGLLM.context_entry. simpl snd.
  destruct (truthy (RAGLLM._txt d)) eqn:Et; simpl negb; cbv iota.
  2:{ intros H. injection H as <-. right. split; reflexivity. }
  intros H. left. split; [reflexivity|].
  destruct (get_default d (lit "source") (VStr [])) as [| | |s| |];
    repeat match type of H with
           | context [if ?c then _ else _] => destruct c
           end;
    simpl in H; try discriminate;
    destruct (RAGLLM._txt d) as [| | |t| |]; try discriminate;
    injection H as <-; eexists; exists t; repeat split; reflexivity.
Qed.

(** On a retrieved document the loop body returns. *)
Lemma context_entry_total repr lower title i d :
  retrieved_doc d = true ->
  exists r, RAGLLM.context_entry repr lower title i d = Ok r.
Proof.
  unfold retrieved_doc, RAGLLM.context_entry.
  destruct (truthy (RAGLLM._txt d)) eqn:Et; simpl; [|eauto].
  intros Hd. apply andb_true_iff in Hd. destruct Hd as [Htxt Hsrc].
  destruct (RAGLLM._txt d) as [| | |t| |]; try discriminate.
  destruct (get_default d (lit "source") (VStr [])) as [| | |s| |]; try discriminate.
  destruct (truthy (VStr s)); [destruct (truthy (get d (lit "title")))|];
    simpl; eauto.
Qed.

Lemma context_entries_ok repr lower title docs :
  forall es,
    RAGLLM.context_entries repr lower title docs = Ok es ->
    Forall2 (fun p e =>
               RAGLLM.label e = fst p
               /\ exists t, RAGLLM._txt (snd p) = VStr t
                            /\ RAGLLM.body e = join (lit " ") (split t))
            (filter has_text docs) es.
Proof.
  induction docs as [|[i d] docs IH]; simpl; intros es H.
  - injection H as <-. constructor.
  - destruct (RAGLLM.context_entry repr lower title i d) as [r|x] eqn:Ee;
      simpl in H; [|discriminate].
    destruct (RAGLLM.context_entries repr lower title docs) as [rest|x];
      simpl in H; [|discriminate].
    injection H as <-.
    destruct (context_entry_ok _ _ _ _ _ _ Ee)
      as [[Ht [e [t [-> [Hl [Htxt Hb]]]]]]|[Ht ->]]; rewrite Ht.
    + constructor; [|apply IH; reflexivity].
      split; [exact Hl|]. exists t. split; assumption.
    + apply IH. reflexivity.
Qed.

Lemma context_entries_total repr lower title docs :
  Forall (fun p => retrieved_doc (snd p) = true) docs ->
  exists es, RAGLLM.context_entries repr lower title docs = Ok es.
Proof.
  induction 1 as [|[i d] docs Hd Hrest [es IH]]; simpl; [eauto|].
  destruct (context_entry_total repr lower title i d Hd) as [r ->].
  rewrite IH. simpl. eauto.
Qed.

Lemma Forall_enumerate {A : Type} (P : A -> Prop) (l : list A) :
  Forall P l -> forall s, Forall (fun p => P (snd p)) (enumerate s l).
Proof. induction 1; intros s; simpl; constructor; auto. Qed.

(** What [_txt] reads is the first non-empty value under the accepted
    keys. *)
Lemma txt_under_keys d :
  RAGLLM._txt d = match text_under_keys d with Some v => v | None => VStr [] end
  /\ truthy (RAGLLM._txt d) = negb (empty_under_all_keys d).
Proof.
  unfold RAGLLM._txt, text_under_keys, empty_under_all_keys, TEXT_KEYS.
  cbn [map find forallb].
  destruct (truthy (get d (lit "text"))) eqn:E1; [rewrite E1; split; reflexivity|].
  destruct (truthy (get d (lit "content"))) eqn:E2; [rewrite E2; split; reflexivity|].
  destruct (truthy (get d (lit "chunk"))) eqn:E3; [rewrite E3; split; reflexivity|].
  destruct (truthy (get d (lit "page_content"))) eqn:E4; [rewrite E4; split; reflexivity|].
  split; reflexivity.
Qed.

Lemma has_text_keeps_entry p : has_text p = keeps_entry p.
Proof. unfold has_text, keeps_entry. apply txt_under_keys. Qed.

Lemma txt_string_under_keys d t :
  truthy (RAGLLM._txt d) = true -> RAGLLM._txt d = VStr t ->
  text_under_keys d = Some (VStr t).
Proof.
  destruct (txt_under_keys d) as [Hv Ht]. rewrite Ht. intros He Hs.
  unfold empty_under_all_keys, text_under_keys in *.
  destruct (find truthy (map (get d) TEXT_KEYS)) as [v|] eqn:Ef.
  - congruence.
  - exfalso. unfold TEXT_KEYS in *. cbn [map find forallb] in *.
    destruct (truthy (get d (lit "text"))); [discriminate|].
    destruct (truthy (get d (lit "content"))); [discriminate|].
    destruct (truthy (get d (lit "chunk"))); [discriminate|].
    destruct (truthy (get d (lit "page_content"))); discriminate.
Qed.

Lemma readable_retrieved d : readable_doc d = true -> retrieved_doc d = true.
Proof.
  unfold readable_doc, retrieved_doc. destruct (txt_under_keys d) as [Hv Ht].
  rewrite Ht, Hv. unfold empty_under_all_keys, text_under_keys, TEXT_KEYS.
  cbn [map find forallb].
  destruct (truthy (get d (lit "text"))); [simpl; auto|].
  destruct (truthy (get d (lit "content"))); [simpl; auto|].
  destruct (truthy (get d (lit "chunk"))); [simpl; auto|].
  destruct (truthy (get d (lit "page_content"))); simpl; auto.
Qed.

Lemma render_labelled es : map RAGLLM.render es
  = map (fun e => labelled (RAGLLM.label e) (RAGLLM.body e) (RAGLLM.ref e)) es.
Proof. apply map_ext. intros e. reflexivity. Qed.

(** C10: the context [build_context] returns is the text of its entries,
    one block per entry and an empty line between two blocks, in input
    order; a block opens with the label [[i]], the 1-based position of its
    document in the input list, followed by the text of that document
    with its whitespace collapsed, the text being the first non-empty
    value under [text], [content], [chunk] and [page_content]; a document
    that is empty under all four keys gets no block but keeps its number,
    so the labels increase strictly without having to be consecutive; and
    on documents whose text and source are strings the context is built
    without exception. *)
Theorem build_context_labels
    (repr : value -> str) (str_lower str_title : str -> str) (docs : list dict) :
  (forall context,
     RAGLLM.build_context repr str_lower str_title docs = Ok context ->
     exists es,
       context = emitted es
       /\ Forall2 (fun p e =>
                     RAGLLM.label e = fst p
                     /\ nth_error docs (Z.to_nat (fst p - 1)) = Some (snd p)
                     /\ exists t, text_under_keys (snd p) = Some (VStr t)
                                  /\ RAGLLM.body e = join (lit " ") (split t))
                  (filter keeps_entry (enumerate 1 docs)) es
       /\ map RAGLLM.label es = map fst (filter keeps_entry (enumerate 1 docs))
       /\ StronglySorted Z.lt (map RAGLLM.label es))
  /\ (Forall (fun d => readable_doc d = true) docs ->
      exists context, RAGLLM.build_context repr str_lower str_title docs = Ok context).
Proof.
  assert (Hfilter : filter keeps_entry (enumerate 1 docs)
                    = filter has_text (enumerate 1 docs)).
  { apply filter_ext. intros p. symmetry. apply has_text_keeps_entry. }
  split.
  2:{ intros Hdocs. unfold RAGLLM.build_context, RAGLLM.build_context_lines.
      destruct (context_entries_total repr str_lower str_title (enumerate 1 docs))
        as [es Hes].
      - apply (Forall_enumerate (fun d => retrieved_doc d = true)).
        eapply Forall_impl; [|exact Hdocs]. apply readable_retrieved.
      - rewrite Hes. simpl. eauto. }
  intros context Hctx. unfold RAGLLM.build_context in Hctx.
  destruct (RAGLLM.build_context_lines repr str_lower str_title docs) as [es|x] eqn:Hrun;
    simpl in Hctx; [|discriminate].
  injection Hctx as <-.
  pose proof (context_entries_ok repr str_lower str_title _ es Hrun) as Hes.
  exists es. rewrite Hfilter. clear Hfilter.
  split; [unfold emitted; rewrite render_labelled; reflexivity|].
  assert (Hlabels : map RAGLLM.label es = map fst (filter has_text (enumerate 1 docs))).
  { clear Hrun. induction Hes as [|p e ps es' [Hl _] _ IH]; simpl; [reflexivity|].
    rewrite Hl, IH. reflexivity. }
  split; [|split; [exact Hlabels|]].
  - assert (Hpos : Forall (fun p => nth_error docs (Z.to_nat (fst p - 1)) = Some (snd p)
                                    /\ has_text p = true)
                     (filter has_text (enumerate 1 docs))).
    { apply Forall_forall. intros [i d] Hin. apply filter_In in Hin.
      destruct Hin as [Hin Ht]. apply enumerate_In in Hin. simpl. split; [apply Hin|exact Ht]. }
    clear Hrun Hlabels.
    induction Hes as [|p e ps es' [Hl [t [Ht Hb]]] _ IH]; [constructor|].
    inversion Hpos as [|? ? [Hn Hp] Hrest]; subst. constructor; [|apply IH; assumption].
    split; [exact Hl|]. split; [exact Hn|].
    exists t. split; [|exact Hb].
    apply txt_string_under_keys; [exact Hp|exact Ht].
  - rewrite Hlabels. apply enumerate_filter_sorted.
Qed.

Lemma build_context_labels_witness :
  exists context es,
    RAGLLM.build_context Samples.repr_stub Samples.ascii_lower Samples.title_stub
      Samples.retrieved = Ok context
    /\ context = emitted es
    /\ map RAGLLM.label es = [1; 3]
    /\ context = lit "[1] alpha beta" ++ [10%N] ++ lit "(Source: guide)"
                 ++ [10%N; 10%N]
                 ++ lit "[3] gamma" ++ [10%N] ++ lit "(Source: x - https://host/x)".
Proof.
  assert (Hd : Forall (fun d => readable_doc d = true) Samples.retrieved).
  { vm_compute. repeat constructor. }
  destruct (proj2 (build_context_labels Samples.repr_stub Samples.ascii_lower
                     Samples.title_stub Samples.retrieved) Hd) as [context Hrun].
  destruct (proj1 (build_context_labels Samples.repr_stub Samples.ascii_lower
                     Samples.title_stub Samples.retrieved) context Hrun)
    as [es [Hctx [_ [Hlabels _]]]].
  exists context, es. split; [exact Hrun|]. split; [exact Hctx|].
  split; [rewrite Hlabels; reflexivity|].
  vm_compute in Hrun. injection Hrun as <-. reflexivity.
Defined.

(** ** Dictionaries *)

Lemma lookup_set d k v k' :
  lookup (set d k v) k' = if str_eqb k' k then Some v else lookup d k'.
Proof.
  induction d as [|[k1 v1] d IH]; simpl.
  - destruct (str_eqb k' k); reflexivity.
  - destruct (str_eqb k k1) eqn:E1; simpl.
    + apply str_eqb_eq in E1. subst k1.
      destruct (str_eqb k' k); reflexivity.
    + rewrite IH. destruct (str_eqb k' k1) eqn:E2; [|reflexivity].
      apply str_eqb_eq in E2. subst k1.
      destruct (str_eqb k' k) eqn:E3; [|reflexivity].
      apply str_eqb_eq in E3. subst k'. rewrite str_eqb_refl in E1. discriminate.
Qed.

Lemma lookup_remove_other d k k' :
  str_eqb k' k = false -> lookup (remove d k) k' = lookup d k'.
Proof.
  intros Hne. induction d as [|[k1 v1] d IH]; simpl; [reflexivity|].
  destruct (str_eqb k k1) eqn:E1; simpl.
  - apply str_eqb_eq in E1. subst k1. rewrite Hne. reflexivity.
  - rewrite IH. reflexivity.
Qed.

Lemma get_set_same d k v : get (set d k v) k = v.
Proof. unfold get, get_default. rewrite lookup_set, str_eqb_refl. reflexivity. Qed.

Lemma get_set_other d k v k' :
  str_eqb k' k = false -> get (set d k v) k' = get d k'.
Proof. intros H. unfold get, get_default. rewrite lookup_set, H. reflexivity. Qed.

Lemma get_remove_other d k k' :
  str_eqb k' k = false -> get (remove d k) k' = get d k'.
Proof. intros H. unfold get, get_default. rewrite lookup_remove_other by exact H. reflexivity. Qed.

(** Every record written by [flush_batch] carries its vector. *)
Lemma attach_embedding rec e :
  get (Embeddings.attach rec e) (lit "embedding") = VList e.
Proof.
  unfold Embeddings.attach.
  destruct (negb _ && _).
  - rewrite get_set_other by reflexivity.
    rewrite get_remove_other by reflexivity.
    rewrite get_set_other by reflexivity.
    apply get_set_same.
  - rewrite get_set_other by reflexivity. apply get_set_same.
Qed.

(** ** Batches *)

Lemma combine_app_same {A B : Type} (l1 l2 : list A) (r1 r2 : list B) :
  length l1 = length r1 ->
  combine (l1 ++ l2) (r1 ++ r2) = combine l1 r1 ++ combine l2 r2.
Proof.
  revert r1. induction l1 as [|x l1 IH]; intros [|y r1] H; simpl in *; try discriminate.
  - reflexivity.
  - rewrite IH by congruence. reflexivity.
Qed.

Lemma attach_all_app l1 l2 r1 r2 :
  length l1 = length r1 ->
  attach_all (l1 ++ l2) (r1 ++ r2) = attach_all l1 r1 ++ attach_all l2 r2.
Proof.
  intros H. unfold attach_all. rewrite combine_app_same by exact H. apply map_app.
Qed.

Lemma responses_app create c1 c2 :
  responses create (c1 ++ c2) = responses create c1 ++ responses create c2.
Proof. unfold responses. rewrite map_app. apply concat_app. Qed.

Lemma len_app {A : Type} (a b : list A) : len (a ++ b) = len a + len b.
Proof. unfold len. rewrite length_app. lia. Qed.

Lemma len_concat_full {A : Type} (B : Z) (full : list (list A)) :
  Forall (fun c => len c = B) full -> len (concat full) = B * len full.
Proof.
  induction 1 as [|c full Hc Hfull IH]; simpl.
  - unfold len. simpl. lia.
  - rewrite len_app, IH, Hc. unfold len. simpl length. lia.
Qed.

Section Batching.

Variable create : list value -> result (list (list value)).
Variable env_batch : Z.
Variable B : Z.
Hypothesis B_positive : 1 <= B.
Hypothesis contract : one_vector_per_text create.

Lemma response_length batch : length (response create batch) = length batch.
Proof.
  unfold response. destruct (contract batch) as [data [-> Hlen]]. exact Hlen.
Qed.

(** Flushing a pending batch sends it in one call and writes its records
    with the vectors returned. *)
Lemma flush_pending st :
  Embeddings.batch_texts st <> [] ->
  Embeddings.flush_batch create st =
  Ok {| Embeddings.batch_texts := [];
        Embeddings.batch_recs := [];
        Embeddings.fout :=
          Embeddings.fout st
          ++ attach_all (Embeddings.batch_recs st) (response create (Embeddings.batch_texts st));
        Embeddings.calls := Embeddings.calls st ++ [Embeddings.batch_texts st] |}.
Proof.
  intros Hne. unfold Embeddings.flush_batch, response.
  apply nonempty_true in Hne. rewrite Hne. simpl.
  destruct (contract (Embeddings.batch_texts st)) as [data [-> _]]. reflexivity.
Qed.

(** Flushing keeps the output paired with the vectors returned. *)
Lemma flush_batching st flushed :
  Embeddings.batch_texts st = map record_text (Embeddings.batch_recs st) ->
  concat (Embeddings.calls st) = map record_text flushed ->
  length (responses create (Embeddings.calls st)) = length flushed ->
  Embeddings.fout st = attach_all flushed (responses create (Embeddings.calls st)) ->
  Embeddings.batch_texts st <> [] ->
  exists st',
    Embeddings.flush_batch create st = Ok st'
    /\ Embeddings.batch_texts st' = []
    /\ Embeddings.batch_recs st' = []
    /\ Embeddings.calls st' = Embeddings.calls st ++ [Embeddings.batch_texts st]
    /\ concat (Embeddings.calls st') = map record_text (flushed ++ Embeddings.batch_recs st)
    /\ length (responses create (Embeddings.calls st'))
       = length (flushed ++ Embeddings.batch_recs st)
    /\ Embeddings.fout st'
       = attach_all (flushed ++ Embeddings.batch_recs st)
                    (responses create (Embeddings.calls st')).
Proof.
  intros Htexts Hsent Hresp Hout Hne.
  eexists. split; [apply flush_pending, Hne|]. simpl.
  assert (Hone : responses create [Embeddings.batch_texts st]
                 = response create (Embeddings.batch_texts st)).
  { unfold responses. simpl. apply app_nil_r. }
  repeat split.
  - rewrite concat_app, Hsent, map_app. simpl. rewrite app_nil_r, Htexts. reflexivity.
  - rewrite responses_app, !length_app, Hresp, Hone, response_length.
    rewrite Htexts, length_map. reflexivity.
  - rewrite responses_app, Hone, attach_all_app by (symmetry; exact Hresp).
    rewrite Hout. reflexivity.
Qed.

Lemma read_lines_batching lines :
  Forall (fun l => record_line l = true) lines ->
  forall st flushed,
    batching create B st flushed ->
    exists st' flushed',
      Embeddings.read_lines create B lines st = Ok st'
      /\ batching create B st' flushed'
      /\ flushed' ++ Embeddings.batch_recs st'
         = (flushed ++ Embeddings.batch_recs st) ++ filter embeddable (records_of lines).
Proof.
  induction 1 as [|l lines Hl Hrest IH]; intros st flushed Hinv.
  - exists st, flushed. simpl. rewrite app_nil_r. auto.
  - destruct l as [| |[| | | | |rec]]; try discriminate.
    + simpl. apply IH, Hinv.
    + rewrite records_of_cons. simpl loads. cbv iota. simpl filter.
      simpl Embeddings.read_lines. fold (record_text rec). fold (embeddable rec).
      destruct (embeddable rec) eqn:Eemb; simpl negb; cbv iota.
      2:{ apply IH, Hinv. }
      pose proof Hinv as [Hfull Hroom Htexts Hsent Hresp Hout].
      set (st1 := {| Embeddings.batch_texts := Embeddings.batch_texts st ++ [record_text rec];
                     Embeddings.batch_recs := Embeddings.batch_recs st ++ [rec];
                     Embeddings.fout := Embeddings.fout st;
                     Embeddings.calls := Embeddings.calls st |}).
      assert (Hlen1 : len (Embeddings.batch_texts st1) = len (Embeddings.batch_texts st) + 1).
      { simpl. rewrite len_app. reflexivity. }
      assert (Htexts1 : Embeddings.batch_texts st1 = map record_text (Embeddings.batch_recs st1)).
      { simpl. rewrite map_app, Htexts. reflexivity. }
      destruct (len (Embeddings.batch_texts st ++ [record_text rec]) >=? B) eqn:Ege.
      * assert (HlenB : len (Embeddings.batch_texts st1) = B).
        { apply Z.geb_le in Ege. simpl in Hlen1 |- *. lia. }
        assert (Hne : Embeddings.batch_texts st1 <> []).
        { simpl. intros Habs. apply app_eq_nil in Habs. destruct Habs; discriminate. }
        destruct (flush_batching st1 flushed Htexts1 Hsent Hresp Hout Hne)
          as [st2 [Hflush [Hbt [Hbr [Hcalls [Hs2 [Hr2 Ho2]]]]]]].
        rewrite Hflush. cbn [bind].
        destruct (IH st2 (flushed ++ Embeddings.batch_recs st1))
          as [st' [flushed' [Hrun [Hinv' Hall]]]].
        { constructor; try assumption.
          - rewrite Hcalls. apply Forall_app. split; [exact Hfull|].
            constructor; [exact HlenB|constructor].
          - rewrite Hbt. unfold len. simpl. lia.
          - rewrite Hbt, Hbr. reflexivity. }
        exists st', flushed'. split; [exact Hrun|]. split; [exact Hinv'|].
        rewrite Hall, Hbr, app_nil_r. simpl. rewrite <- !app_assoc. reflexivity.
      * rewrite Z.geb_leb in Ege. apply Z.leb_gt in Ege.
        destruct (IH st1 flushed) as [st' [flushed' [Hrun [Hinv' Hall]]]].
        { constructor; simpl; assumption. }
        exists st', flushed'. split; [exact Hrun|]. split; [exact Hinv'|].
        rewrite Hall. simpl. rewrite <- !app_assoc. reflexivity.
Qed.

End Batching.

Lemma attach_all_paired recs :
  forall vectors,
    length vectors = length recs ->
    Forall2 (fun rec o => exists e, o = Embeddings.attach rec e
                                    /\ get o (lit "embedding") = VList e)
            recs (attach_all recs vectors).
Proof.
  induction recs as [|r recs IH]; intros [|v vectors] H; simpl in *; try discriminate.
  - constructor.
  - constructor.
    + exists v. split; [reflexivity|apply attach_embedding].
    + apply IH. congruence.
Qed.

Lemma len_map {A B : Type} (f : A -> B) (l : list A) : len (map f l) = len l.
Proof. unfold len. rewrite length_map. reflexivity. Qed.

(** C7: with a batch size [B >= 1], an embedding service that returns one
    vector per text, and a corpus of records, [build_embeddings] sends the
    texts of the records that have one, in order, in calls of exactly [B]
    texts followed by at most one smaller call, that is in
    [ceil(n / B)] calls (16, 16 and 3 texts for 35 records and [B = 16]);
    it writes those records in input order, each with the vector returned
    at its position; a record without text is neither sent nor written. *)
Theorem build_embeddings_batches
    (create : list value -> result (list (list value)))
    (env_batch : Z) (batch_size : option Z) (B : Z) (lines : list line) :
  Embeddings.BATCH env_batch batch_size = B ->
  1 <= B ->
  one_vector_per_text create ->
  Forall (fun l => record_line l = true) lines ->
  exists out calls full last,
    Embeddings.build_embeddings create env_batch lines batch_size = Ok (out, calls)
    /\ concat calls = map record_text (filter embeddable (records_of lines))
    /\ calls = full ++ last
    /\ Forall (fun c => len c = B) full
    /\ (last = [] \/ exists c, last = [c] /\ 0 < len c < B)
    /\ len calls = (len (filter embeddable (records_of lines)) + B - 1) / B
    /\ (len (filter embeddable (records_of lines)) = 35 -> B = 16 ->
        map len calls = [16; 16; 3])
    /\ out = attach_all (filter embeddable (records_of lines)) (responses create calls)
    /\ Forall2 (fun rec o => exists e, o = Embeddings.attach rec e
                                       /\ get o (lit "embedding") = VList e)
               (filter embeddable (records_of lines)) out.
Proof.
  intros HBATCH HB Hcontract Hlines.
  set (recs := filter embeddable (records_of lines)).
  set (st0 := {| Embeddings.batch_texts := []; Embeddings.batch_recs := [];
                 Embeddings.fout := []; Embeddings.calls := [] |}).
  assert (Hinv0 : batching create B st0 []).
  { constructor; simpl; try reflexivity; [constructor|unfold len; simpl; lia]. }
  destruct (read_lines_batching create B HB Hcontract lines Hlines st0 [] Hinv0)
    as [st [flushed [Hrun [[Hfull Hroom Htexts Hsent Hresp Hout] Hall]]]].
  simpl in Hall. fold recs in Hall. clearbody recs.
  assert (Hshape : exists out calls full last,
             Embeddings.build_embeddings create env_batch lines batch_size = Ok (out, calls)
             /\ concat calls = map record_text recs
             /\ calls = full ++ last
             /\ Forall (fun c => len c = B) full
             /\ (last = [] \/ exists c, last = [c] /\ 0 < len c < B)
             /\ length (responses create calls) = length recs
             /\ out = attach_all recs (responses create calls)).
  { unfold Embeddings.build_embeddings.
    rewrite HBATCH. fold st0. rewrite Hrun. cbn [bind].
    destruct (Embeddings.batch_texts st) as [|t ts] eqn:Ebt.
    - assert (Hbr : Embeddings.batch_recs st = []).
      { destruct (Embeddings.batch_recs st); [reflexivity|discriminate]. }
      rewrite Hbr, app_nil_r in Hall. subst flushed.
      exists (Embeddings.fout st), (Embeddings.calls st), (Embeddings.calls st), [].
      unfold Embeddings.flush_batch. rewrite Ebt. simpl.
      rewrite app_nil_r. repeat split; auto.
    - assert (Hne : Embeddings.batch_texts st <> []) by (rewrite Ebt; discriminate).
      assert (Hpos : 0 < len (Embeddings.batch_texts st)).
      { rewrite Ebt. unfold len. simpl length. lia. }
      rewrite <- Ebt in Htexts, Hroom.
      destruct (flush_batching create Hcontract st flushed Htexts Hsent Hresp Hout Hne)
        as [st2 [Hflush [_ [_ [Hcalls [Hs2 [Hr2 Ho2]]]]]]].
      rewrite Hall in Hs2, Hr2, Ho2.
      exists (Embeddings.fout st2), (Embeddings.calls st2),
             (Embeddings.calls st), [Embeddings.batch_texts st].
      rewrite Hflush. simpl.
      repeat split; auto.
      right. exists (Embeddings.batch_texts st). split; [reflexivity|].
      split; [exact Hpos|exact Hroom]. }
  destruct Hshape as [out [calls [full [last [Hbuild [Hconcat [Hsplit [Hf [Hlast [Hlen Hout']]]]]]]]]].
  exists out, calls, full, last.
  assert (Hn : len recs = B * len full + len (concat last)).
  { rewrite <- (len_map record_text recs), <- Hconcat, Hsplit, concat_app, len_app.
    rewrite (len_concat_full B full Hf). reflexivity. }
  assert (Hcalls : len calls = len full + len last).
  { rewrite Hsplit. apply len_app. }
  pose proof (len_nonneg full) as Hfull0.
  unfold dict in *.
  repeat split; auto.
  - destruct Hlast as [->|[c [-> Hc]]].
    + simpl in Hn. unfold len in Hn at 3. simpl in Hn.
      rewrite Hcalls. unfold len at 2. simpl.
      apply (Z.div_unique_pos _ B _ (B - 1)); lia.
    + simpl in Hn. rewrite app_nil_r in Hn.
      rewrite Hcalls. unfold len at 2. simpl.
      apply (Z.div_unique_pos _ B _ (len c - 1)); lia.
  - intros H35 ->. rewrite Hsplit.
    destruct Hlast as [->|[c [-> Hc]]].
    + cbn [concat] in Hn. change (len (@nil value)) with 0 in Hn. lia.
    + cbn [concat] in Hn. rewrite app_nil_r in Hn.
      destruct full as [|c1 [|c2 [|c3 full']]];
        unfold len in Hn at 2; simpl length in Hn; try lia.
      inversion Hf as [|? ? Hc1 Hf1]; subst.
      inversion Hf1 as [|? ? Hc2 Hf2]; subst.
      simpl. rewrite Hc1, Hc2. repeat f_equal. lia.
  - rewrite Hout'. apply attach_all_paired. exact Hlen.
Qed.

Lemma build_embeddings_batches_witness :
  exists out calls,
    Embeddings.build_embeddings Samples.constant_service 16 Samples.corpus_35 (Some 16)
    = Ok (out, calls)
    /\ map len calls = [16; 16; 3]
    /\ length out = 35%nat.
Proof.
  assert (HB : 1 <= 16) by lia.
  assert (Hc : one_vector_per_text Samples.constant_service).
  { intros batch. eexists. split; [reflexivity|apply length_map]. }
  assert (Hl : Forall (fun l => record_line l = true) Samples.corpus_35).
  { vm_compute. repeat constructor. }
  destruct (build_embeddings_batches Samples.constant_service 16 (Some 16) 16
              Samples.corpus_35 eq_refl HB Hc Hl)
    as [out [calls [full [last [Hrun [_ [_ [_ [_ [_ [H35 [_ Hpair]]]]]]]]]]]].
  exists out, calls. split; [exact Hrun|]. split.
  - apply H35; reflexivity.
  - rewrite <- (Forall2_length Hpair). reflexivity.
Defined.

(** ** Identifiers *)

Lemma bind_map_ok {A B : Type} (r : result (list A)) (f : A -> B) (ys : list B) :
  (xs <- r ;; Ok (map f xs)) = Ok ys -> exists xs, r = Ok xs /\ map f xs = ys.
Proof.
  destruct r as [xs|e]; simpl; [|discriminate].
  intros H. injection H as <-. eauto.
Qed.

(** C3 fails on two files that share a stem.  A guide delivered as
    [guide.pdf] and as [guide.docx] yields two records, both with the id
    [guide_1]; without a web corpus no merge runs, and both reach the
    upload under the same key. *)
Theorem same_stem_same_id
    (sha1_hex : str -> str)
    (create : list value -> result (list (list value))) (v1 v2 : list value) :
  create [VStr (lit "NDIS guide"); VStr (lit "NDIS guide")] = Ok [v1; v2] ->
  v1 <> [] -> v2 <> [] ->
  exists corpus,
    Data.build_corpus Samples.ascii_lower sha1_hex (fun p => p) (fun _ => 1024)
      Samples.parse_docx_stub Samples.parse_pdf_stub Samples.parse_excel_stub
      [Samples.guide_pdf; Samples.guide_docx] 11 = Some corpus
    /\ exists docs,
         Indexing.build_index Samples.repr_stub create 16 (Samples.corpus_only corpus)
           (lit "out/ndis_parsed.jsonl") (lit "out/web_parsed.jsonl") = Ok docs
         /\ map (fun d => get d (lit "id")) docs
            = [VStr (lit "guide_1"); VStr (lit "guide_1")].
Proof.
  intros Hcreate Hv1 Hv2.
  destruct v1 as [|x1 v1]; [congruence|]. destruct v2 as [|x2 v2]; [congruence|].
  eexists. split; [vm_compute; reflexivity|].
  apply bind_map_ok.
  vm_compute in Hcreate. vm_compute. rewrite Hcreate. vm_compute. reflexivity.
Qed.

Lemma same_stem_same_id_witness :
  exists corpus,
    Data.build_corpus Samples.ascii_lower Samples.digest_stub (fun p => p) (fun _ => 1024)
      Samples.parse_docx_stub Samples.parse_pdf_stub Samples.parse_excel_stub
      [Samples.guide_pdf; Samples.guide_docx] 11 = Some corpus
    /\ exists docs,
         Indexing.build_index Samples.repr_stub Samples.constant_service 16
           (Samples.corpus_only corpus)
           (lit "out/ndis_parsed.jsonl") (lit "out/web_parsed.jsonl") = Ok docs
         /\ map (fun d => get d (lit "id")) docs
            = [VStr (lit "guide_1"); VStr (lit "guide_1")].
Proof.
  apply (same_stem_same_id Samples.digest_stub Samples.constant_service
           [VInt 1; VInt 0] [VInt 1; VInt 0]).
  - reflexivity.
  - discriminate.
  - discriminate.
Defined.

(** Sanitising adds collisions of its own: distinct raw ids that differ
    only in characters outside the key alphabet get the same key. *)
Example sanitize_id_collision :
  lit "host/a.b#1" <> lit "host/a_b#1"
  /\ Indexing.sanitize_id (lit "host/a.b#1") = Indexing.sanitize_id (lit "host/a_b#1").
Proof. split; [discriminate|reflexivity]. Qed.

(** The file chunker needs a positive chunk size: with a chunk size and
    an overlap of zero, [start] never moves. *)
Example data_chunk_text_zero_size :
  diverges (Data.chunk_text (lit "a") 0 0).
Proof.
  intros fuel. unfold Data.chunk_text.
  induction fuel as [|fuel IH]; [reflexivity|].
  rewrite data_chunk_loop_step. exact IH.
Qed.

(** ** The crawler's own deduplication *)

Lemma str_eqb_sym a b : str_eqb a b = str_eqb b a.
Proof.
  destruct (str_eqb a b) eqn:E1, (str_eqb b a) eqn:E2; try reflexivity.
  - apply str_eqb_eq in E1. subst. rewrite str_eqb_refl in E2. discriminate.
  - apply str_eqb_eq in E2. subst. rewrite str_eqb_refl in E1. discriminate.
Qed.

Lemma str_mem_app x l1 l2 : str_mem x (l1 ++ l2) = str_mem x l1 || str_mem x l2.
Proof. apply existsb_app. Qed.

Lemma web_chunk_record_sha1 urlsplit url i chunk h :
  get (Webscrape.chunk_record urlsplit url i chunk h) (lit "sha1") = VStr h.
Proof. reflexivity. Qed.

Lemma with_fingerprint_cons f r rs :
  with_fingerprint f (r :: rs) =
  if py_eq f (get r (lit "sha1")) then r :: with_fingerprint f rs
  else with_fingerprint f rs.
Proof. reflexivity. Qed.

(** Within one crawl a chunk is written only if no earlier chunk, of this
    page or of a page before, had the same digest: of the chunks of a page
    that share a digest, the first is written unless the digest was seen. *)
Lemma crawl_first_per_digest
    (sha1_hex : str -> str) (urlsplit : str -> Webscrape.url_parts)
    (url : str) (chunks : list (Z * str)) :
  forall seen out, exists more new,
    Webscrape.write_chunks sha1_hex urlsplit url chunks seen out = (seen ++ more, out ++ new)
    /\ forall h,
         with_fingerprint (VStr h) new =
         if str_mem h seen then []
         else firstn 1
                (map (fun ic => Webscrape.chunk_record urlsplit url (fst ic) (snd ic)
                                  (sha1_hex (snd ic)))
                     (filter (fun ic => str_eqb h (sha1_hex (snd ic))) chunks)).
Proof.
  induction chunks as [|[i chunk] chunks IH]; intros seen out.
  - exists [], []. simpl. rewrite !app_nil_r. split; [reflexivity|].
    intros h. destruct (str_mem h seen); reflexivity.
  - simpl Webscrape.write_chunks.
    destruct (str_mem (sha1_hex chunk) seen) eqn:Em.
    + destruct (IH seen out) as [more [new [Hrun Hkey]]].
      exists more, new. split; [exact Hrun|].
      intros h. rewrite Hkey. destruct (str_mem h seen) eqn:Eh; [reflexivity|].
      simpl filter. destruct (str_eqb h (sha1_hex chunk)) eqn:E; [|reflexivity].
      apply str_eqb_eq in E. subst h. congruence.
    + destruct (IH (seen ++ [sha1_hex chunk])
                   (out ++ [Webscrape.chunk_record urlsplit url i chunk (sha1_hex chunk)]))
        as [more [new [Hrun Hkey]]].
      exists (sha1_hex chunk :: more),
             (Webscrape.chunk_record urlsplit url i chunk (sha1_hex chunk) :: new).
      split; [rewrite Hrun, <- !app_assoc; reflexivity|].
      intros h. rewrite with_fingerprint_cons, web_chunk_record_sha1.
      cbn [py_eq filter snd].
      rewrite Hkey, str_mem_app. cbn [str_mem existsb].
      destruct (str_eqb h (sha1_hex chunk)) eqn:E.
      * apply str_eqb_eq in E. subst h. rewrite Em. reflexivity.
      * rewrite !orb_false_r. reflexivity.
Qed.

(** ** Paths and strings on examples *)

Example path_stem_examples :
  path_stem (lit "/data/guide.pdf") = lit "guide"
  /\ path_stem (lit "x.tar.gz") = lit "x.tar"
  /\ path_stem (lit "a/b/") = lit "b"
  /\ path_stem (lit ".bashrc") = lit ".bashrc"
  /\ path_suffix (lit "/data/Guide.PDF") = lit ".PDF"
  /\ path_name (lit "a/./b/.") = lit "b".
Proof. repeat split; reflexivity. Qed.

Example slice_examples :
  slice (lit "abc") (-5) 2 = lit "ab"
  /\ slice (lit "abcdef") 2 (-1) = lit "cde"
  /\ slice (lit "abc") 5 10 = []
  /\ slice (lit "abcdef") (-2) 100 = lit "ef".
Proof. repeat split; reflexivity. Qed.

Example strip_split_examples :
  strip (lit "  a b  ") = lit "a b"
  /\ split (lit "  a b   cd ") = [lit "a"; lit "b"; lit "cd"]
  /\ join (lit " ") (split (lit " a   b ")) = lit "a b"
  /\ str_of_int 1203 = lit "1203" /\ str_of_int 0 = lit "0" /\ str_of_int (-7) = lit "-7".
Proof. repeat split; reflexivity. Qed.

Example file_chunker_example :
  Data.chunk_text (lit "hello world") 4 1 12
  = Some [lit "hell"; lit "lo w"; lit "worl"; lit "ld"].
Proof. reflexivity. Qed.

Example web_chunker_example :
  Webscrape.chunk_text (lit "hello") 1500 200 1 = Some [lit "hello"]
  /\ Webscrape.chunk_text (lit "hello world") 4 0 4
     = Some [lit "hell"; lit "o wo"; lit "rld"].
Proof. split; reflexivity. Qed.

(* ================================================================== *)
(** * Further properties *)
(* ================================================================== *)

(** ** Trimmed pieces of a text *)

Lemma lstrip_head s :
  lstrip s = [] \/ exists c t, lstrip s = c :: t /\ isspace c = false.
Proof.
  induction s as [|c s IH]; simpl; [left; reflexivity|].
  destruct (isspace c) eqn:E; [exact IH|]. right. eauto.
Qed.

Lemma rstrip_cons c t :
  rstrip (c :: t) = if isspace c && negb (nonempty (rstrip t)) then [] else c :: rstrip t.
Proof. reflexivity. Qed.

Lemma rstrip_idem s : rstrip (rstrip s) = rstrip s.
Proof.
  induction s as [|c s IH]; [reflexivity|].
  rewrite rstrip_cons.
  destruct (isspace c && negb (nonempty (rstrip s))) eqn:E; [reflexivity|].
  rewrite rstrip_cons, IH, E. reflexivity.
Qed.

Lemma strip_idem s : strip (strip s) = strip s.
Proof.
  unfold strip.
  destruct (lstrip_head s) as [->|[c [t [-> Hc]]]]; [reflexivity|].
  rewrite rstrip_cons, Hc. simpl andb. cbv iota.
  simpl lstrip. rewrite Hc.
  rewrite rstrip_cons, Hc. simpl andb. cbv iota.
  rewrite rstrip_idem. reflexivity.
Qed.

Lemma lstrip_suffix s : exists a, s = a ++ lstrip s.
Proof.
  induction s as [|c s [a IH]]; simpl; [exists []; reflexivity|].
  destruct (isspace c); [exists (c :: a); simpl; congruence|exists []; reflexivity].
Qed.

Lemma rstrip_prefix s : exists b, s = rstrip s ++ b.
Proof.
  induction s as [|c s [b IH]]; [exists []; reflexivity|].
  rewrite rstrip_cons.
  destruct (isspace c && negb (nonempty (rstrip s))).
  - exists (c :: s). reflexivity.
  - exists b. simpl. congruence.
Qed.

Lemma strip_infix s : exists a b, s = a ++ strip s ++ b.
Proof.
  unfold strip. destruct (lstrip_suffix s) as [a Ha].
  destruct (rstrip_prefix (lstrip s)) as [b Hb].
  exists a, b. rewrite <- Hb. exact Ha.
Qed.

Lemma len_strip s : len (strip s) <= len s.
Proof.
  destruct (strip_infix s) as [a [b H]].
  rewrite H at 2. rewrite !len_app.
  pose proof (len_nonneg a). pose proof (len_nonneg b). lia.
Qed.

Lemma slice_infix {A : Type} (s : list A) (i j : Z) :
  exists a b, s = a ++ slice s i j ++ b.
Proof.
  unfold slice.
  set (lo := Z.to_nat (slice_bound (len s) i)).
  set (k := Z.to_nat (slice_bound (len s) j - slice_bound (len s) i)).
  exists (firstn lo s), (skipn k (skipn lo s)).
  rewrite (firstn_skipn k (skipn lo s)). symmetry. apply firstn_skipn.
Qed.

Lemma len_slice {A : Type} (s : list A) (i j : Z) :
  0 <= i -> 0 <= j -> len (slice s i j) <= Z.max 0 (j - i).
Proof.
  intros Hi Hj. pose proof (len_nonneg s) as Hn.
  unfold slice, slice_bound.
  replace (i <? 0) with false by (symmetry; apply Z.ltb_ge; lia).
  replace (j <? 0) with false by (symmetry; apply Z.ltb_ge; lia).
  unfold len at 1.
  pose proof (firstn_le_length
                (Z.to_nat (Z.max 0 (Z.min (len s) j) - Z.max 0 (Z.min (len s) i)))
                (skipn (Z.to_nat (Z.max 0 (Z.min (len s) i))) s)) as Hf.
  lia.
Qed.

(** A stripped window of a text is a chunk of it. *)
Lemma window_chunk_of text start end_ size :
  0 <= start -> 0 <= end_ -> end_ - start <= size ->
  strip (slice text start end_) <> [] ->
  chunk_of text size (strip (slice text start end_)).
Proof.
  intros Hs He0 He Hne. unfold chunk_of.
  split; [exact Hne|]. split; [apply strip_idem|]. split.
  - pose proof (len_strip (slice text start end_)).
    pose proof (len_slice text start end_ Hs He0).
    assert (0 < len (strip (slice text start end_))).
    { destruct (strip (slice text start end_)); [congruence|].
      unfold len. simpl length. lia. }
    lia.
  - destruct (slice_infix text start end_) as [a [b Hab]].
    destruct (strip_infix (slice text start end_)) as [a' [b' Hs']].
    exists (a ++ a'), (b' ++ b).
    rewrite Hab at 1. rewrite Hs' at 1. rewrite <- !app_assoc. reflexivity.
Qed.

Lemma data_chunk_loop_shape text S O :
  0 < S ->
  forall fuel start chunks r,
    0 <= start ->
    Forall (chunk_of text S) chunks ->
    Data.chunk_loop fuel text S O start chunks = Some r ->
    Forall (chunk_of text S) r.
Proof.
  intros HS. induction fuel as [|fuel IH]; intros start chunks r Hstart Hc Hrun.
  - discriminate.
  - rewrite data_chunk_loop_step in Hrun.
    destruct (start <? len text); [|injection Hrun as <-; exact Hc].
    eapply IH; [| |exact Hrun].
    + destruct (start + S - O >? start) eqn:E; [apply Z.gtb_lt in E|]; lia.
    + destruct (nonempty (strip (slice text start (start + S)))) eqn:En; [|exact Hc].
      apply Forall_app. split; [exact Hc|]. constructor; [|constructor].
      apply window_chunk_of; [lia|lia|lia|]. apply nonempty_true, En.
Qed.

(** X1: with a positive chunk size the file chunker returns, and every
    chunk it returns is a non-empty piece of the text, free of whitespace
    at both ends and at most [chunk_size] characters long. *)
Theorem data_chunks_shape (text : str) (S O : Z) :
  0 < S ->
  exists r,
    Data.chunk_text text S O (Datatypes.S (length text)) = Some r
    /\ Forall (chunk_of text S) r.
Proof.
  intros HS. destruct (data_chunk_text_terminates text S O HS) as [r Hr].
  exists r. split; [exact Hr|].
  unfold Data.chunk_text in Hr.
  eapply (data_chunk_loop_shape text S O HS); [| |exact Hr]; [lia|constructor].
Qed.

Lemma data_chunks_shape_witness :
  exists r,
    Data.chunk_text (lit "  hello   world  ") 7 2 18 = Some r
    /\ Forall (chunk_of (lit "  hello   world  ") 7) r.
Proof.
  apply (data_chunks_shape (lit "  hello   world  ") 7 2). lia.
Defined.

Lemma web_chunk_loop_shape text S O :
  0 < S ->
  forall fuel start chunks r,
    0 <= start ->
    Forall (chunk_of text S) chunks ->
    Webscrape.chunk_loop fuel text S O start chunks = Some r ->
    Forall (chunk_of text S) r.
Proof.
  intros HS. induction fuel as [|fuel IH]; intros start chunks r Hstart Hc Hrun.
  - discriminate.
  - rewrite web_chunk_loop_step in Hrun.
    destruct (start <? len text) eqn:Elt; [|injection Hrun as <-; exact Hc].
    apply Z.ltb_lt in Elt. cbv zeta in Hrun.
    assert (Hc' : Forall (chunk_of text S)
                    (if nonempty (strip (slice text start (Z.min (start + S) (len text))))
                     then chunks ++ [strip (slice text start (Z.min (start + S) (len text)))]
                     else chunks)).
    { destruct (nonempty (strip (slice text start (Z.min (start + S) (len text))))) eqn:En;
        [|exact Hc].
      apply Forall_app. split; [exact Hc|]. constructor; [|constructor].
      apply window_chunk_of; [lia|lia|lia|]. apply nonempty_true, En. }
    destruct (Z.min (start + S) (len text) - O <? 0) eqn:Eneg.
    + injection Hrun as <-. exact Hc'.
    + apply Z.ltb_ge in Eneg. eapply IH; [|exact Hc'|exact Hrun]. lia.
Qed.

(** With a non-positive overlap the web chunker moves forward by at least
    one window per round. *)
Lemma web_chunk_loop_terminates text S O :
  0 < S -> O <= 0 ->
  forall fuel start chunks,
    0 <= start ->
    Z.max 0 (len text - start) < Z.of_nat fuel ->
    exists r, Webscrape.chunk_loop fuel text S O start chunks = Some r.
Proof.
  intros HS HO. induction fuel as [|fuel IH]; intros start chunks Hstart Hfuel.
  - lia.
  - rewrite web_chunk_loop_step.
    destruct (start <? len text) eqn:Elt; [|eauto].
    apply Z.ltb_lt in Elt. cbv zeta.
    destruct (Z.min (start + S) (len text) - O <? 0) eqn:Eneg; [eauto|].
    apply IH; lia.
Qed.

(** X2: with a positive window the web chunker returns exactly when the
    overlap is non-positive, larger than the window, or larger than the
    text; otherwise it loops for ever.  Whatever it returns is made of
    non-empty trimmed pieces of the text of at most [max_chars]
    characters. *)
Theorem web_chunker_returns_iff (text : str) (S O : Z) :
  0 < S ->
  ((exists r, yields (Webscrape.chunk_text text S O) r)
   <-> (O <= 0 \/ S < O \/ len text < O))
  /\ (~ (O <= 0 \/ S < O \/ len text < O) -> diverges (Webscrape.chunk_text text S O))
  /\ (forall fuel r, Webscrape.chunk_text text S O fuel = Some r ->
        Forall (chunk_of text S) r).
Proof.
  intros HS.
  assert (Hdiv : ~ (O <= 0 \/ S < O \/ len text < O) ->
                 diverges (Webscrape.chunk_text text S O)).
  { intros Hn. apply web_chunk_text_diverges; lia. }
  split; [|split; [exact Hdiv|]].
  - split.
    + intros [r [fuel Hr]].
      destruct (Z_le_gt_dec O 0) as [|H0]; [auto|].
      destruct (Z_lt_ge_dec S O) as [|H1]; [auto|].
      destruct (Z_lt_ge_dec (len text) O) as [|H2]; [auto|].
      exfalso. rewrite Hdiv in Hr by lia. discriminate.
    + intros [HO|Hbreak].
      * destruct (web_chunk_loop_terminates text S O HS HO
                    (Datatypes.S (length text)) 0 []) as [r Hr]; [lia|unfold len; lia|].
        exists r, (Datatypes.S (length text)). exact Hr.
      * unfold yields, Webscrape.chunk_text.
        destruct (0 <? len text) eqn:Elt.
        -- eexists. exists 1%nat. rewrite web_chunk_loop_step, Elt. cbv zeta.
           replace (Z.min (0 + S) (len text) - O <? 0) with true
             by (symmetry; apply Z.ltb_lt; lia).
           reflexivity.
        -- exists [], 1%nat. rewrite web_chunk_loop_step, Elt. reflexivity.
  - intros fuel r Hr. unfold Webscrape.chunk_text in Hr.
    eapply (web_chunk_loop_shape text S O HS); [| |exact Hr]; [lia|constructor].
Qed.

Lemma web_chunker_returns_iff_witness :
  (exists r, yields (Webscrape.chunk_text (lit "hello world") 4 0) r)
  /\ diverges (Webscrape.chunk_text (lit "hello world") 4 1).
Proof.
  assert (HS : 0 < 4) by lia.
  split.
  - apply (proj1 (web_chunker_returns_iff (lit "hello world") 4 0 HS)). left. lia.
  - apply (proj1 (proj2 (web_chunker_returns_iff (lit "hello world") 4 1 HS))).
    intros [H|[H|H]]; [lia|lia|vm_compute in H; discriminate H].
Defined.

(** ** How many chunks a text gives *)

Lemma data_chunk_loop_count text S O :
  O < S ->
  forall fuel start chunks r,
    Data.chunk_loop fuel text S O start chunks = Some r ->
    (S - O) * (len r - len chunks) <= Z.max 0 (len text - start + (S - O) - 1).
Proof.
  intros HO. induction fuel as [|fuel IH]; intros start chunks r Hrun.
  - discriminate.
  - rewrite data_chunk_loop_step in Hrun.
    destruct (start <? len text) eqn:Elt.
    2:{ injection Hrun as <-. lia. }
    apply Z.ltb_lt in Elt.
    replace (start + S - O >? start) with true in Hrun
      by (symmetry; apply Z.gtb_lt; lia).
    apply IH in Hrun.
    destruct (nonempty (strip (slice text start (start + S)))).
    + rewrite len_app in Hrun. change (len [strip (slice text start (start + S))]) with 1 in Hrun.
      nia.
    + nia.
Qed.

(** X3: with a positive chunk size and a smaller overlap, the file
    chunker returns at most one chunk per step of [chunk_size - overlap]
    characters: [ceil(len(text) / (chunk_size - overlap))] chunks. *)
Theorem data_chunk_count (text : str) (S O : Z) :
  0 < S -> O < S ->
  exists r,
    Data.chunk_text text S O (Datatypes.S (length text)) = Some r
    /\ len r <= (len text + (S - O) - 1) / (S - O).
Proof.
  intros HS HO. destruct (data_chunk_text_terminates text S O HS) as [r Hr].
  exists r. split; [exact Hr|].
  unfold Data.chunk_text in Hr.
  pose proof (data_chunk_loop_count text S O HO _ _ _ _ Hr) as Hc.
  change (len (@nil str)) with 0 in Hc.
  pose proof (len_nonneg text).
  apply Z.div_le_lower_bound; lia.
Qed.

Lemma data_chunk_count_witness :
  exists r,
    Data.chunk_text (lit "hello world") 4 1 12 = Some r /\ len r <= 4.
Proof.
  destruct (data_chunk_count (lit "hello world") 4 1) as [r [Hr Hc]]; [lia|lia|].
  exists r. split; [exact Hr|]. exact Hc.
Defined.

(** ** Decimal numbers *)

Lemma digits_step fuel n acc :
  digits (Datatypes.S fuel) n acc =
  if (n <? 10)%N then (48 + N.modulo n 10)%N :: acc
  else digits fuel (N.div n 10) ((48 + N.modulo n 10)%N :: acc).
Proof. reflexivity. Qed.

Lemma value_lsf_cons c s : value_lsf (c :: s) = ((c - 48) + 10 * value_lsf s)%N.
Proof. reflexivity. Qed.

Lemma digits_acc fuel :
  forall n acc, digits fuel n acc = digits fuel n [] ++ acc.
Proof.
  induction fuel as [|fuel IH]; intros n acc; [reflexivity|].
  rewrite !digits_step.
  destruct (n <? 10)%N; [reflexivity|].
  rewrite (IH _ (_ :: acc)), (IH _ [_]), <- app_assoc. reflexivity.
Qed.

Lemma value_lsf_digits fuel :
  forall n, (n < 10 ^ N.of_nat fuel)%N ->
            value_lsf (rev (digits fuel n [])) = n.
Proof.
  induction fuel as [|fuel IH]; intros n Hn.
  - simpl in Hn. assert (n = 0%N) by lia. subst. reflexivity.
  - rewrite digits_step. destruct (n <? 10)%N eqn:E.
    + apply N.ltb_lt in E.
      change (rev [(48 + n mod 10)%N]) with [(48 + n mod 10)%N].
      rewrite value_lsf_cons. change (value_lsf []) with 0%N.
      rewrite N.mod_small by exact E. clear Hn IH. lia.
    + apply N.ltb_ge in E. rewrite digits_acc, rev_app_distr.
      change (rev [(48 + n mod 10)%N]) with [(48 + n mod 10)%N].
      change ([(48 + n mod 10)%N] ++ rev (digits fuel (n / 10) []))
        with ((48 + n mod 10)%N :: rev (digits fuel (n / 10) [])).
      rewrite value_lsf_cons, IH.
      * pose proof (N.Div0.div_mod n 10) as Hdm. clear Hn IH.
        set (q := (n / 10)%N) in *. set (d := (n mod 10)%N) in *.
        clearbody q d. lia.
      * rewrite Nat2N.inj_succ, N.pow_succ_r' in Hn.
        apply N.Div0.div_lt_upper_bound. exact Hn.
Qed.

(** [int(str(z)) = z] for a non-negative integer. *)
Lemma int_of_digits_str_of_int z :
  0 <= z -> int_of_digits (str_of_int z) = Z.to_N z.
Proof.
  intros Hz. unfold str_of_int, int_of_digits.
  replace (z <? 0) with false by (symmetry; apply Z.ltb_ge; lia).
  replace (Z.abs_N z) with (Z.to_N z) by (destruct z; try reflexivity; lia).
  apply value_lsf_digits.
  rewrite Nat2N.inj_succ, N2Nat.id.
  destruct (N.eq_dec (Z.to_N z) 0) as [->|Hpos]; [reflexivity|].
  destruct (N.log2_spec (Z.to_N z)) as [_ Hlt]; [lia|].
  eapply N.lt_le_trans; [exact Hlt|].
  apply N.pow_le_mono_l. lia.
Qed.

Lemma str_of_int_inj a b : 0 <= a -> 0 <= b -> str_of_int a = str_of_int b -> a = b.
Proof.
  intros Ha Hb H. apply (f_equal int_of_digits) in H.
  rewrite !int_of_digits_str_of_int in H by assumption. lia.
Qed.

(** ** Numbered lists *)

Lemma nth_error_enumerate {A : Type} (l : list A) :
  forall s k,
    nth_error (enumerate s l) k
    = option_map (fun x => (s + Z.of_nat k, x)) (nth_error l k).
Proof.
  induction l as [|x l IH]; intros s [|k]; simpl; try reflexivity.
  - rewrite Z.add_0_r. reflexivity.
  - rewrite IH. destruct (nth_error l k); simpl; [|reflexivity].
    do 2 f_equal. lia.
Qed.

Lemma length_enumerate {A : Type} (l : list A) :
  forall s, length (enumerate s l) = length l.
Proof. induction l as [|x l IH]; intros s; simpl; [reflexivity|]. rewrite IH. reflexivity. Qed.

(** Labels built from a fixed prefix and the number of the element are
    pairwise distinct. *)
Lemma numbered_labels_NoDup {A : Type} (prefix : str) (l : list A) :
  forall s, 0 <= s ->
    NoDup (map (fun ic : Z * A => VStr (prefix ++ str_of_int (fst ic))) (enumerate s l)).
Proof.
  induction l as [|x l IH]; intros s Hs; simpl; constructor.
  - intros Hin. apply in_map_iff in Hin. destruct Hin as [[i y] [Heq Hin]].
    apply enumerate_In in Hin. destruct Hin as [Hle _]. simpl in Heq.
    injection Heq as Heq. apply app_inv_head in Heq.
    apply str_of_int_inj in Heq; lia.
  - apply IH. lia.
Qed.

(** ** The records of one file *)

Section MakeRecord.

Variable str_lower sha1_hex resolve : str -> str.
Variable st_size : str -> Z.
Variable parse_docx parse_pdf parse_excel : str -> str.

(** The records [make_record] returns are the numbered chunks of a
    non-empty text. *)
Lemma make_record_chunks path fuel recs :
  Data.make_record str_lower sha1_hex resolve st_size
    parse_docx parse_pdf parse_excel path fuel = Some (Some recs) ->
  exists text chunks,
    text <> []
    /\ Data.chunk_text text 1000 100 fuel = Some chunks
    /\ recs = map (Data.chunk_record sha1_hex resolve st_size path
                     (str_lower (path_suffix path)) (len chunks))
                  (enumerate 1 chunks).
Proof.
  unfold Data.make_record.
  destruct (Data.is_hidden_or_appledouble path); [discriminate|].
  set (ext := str_lower (path_suffix path)).
  assert (Hgen : forall text,
            (if negb (nonempty text) then Some None
             else match Data.chunk_text text 1000 100 fuel with
                  | Some chunks =>
                      Some (Some (map (Data.chunk_record sha1_hex resolve st_size path ext
                                         (len chunks)) (enumerate 1 chunks)))
                  | None => None
                  end) = Some (Some recs) ->
            exists text chunks,
              text <> [] /\ Data.chunk_text text 1000 100 fuel = Some chunks
              /\ recs = map (Data.chunk_record sha1_hex resolve st_size path ext (len chunks))
                            (enumerate 1 chunks)).
  { intros text H. destruct (nonempty text) eqn:En; simpl in H; [|discriminate].
    destruct (Data.chunk_text text 1000 100 fuel) as [chunks|] eqn:Ec; [|discriminate].
    injection H as <-. exists text, chunks.
    split; [apply nonempty_true, En|]. split; [exact Ec|reflexivity]. }
  destruct (str_eqb ext (lit ".docx")); [apply Hgen|].
  destruct (str_eqb ext (lit ".pdf")); [apply Hgen|].
  destruct (str_eqb ext (lit ".xlsx")); [apply Hgen|discriminate].
Qed.

Lemma chunk_record_fields path ext total i c :
  let rec := Data.chunk_record sha1_hex resolve st_size path ext total (i, c) in
  get rec (lit "id") = VStr (path_stem path ++ lit "_" ++ str_of_int i)
  /\ get_meta rec (lit "chunk_index") = VInt i
  /\ get_meta rec (lit "total_chunks") = VInt total
  /\ get rec (lit "text") = VStr c
  /\ get rec (lit "sha1") = VStr (sha1_hex (resolve path ++ lit "::" ++ c))
  /\ get rec (lit "path") = VStr path.
Proof. repeat split; reflexivity. Qed.

(** X4: the records of one file are numbered from 1 in chunk order: the
    k-th has id [stem_k] and chunk index [k], all carry the number of
    records as [total_chunks], their ids are pairwise distinct, and each
    holds a non-empty trimmed text of at most 1000 characters with the
    digest of [resolved path :: text]. *)
Theorem make_record_numbering (path : str) (fuel : nat) (recs : list dict) :
  Data.make_record str_lower sha1_hex resolve st_size
    parse_docx parse_pdf parse_excel path fuel = Some (Some recs) ->
  NoDup (map (fun r => get r (lit "id")) recs)
  /\ forall k rec,
       nth_error recs k = Some rec ->
       get rec (lit "id") = VStr (path_stem path ++ lit "_" ++ str_of_int (Z.of_nat k + 1))
       /\ get_meta rec (lit "chunk_index") = VInt (Z.of_nat k + 1)
       /\ get_meta rec (lit "total_chunks") = VInt (len recs)
       /\ exists c,
            get rec (lit "text") = VStr c
            /\ c <> [] /\ strip c = c /\ len c <= 1000
            /\ get rec (lit "sha1") = VStr (sha1_hex (resolve path ++ lit "::" ++ c)).
Proof.
  intros H. destruct (make_record_chunks path fuel recs H) as [text [chunks [Ht [Hc ->]]]].
  split.
  - rewrite map_map.
    rewrite (map_ext _ (fun ic : Z * str =>
                          VStr ((path_stem path ++ lit "_") ++ str_of_int (fst ic)))).
    + apply numbered_labels_NoDup. lia.
    + intros [i c]. cbn [fst]. rewrite <- app_assoc. reflexivity.
  - intros k rec Hk.
    rewrite nth_error_map, nth_error_enumerate in Hk.
    destruct (nth_error chunks k) as [c|] eqn:Enth; [|discriminate].
    cbn [option_map] in Hk.
    assert (Hrec : rec = Data.chunk_record sha1_hex resolve st_size path
                           (str_lower (path_suffix path)) (len chunks)
                           (1 + Z.of_nat k, c)) by congruence.
    rewrite (Z.add_comm 1 (Z.of_nat k)) in Hrec. subst rec. clear Hk.
    destruct (chunk_record_fields path (str_lower (path_suffix path)) (len chunks)
                (Z.of_nat k + 1) c) as [Fid [Fidx [Ftot [Ftxt [Fsha _]]]]].
    assert (Hshape : chunk_of text 1000 c).
    { unfold Data.chunk_text in Hc.
      assert (Hall : Forall (chunk_of text 1000) chunks).
      { eapply (data_chunk_loop_shape text 1000 100); [lia| | |exact Hc]; [lia|constructor]. }
      rewrite Forall_forall in Hall. apply Hall. eapply nth_error_In, Enth. }
    destruct Hshape as [Hne [Hstrip [Hlen _]]].
    split; [exact Fid|]. split; [exact Fidx|]. split.
    + rewrite Ftot. unfold len. rewrite length_map, length_enumerate. reflexivity.
    + exists c. repeat split; assumption.
Qed.

End MakeRecord.

Lemma make_record_numbering_witness :
  exists recs,
    Data.make_record Samples.ascii_lower Samples.digest_stub (fun p => p) (fun _ => 1024)
      Samples.parse_docx_stub Samples.parse_pdf_stub Samples.parse_excel_stub
      Samples.guide_pdf 11 = Some (Some recs)
    /\ NoDup (map (fun r => get r (lit "id")) recs)
    /\ map (fun r => get r (lit "id")) recs = [VStr (lit "guide_1")].
Proof.
  eexists. split; [vm_compute; reflexivity|]. split; [|reflexivity].
  refine (proj1 (make_record_numbering Samples.ascii_lower Samples.digest_stub (fun p => p)
                   (fun _ => 1024) Samples.parse_docx_stub Samples.parse_pdf_stub
                   Samples.parse_excel_stub Samples.guide_pdf 11 _ _)).
  vm_compute. reflexivity.
Defined.

(** ** The file corpus *)

Lemma data_chunk_loop_more_fuel text S O :
  forall fuel start chunks r,
    Data.chunk_loop fuel text S O start chunks = Some r ->
    forall fuel', (fuel <= fuel')%nat ->
      Data.chunk_loop fuel' text S O start chunks = Some r.
Proof.
  induction fuel as [|fuel IH]; intros start chunks r Hrun fuel' Hle; [discriminate|].
  destruct fuel' as [|fuel']; [lia|].
  rewrite data_chunk_loop_step in *.
  destruct (start <? len text); [|exact Hrun].
  eapply IH; [exact Hrun|lia].
Qed.

Section BuildCorpus.

Variable str_lower sha1_hex resolve : str -> str.
Variable st_size : str -> Z.
Variable parse_docx parse_pdf parse_excel : str -> str.

Let make_record :=
  Data.make_record str_lower sha1_hex resolve st_size parse_docx parse_pdf parse_excel.

(** [make_record] returns on every path, given enough fuel. *)
Lemma make_record_returns path :
  exists fuel0, forall fuel, (fuel0 <= fuel)%nat ->
    exists r, make_record path fuel = Some r.
Proof.
  unfold make_record, Data.make_record.
  destruct (Data.is_hidden_or_appledouble path); [exists 0%nat; eauto|].
  set (ext := str_lower (path_suffix path)).
  assert (Hgen : forall text,
            exists fuel0, forall fuel, (fuel0 <= fuel)%nat ->
              exists r,
                (if negb (nonempty text) then Some None
                 else match Data.chunk_text text 1000 100 fuel with
                      | Some chunks =>
                          Some (Some (map (Data.chunk_record sha1_hex resolve st_size path ext
                                             (len chunks)) (enumerate 1 chunks)))
                      | None => None
                      end) = Some r).
  { intros text. exists (Datatypes.S (length text)). intros fuel Hle.
    destruct (negb (nonempty text)); [eauto|].
    destruct (data_chunk_text_terminates text 1000 100) as [chunks Hc]; [lia|].
    unfold Data.chunk_text in *.
    rewrite (data_chunk_loop_more_fuel _ _ _ _ _ _ _ Hc fuel Hle). eauto. }
  destruct (str_eqb ext (lit ".docx")); [apply Hgen|].
  destruct (str_eqb ext (lit ".pdf")); [apply Hgen|].
  destruct (str_eqb ext (lit ".xlsx")); [apply Hgen|exists 0%nat; eauto].
Qed.

Lemma make_record_lines path fuel recs :
  make_record path fuel = Some (Some recs) ->
  Forall (corpus_line_of [path]) (map dumps recs).
Proof.
  intros H. unfold make_record in H.
  destruct (make_record_chunks _ _ _ _ _ _ _ _ _ _ H) as [text [chunks [_ [Hc Hrecs]]]].
  assert (Hall : Forall (chunk_of text 1000) chunks).
  { unfold Data.chunk_text in Hc.
    eapply (data_chunk_loop_shape text 1000 100); [lia| | |exact Hc]; [lia|constructor]. }
  apply Forall_forall. intros l Hl. apply in_map_iff in Hl.
  destruct Hl as [rec [<- Hin]].
  subst recs. apply in_map_iff in Hin. destruct Hin as [[i c] [<- Hic]].
  apply enumerate_In in Hic. destruct Hic as [_ Hnth].
  rewrite Forall_forall in Hall.
  destruct (Hall c (nth_error_In _ _ Hnth)) as [Hne _].
  destruct (chunk_record_fields sha1_hex resolve st_size path
              (str_lower (path_suffix path)) (len chunks) i c)
    as [Fid [_ [_ [Ftxt [Fsha Fpath]]]]].
  exists (Data.chunk_record sha1_hex resolve st_size path
            (str_lower (path_suffix path)) (len chunks) (i, c)), path, c.
  eexists. eexists. split; [reflexivity|]. split; [left; reflexivity|].
  split; [exact Fpath|]. split; [exact Fid|]. split; [exact Fsha|].
  split; [exact Ftxt|exact Hne].
Qed.

Lemma corpus_line_of_incl files files' l :
  incl files files' -> corpus_line_of files l -> corpus_line_of files' l.
Proof.
  intros Hincl [rec [p [c [id [h [H1 [H2 H3]]]]]]].
  exists rec, p, c, id, h. split; [exact H1|]. split; [apply Hincl, H2|exact H3].
Qed.

Lemma write_corpus_acc files fuel :
  forall out,
    Data.write_corpus str_lower sha1_hex resolve st_size
      parse_docx parse_pdf parse_excel files fuel out
    = match Data.write_corpus str_lower sha1_hex resolve st_size
              parse_docx parse_pdf parse_excel files fuel [] with
      | Some w => Some (out ++ w)
      | None => None
      end.
Proof.
  induction files as [|p files IH]; intros out; simpl.
  - rewrite app_nil_r. reflexivity.
  - destruct (Data.make_record str_lower sha1_hex resolve st_size
                parse_docx parse_pdf parse_excel p fuel) as [[[|r rs]|]|];
      try reflexivity; try apply IH.
    rewrite IH. rewrite (IH (dumps r :: map dumps rs)).
    destruct (Data.write_corpus str_lower sha1_hex resolve st_size
                parse_docx parse_pdf parse_excel files fuel []); [|reflexivity].
    simpl. rewrite <- app_assoc. reflexivity.
Qed.

Lemma write_corpus_returns files :
  exists fuel0, forall fuel, (fuel0 <= fuel)%nat ->
    exists w,
      Data.write_corpus str_lower sha1_hex resolve st_size
        parse_docx parse_pdf parse_excel files fuel [] = Some w
      /\ Forall (corpus_line_of files) w.
Proof.
  induction files as [|p files [fuel1 IH]].
  - exists 0%nat. intros fuel _. exists []. split; [reflexivity|constructor].
  - destruct (make_record_returns p) as [fuel2 Hp].
    exists (Nat.max fuel1 fuel2). intros fuel Hle.
    destruct (Hp fuel) as [r Hr]; [lia|].
    destruct (IH fuel) as [w [Hw Hall]]; [lia|].
    assert (Hall' : Forall (corpus_line_of (p :: files)) w).
    { eapply Forall_impl; [|exact Hall]. intros l. apply corpus_line_of_incl.
      intros x Hx. right. exact Hx. }
    simpl. fold make_record. rewrite Hr.
    destruct r as [[|r rs]|]; try (exists w; split; assumption).
    rewrite write_corpus_acc, Hw. eexists. split; [reflexivity|].
    apply Forall_app. split; [|exact Hall'].
    eapply Forall_impl; [|apply (make_record_lines p fuel (r :: rs) Hr)].
    intros l. apply corpus_line_of_incl. intros x [<-|[]]. left. reflexivity.
Qed.

(** A line of the file corpus is accepted by every later stage: it has a
    key for the merge, a text for the embedding, and is a record. *)
Lemma corpus_line_of_accepted files l :
  corpus_line_of files l ->
  well_keyed l = true /\ record_line l = true
  /\ exists rec, l = dumps rec /\ embeddable rec = true.
Proof.
  intros [rec [p [c [id [h [-> [_ [_ [Hid [Hsha [Htxt Hne]]]]]]]]]]].
  split; [|split; [reflexivity|]].
  - unfold well_keyed, Indexing.dedup_key, por. simpl loads. cbv iota.
    rewrite Hsha, Hid. destruct (truthy (VStr h)); reflexivity.
  - exists rec. split; [reflexivity|].
    unfold embeddable, record_text, por. rewrite Htxt.
    destruct c; [congruence|reflexivity].
Qed.

(** X5: [build_corpus] returns on every directory listing, and every line
    it writes is the record of a listed file that is not hidden and ends
    in [.docx], [.pdf] or [.xlsx]; the record has an id, a digest and a
    non-empty text, so the merge and the embedding accept it. *)
Theorem build_corpus_lines (candidates : list str) :
  exists fuel0, forall fuel, (fuel0 <= fuel)%nat ->
    exists corpus,
      Data.build_corpus str_lower sha1_hex resolve st_size
        parse_docx parse_pdf parse_excel candidates fuel = Some corpus
      /\ Forall (corpus_line_of (filter (Data.supported str_lower) candidates)) corpus
      /\ Forall (fun l => well_keyed l = true /\ record_line l = true) corpus
      /\ Forall (fun rec => embeddable rec = true) (records_of corpus).
Proof.
  destruct (write_corpus_returns (filter (Data.supported str_lower) candidates))
    as [fuel0 H].
  exists fuel0. intros fuel Hle. destruct (H fuel Hle) as [w [Hw Hall]].
  exists w. split; [exact Hw|]. split; [exact Hall|]. split.
  - eapply Forall_impl; [|exact Hall]. intros l Hl.
    destruct (corpus_line_of_accepted _ l Hl) as [H1 [H2 _]]. split; assumption.
  - clear Hw. induction Hall as [|l w Hl Hw IH]; [constructor|].
    destruct (corpus_line_of_accepted _ l Hl) as [_ [_ [rec [-> Hemb]]]].
    rewrite records_of_cons. simpl. constructor; assumption.
Qed.

End BuildCorpus.

Lemma build_corpus_lines_witness :
  exists fuel corpus,
    Data.build_corpus Samples.ascii_lower Samples.digest_stub (fun p => p) (fun _ => 1024)
      Samples.parse_docx_stub Samples.parse_pdf_stub Samples.parse_excel_stub
      [Samples.guide_pdf; lit "/data/.hidden.pdf"; lit "/data/notes.txt"] fuel = Some corpus
    /\ Forall (fun l => well_keyed l = true /\ record_line l = true) corpus.
Proof.
  destruct (build_corpus_lines Samples.ascii_lower Samples.digest_stub (fun p => p)
              (fun _ => 1024) Samples.parse_docx_stub Samples.parse_pdf_stub
              Samples.parse_excel_stub
              [Samples.guide_pdf; lit "/data/.hidden.pdf"; lit "/data/notes.txt"])
    as [fuel0 H].
  destruct (H fuel0 (le_n fuel0)) as [corpus [Hrun [_ [Hok _]]]].
  exists fuel0, corpus. split; assumption.
Defined.

(** ** The crawl *)

Lemma str_mem_In x l : str_mem x l = true <-> In x l.
Proof.
  unfold str_mem. rewrite existsb_exists. split.
  - intros [y [Hin Heq]]. apply str_eqb_eq in Heq. subst. exact Hin.
  - intros Hin. exists x. split; [exact Hin|apply str_eqb_refl].
Qed.

Lemma NoDup_snoc {A : Type} (l : list A) (x : A) :
  NoDup l -> ~ In x l -> NoDup (l ++ [x]).
Proof.
  induction 1 as [|y l Hy Hl IH]; intros Hx; simpl.
  - constructor; [intros []|constructor].
  - constructor.
    + intros Hin. apply in_app_or in Hin. destruct Hin as [Hin|[<-|[]]].
      * exact (Hy Hin).
      * apply Hx. left. reflexivity.
    + apply IH. intros Hin. apply Hx. right. exact Hin.
Qed.

Lemma NoDup_map_VStr (l : list str) : NoDup l -> NoDup (map VStr l).
Proof.
  induction 1 as [|x l Hx Hl IH]; simpl; constructor; [|exact IH].
  intros Hin. apply in_map_iff in Hin. destruct Hin as [y [Heq Hin]].
  injection Heq as ->. exact (Hx Hin).
Qed.

Section CrawlInvariant.

Variable str_lower sha1_hex : str -> str.
Variable urlparse : str -> option Webscrape.url_parts.
Variable urlsplit : str -> Webscrape.url_parts.
Variable scrape_page : str -> str * option (list str).

Lemma web_chunk_record_fields url i chunk h :
  let rec := Webscrape.chunk_record urlsplit url i chunk h in
  get rec (lit "sha1") = VStr h
  /\ get rec (lit "text") = VStr chunk
  /\ get rec (lit "source_type") = VStr (lit "web")
  /\ get rec (lit "path") = VStr url.
Proof. repeat split; reflexivity. Qed.

(** Writing the chunks of one page keeps digests and records in step. *)
Lemma write_chunks_inv url pages chunks :
  Forall (fun ic : Z * str => snd ic <> []) chunks ->
  In url pages ->
  forall seen out seen' out',
    Webscrape.write_chunks sha1_hex urlsplit url chunks seen out = (seen', out') ->
    map (fun r => get r (lit "sha1")) out = map VStr seen ->
    NoDup seen ->
    Forall web_record out ->
    Forall (fun r => exists u, In u pages /\ get r (lit "path") = VStr u) out ->
    map (fun r => get r (lit "sha1")) out' = map VStr seen'
    /\ NoDup seen'
    /\ Forall web_record out'
    /\ Forall (fun r => exists u, In u pages /\ get r (lit "path") = VStr u) out'.
Proof.
  intros Hchunks Hurl.
  induction Hchunks as [|[i chunk] chunks Hne Hrest IH];
    intros seen out seen' out' Hrun Hsha Hnd Htext Hpath.
  - simpl in Hrun. injection Hrun as <- <-. auto.
  - simpl in Hrun. simpl in Hne.
    destruct (str_mem (sha1_hex chunk) seen) eqn:Em.
    + eapply IH; eassumption.
    + destruct (web_chunk_record_fields url i chunk (sha1_hex chunk))
        as [Fsha [Ftxt [Fsrc Fpath]]].
      eapply IH; [exact Hrun| | | |].
      * rewrite !map_app, Hsha. simpl. rewrite Fsha. reflexivity.
      * apply NoDup_snoc; [exact Hnd|]. intros Hin. apply str_mem_In in Hin. congruence.
      * apply Forall_app. split; [exact Htext|]. constructor; [|constructor].
        exists chunk. auto.
      * apply Forall_app. split; [exact Hpath|]. constructor; [|constructor].
        exists url. auto.
Qed.

Lemma crawl_loop_inv start_url max_pages :
  forall fuel st pages out,
    crawl_inv max_pages st pages ->
    Webscrape.crawl_loop str_lower sha1_hex urlparse urlsplit scrape_page
      fuel start_url max_pages st = Some out ->
    exists st' pages',
      Webscrape.written st' = out /\ crawl_inv max_pages st' pages'.
Proof.
  induction fuel as [|fuel IH]; intros st pages out Hinv Hrun; [discriminate|].
  simpl in Hrun.
  destruct (Webscrape.to_visit st) as [|url queue] eqn:Eq.
  { injection Hrun as <-. exists st, pages. auto. }
  destruct (Webscrape.pages_written st <? max_pages) eqn:Elt.
  2:{ injection Hrun as <-. exists st, pages. auto. }
  apply Z.ltb_lt in Elt.
  destruct Hinv as [Hsha Hnd Htext Hcount Hbudget Hvis Hpages Hpaths].
  destruct (str_mem url (Webscrape.visited st)) eqn:Ev.
  { eapply (IH _ pages); [|exact Hrun]. constructor; simpl; assumption. }
  assert (Hskip : crawl_inv max_pages
                    {| Webscrape.visited := Webscrape.visited st ++ [url];
                       Webscrape.to_visit := queue;
                       Webscrape.pages_written := Webscrape.pages_written st;
                       Webscrape.seen_chunks := Webscrape.seen_chunks st;
                       Webscrape.written := Webscrape.written st |} pages).
  { constructor; simpl; try assumption. apply incl_appl. exact Hvis. }
  destruct (scrape_page url) as [text [links|]]; [|eapply IH; [exact Hskip|exact Hrun]].
  destruct (nonempty text); [|eapply IH; [exact Hskip|exact Hrun]].
  destruct (Webscrape.chunk_text text 2500 100 fuel) as [chunks|] eqn:Ec; [|discriminate].
  destruct (Webscrape.write_chunks sha1_hex urlsplit url (enumerate 1 chunks)
              (Webscrape.seen_chunks st) (Webscrape.written st)) as [seen' out'] eqn:Ew.
  assert (Hfresh : ~ In url pages).
  { intros Hin. apply Hvis in Hin. apply str_mem_In in Hin. congruence. }
  assert (Hchunks : Forall (fun ic : Z * str => snd ic <> []) (enumerate 1 chunks)).
  { unfold Webscrape.chunk_text in Ec.
    assert (Hall : Forall (chunk_of text 2500) chunks).
    { eapply (web_chunk_loop_shape text 2500 100); [lia| | |exact Ec]; [lia|constructor]. }
    apply (Forall_enumerate (fun c : str => c <> [])).
    eapply Forall_impl; [|exact Hall]. intros c Hc. apply Hc. }
  assert (Hpaths' : Forall (fun r => exists u, In u (pages ++ [url])
                                               /\ get r (lit "path") = VStr u)
                           (Webscrape.written st)).
  { eapply Forall_impl; [|exact Hpaths]. intros r [u [Hu Hr]].
    exists u. split; [apply in_or_app; left; exact Hu|exact Hr]. }
  assert (Hurl : In url (pages ++ [url])).
  { apply in_or_app. right. left. reflexivity. }
  destruct (write_chunks_inv url (pages ++ [url]) (enumerate 1 chunks) Hchunks Hurl
              _ _ _ _ Ew Hsha Hnd Htext Hpaths') as [Hsha' [Hnd' [Htext' Hp']]].
  eapply (IH _ (pages ++ [url])); [|exact Hrun].
  constructor; simpl; try assumption.
  - rewrite length_app. simpl. lia.
  - lia.
  - intros u Hu. apply in_app_or in Hu. apply in_or_app.
    destruct Hu as [Hu|Hu]; [left; apply Hvis, Hu|right; exact Hu].
  - apply NoDup_snoc; assumption.
Qed.

(** X6: whatever a crawl writes, no two records share a digest (a chunk
    already written for this or an earlier page is not written again),
    and every record holds a non-empty text of source type [web]. *)
Theorem crawl_records_distinct (start_url : str) (max_pages : Z) (fuel : nat)
    (out : list dict) :
  Webscrape.crawl_website str_lower sha1_hex urlparse urlsplit scrape_page
    start_url max_pages fuel = Some out ->
  NoDup (map (fun r => get r (lit "sha1")) out)
  /\ Forall web_record out.
Proof.
  intros Hrun. unfold Webscrape.crawl_website in Hrun.
  assert (Hinv0 : crawl_inv max_pages
                    {| Webscrape.visited := []; Webscrape.to_visit := [start_url];
                       Webscrape.pages_written := 0; Webscrape.seen_chunks := [];
                       Webscrape.written := [] |} []).
  { constructor; simpl; try constructor; try lia. intros x []. }
  destruct (crawl_loop_inv start_url max_pages fuel _ [] out Hinv0 Hrun)
    as [st' [pages' [<- Hinv]]].
  destruct Hinv as [Hsha Hnd Htext _ _ _ _ _].
  split; [|exact Htext].
  rewrite Hsha. apply NoDup_map_VStr, Hnd.
Qed.

(** X7: the records a crawl writes come from at most [max_pages] distinct
    pages; with a non-positive [max_pages] nothing is written. *)
Theorem crawl_pages_bounded (start_url : str) (max_pages : Z) (fuel : nat)
    (out : list dict) :
  Webscrape.crawl_website str_lower sha1_hex urlparse urlsplit scrape_page
    start_url max_pages fuel = Some out ->
  (exists pages,
     NoDup pages
     /\ Z.of_nat (length pages) <= Z.max 0 max_pages
     /\ Forall (fun r => exists u, In u pages /\ get r (lit "path") = VStr u) out)
  /\ (max_pages <= 0 -> out = []).
Proof.
  intros Hrun. unfold Webscrape.crawl_website in Hrun.
  assert (Hinv0 : crawl_inv max_pages
                    {| Webscrape.visited := []; Webscrape.to_visit := [start_url];
                       Webscrape.pages_written := 0; Webscrape.seen_chunks := [];
                       Webscrape.written := [] |} []).
  { constructor; simpl; try constructor; try lia. intros x []. }
  destruct (crawl_loop_inv start_url max_pages fuel _ [] out Hinv0 Hrun)
    as [st' [pages' [<- Hinv]]].
  destruct Hinv as [_ _ _ Hcount Hbudget _ Hpages Hpaths].
  split.
  - exists pages'. split; [exact Hpages|]. split; [lia|exact Hpaths].
  - intros Hmax. assert (Hnil : pages' = []).
    { destruct pages'; [reflexivity|]. simpl in Hcount. lia. }
    subst pages'. destruct (Webscrape.written st') as [|r rs]; [reflexivity|].
    inversion Hpaths as [|? ? [u [[] _]] _].
Qed.

End CrawlInvariant.

Lemma crawl_records_distinct_witness :
  exists out,
    SampleSite.crawl 5 10 = Some out
    /\ NoDup (map (fun r => get r (lit "sha1")) out)
    /\ map (fun r => get r (lit "id")) out = [VStr (lit "host/#1")].
Proof.
  eexists. split; [vm_compute; reflexivity|]. split; [|reflexivity].
  refine (proj1 (crawl_records_distinct Samples.ascii_lower Samples.digest_stub
                   (fun u => Some (SampleSite.parts u)) SampleSite.parts SampleSite.scrape
                   SampleSite.home 5 10 _ _)).
  vm_compute. reflexivity.
Defined.

Lemma crawl_pages_bounded_witness :
  exists out,
    SampleSite.crawl 1 10 = Some out
    /\ exists pages,
         Z.of_nat (length pages) <= 1
         /\ Forall (fun r => exists u, In u pages /\ get r (lit "path") = VStr u) out.
Proof.
  eexists. split; [vm_compute; reflexivity|].
  destruct (crawl_pages_bounded Samples.ascii_lower Samples.digest_stub
              (fun u => Some (SampleSite.parts u)) SampleSite.parts SampleSite.scrape
              SampleSite.home 1 10 _ ltac:(vm_compute; reflexivity))
    as [[pages [_ [Hlen Hp]]] _].
  exists pages. split; [exact Hlen|exact Hp].
Defined.

(** ** The merged stream *)

Lemma combine_lines_fresh lines :
  Forall (fun l => well_keyed l = true) lines ->
  forall seen out, exists new,
    Indexing.combine_lines lines seen out
    = Ok (seen ++ map Indexing.dedup_key new, out ++ new)
    /\ fresh_keys seen new
    /\ incl new (records_of lines)
    /\ forall r, In r (records_of lines) ->
                 set_mem (Indexing.dedup_key r) (seen ++ map Indexing.dedup_key new) = true.
Proof.
  induction 1 as [|l lines Hl Hrest IH]; intros seen out.
  - exists []. simpl. rewrite !app_nil_r.
    split; [reflexivity|]. split; [exact I|]. split; [apply incl_refl|intros r []].
  - rewrite records_of_cons. unfold well_keyed in Hl. simpl Indexing.combine_lines.
    destruct (loads l) as [[| | | | |d]|]; try discriminate.
    + rewrite Hl. simpl negb. cbv iota.
      destruct (set_mem (Indexing.dedup_key d) seen) eqn:Em.
      * destruct (IH seen out) as [new [Hrun [Hfresh [Hin Hcov]]]].
        exists new. split; [exact Hrun|]. split; [exact Hfresh|].
        split; [apply incl_appr, Hin|].
        intros r [<-|Hr]; [rewrite set_mem_app, Em; reflexivity|apply Hcov, Hr].
      * destruct (IH (seen ++ [Indexing.dedup_key d]) (out ++ [d]))
          as [new [Hrun [Hfresh [Hin Hcov]]]].
        exists (d :: new).
        split; [rewrite Hrun, <- !app_assoc; reflexivity|].
        split; [simpl; auto|].
        split.
        { intros r [<-|Hr]; [left; reflexivity|right; apply Hin, Hr]. }
        intros r [<-|Hr].
        -- rewrite !set_mem_app. simpl. rewrite py_eq_refl by exact Hl.
           rewrite orb_true_r. reflexivity.
        -- specialize (Hcov r Hr). rewrite <- app_assoc in Hcov. exact Hcov.
    + simpl app. apply IH.
Qed.

Lemma fresh_keys_not_seen seen recs :
  fresh_keys seen recs ->
  forall r, In r recs -> set_mem (Indexing.dedup_key r) seen = false.
Proof.
  revert seen. induction recs as [|r0 recs IH]; intros seen Hf r Hin; [destruct Hin|].
  destruct Hf as [_ [Hm Hrest]]. destruct Hin as [<-|Hin]; [exact Hm|].
  specialize (IH _ Hrest r Hin). rewrite set_mem_app in IH.
  apply orb_false_iff in IH. apply IH.
Qed.

Lemma fresh_keys_distinct seen recs :
  fresh_keys seen recs ->
  forall i j ri rj,
    (i < j)%nat -> nth_error recs i = Some ri -> nth_error recs j = Some rj ->
    py_eq (Indexing.dedup_key ri) (Indexing.dedup_key rj) = false.
Proof.
  revert seen. induction recs as [|r0 recs IH]; intros seen Hf i j ri rj Hij Hi Hj.
  - destruct i; discriminate.
  - destruct Hf as [_ [_ Hrest]]. destruct j as [|j]; [lia|]. simpl in Hj.
    destruct i as [|i].
    + simpl in Hi. injection Hi as <-.
      pose proof (fresh_keys_not_seen _ _ Hrest rj (nth_error_In _ _ Hj)) as Hm.
      rewrite set_mem_app in Hm. apply orb_false_iff in Hm. destruct Hm as [_ Hm].
      simpl in Hm. rewrite orb_false_r in Hm. rewrite py_eq_sym. exact Hm.
    + simpl in Hi. eapply IH; [exact Hrest| |exact Hi|exact Hj]. lia.
Qed.

(** Records with fresh keys go through the merge unchanged. *)
Lemma combine_lines_fresh_identity recs :
  forall seen out,
    fresh_keys seen recs ->
    Indexing.combine_lines (map dumps recs) seen out
    = Ok (seen ++ map Indexing.dedup_key recs, out ++ recs).
Proof.
  induction recs as [|r recs IH]; intros seen out Hf; simpl.
  - rewrite !app_nil_r. reflexivity.
  - destruct Hf as [Hh [Hm Hrest]]. rewrite Hh, Hm. simpl.
    rewrite (IH _ _ Hrest), <- !app_assoc. reflexivity.
Qed.

Lemma combine_jsonl_lines fs paths :
  Indexing.combine_jsonl fs paths =
  so <- Indexing.combine_lines (merged_input fs paths) [] [] ;; Ok (snd so).
Proof. unfold Indexing.combine_jsonl. rewrite combine_paths_merged. reflexivity. Qed.

(** X8: on input lines the merge can process (a line fails to parse,
    or it is an object whose dedup key can be put in a set) the merge
    returns, and the merged stream holds no two records with equal dedup
    keys; each of its records is a record of the input, and every record
    of the input has its key in the merged stream. *)
Theorem merge_keys_distinct (fs : str -> option (list line)) (paths : list str) :
  Forall (fun l => well_keyed l = true) (merged_input fs paths) ->
  exists out,
    Indexing.combine_jsonl fs paths = Ok out
    /\ (forall i j ri rj,
          (i < j)%nat -> nth_error out i = Some ri -> nth_error out j = Some rj ->
          py_eq (Indexing.dedup_key ri) (Indexing.dedup_key rj) = false)
    /\ incl out (records_of (merged_input fs paths))
    /\ (forall r, In r (records_of (merged_input fs paths)) ->
          exists r', In r' out
                     /\ py_eq (Indexing.dedup_key r) (Indexing.dedup_key r') = true).
Proof.
  intros Hwk.
  destruct (combine_lines_fresh _ Hwk [] []) as [new [Hrun [Hfresh [Hin Hcov]]]].
  simpl in Hrun.
  exists new. rewrite combine_jsonl_lines, Hrun. simpl.
  split; [reflexivity|]. split; [apply (fresh_keys_distinct [] new Hfresh)|].
  split; [exact Hin|].
  intros r Hr. specialize (Hcov r Hr). simpl in Hcov.
  unfold set_mem in Hcov. apply existsb_exists in Hcov.
  destruct Hcov as [k [Hk Heq]]. apply in_map_iff in Hk.
  destruct Hk as [r' [<- Hr']]. exists r'. split; assumption.
Qed.

Lemma merge_keys_distinct_witness :
  exists out,
    Indexing.combine_jsonl Samples.corpus_fs
      [lit "out/ndis_parsed.jsonl"; lit "out/web_parsed.jsonl"] = Ok out
    /\ length out = 3%nat.
Proof.
  assert (Hwk : Forall (fun l => well_keyed l = true)
                  (merged_input Samples.corpus_fs
                     [lit "out/ndis_parsed.jsonl"; lit "out/web_parsed.jsonl"])).
  { vm_compute. repeat constructor. }
  destruct (merge_keys_distinct Samples.corpus_fs
              [lit "out/ndis_parsed.jsonl"; lit "out/web_parsed.jsonl"] Hwk)
    as [out [Hrun _]].
  exists out. split; [exact Hrun|].
  vm_compute in Hrun. injection Hrun as <-. reflexivity.
Defined.

(** X9: merging is idempotent on its result: when a merge of lines it
    can process has returned, a file that holds the merged stream merges
    to that same stream. *)
Theorem merge_of_merged
    (fs fs' : str -> option (list line)) (paths : list str) (p : str) (out : list dict) :
  Forall (fun l => well_keyed l = true) (merged_input fs paths) ->
  Indexing.combine_jsonl fs paths = Ok out ->
  p <> [] -> fs' p = Some (map dumps out) ->
  Indexing.combine_jsonl fs' [p] = Ok out.
Proof.
  intros Hwk Hrun Hp Hfs.
  destruct (combine_lines_fresh _ Hwk [] []) as [new [Hrun' [Hfresh _]]].
  simpl in Hrun'. rewrite combine_jsonl_lines, Hrun' in Hrun. simpl in Hrun.
  injection Hrun as <-.
  rewrite combine_jsonl_lines. unfold merged_input. simpl flat_map.
  apply nonempty_true in Hp. rewrite Hp, Hfs, app_nil_r.
  rewrite (combine_lines_fresh_identity new [] [] Hfresh). reflexivity.
Qed.

Lemma merge_of_merged_witness :
  Indexing.combine_jsonl
    (Samples.corpus_only
       (map dumps [ Samples.file_rec "guide_1" "alpha" "aa11";
                    Samples.file_rec "guide_2" "beta" "bb22" ]))
    [lit "out/ndis_parsed.jsonl"]
  = Ok [ Samples.file_rec "guide_1" "alpha" "aa11";
         Samples.file_rec "guide_2" "beta" "bb22" ].
Proof.
  apply (merge_of_merged Samples.corpus_fs _ [lit "out/ndis_parsed.jsonl"]).
  - vm_compute. repeat constructor.
  - reflexivity.
  - discriminate.
  - reflexivity.
Defined.

(** X10: only lines that fail to parse are skipped.  A line that parses
    to something other than an object makes the merge raise
    [AttributeError], and a record whose key is a list or an object makes
    it raise [TypeError], whatever comes after; nothing is returned. *)
Theorem merge_raises (fs : str -> option (list line)) (p : str)
    (before after : list line) (bad : line) :
  p <> [] -> fs p = Some (before ++ bad :: after) ->
  Forall (fun l => well_keyed l = true) before ->
  ((exists v, bad = Parsed v /\ not_object v) ->
     Indexing.combine_jsonl fs [p] = Err AttributeError)
  /\ ((exists rec, bad = Parsed (VDict rec)
                   /\ hashable (Indexing.dedup_key rec) = false) ->
     Indexing.combine_jsonl fs [p] = Err TypeError).
Proof.
  intros Hp Hfs Hbefore.
  assert (Hlines : merged_input fs [p] = before ++ bad :: after).
  { unfold merged_input. simpl. apply nonempty_true in Hp. rewrite Hp, Hfs.
    apply app_nil_r. }
  destruct (combine_lines_fresh _ Hbefore [] []) as [new [Hrun _]].
  rewrite combine_jsonl_lines, Hlines, combine_lines_app, Hrun. cbn [bind fst snd].
  split.
  - intros [v [-> Hv]]. destruct v; try reflexivity. destruct Hv.
  - intros [rec [-> Hh]]. simpl. rewrite Hh. reflexivity.
Qed.

Lemma merge_raises_witness :
  Indexing.combine_jsonl
    (Samples.corpus_only [dumps (Samples.file_rec "guide_1" "alpha" "aa11");
                          Parsed (VInt 5);
                          dumps (Samples.file_rec "guide_2" "beta" "bb22")])
    [lit "out/ndis_parsed.jsonl"] = Err AttributeError.
Proof.
  refine (proj1 (merge_raises _ (lit "out/ndis_parsed.jsonl")
                   [dumps (Samples.file_rec "guide_1" "alpha" "aa11")]
                   [dumps (Samples.file_rec "guide_2" "beta" "bb22")]
                   (Parsed (VInt 5)) _ _ _) _).
  - discriminate.
  - reflexivity.
  - repeat constructor.
  - exists (VInt 5). split; [reflexivity|exact I].
Defined.

(** ** Documents for the index *)

Lemma len_slice_to {A : Type} (l : list A) (n : Z) : 0 <= n -> len (slice_to l n) <= n.
Proof.
  intros Hn. rewrite slice_to_firstn by exact Hn. unfold len.
  pose proof (firstn_le_length (Z.to_nat n) l). lia.
Qed.

Lemma load_line_doc repr l doc :
  Indexing.load_line repr l = Ok (Some doc) ->
  index_doc doc
  /\ exists rec,
       l = Parsed (VDict rec)
       /\ get doc (lit "id")
          = VStr (Indexing.sanitize_id
                    (Indexing.py_str repr (get_default rec (lit "id") (VStr []))))
       /\ (get_default rec (lit "id") (VStr []) = VStr [] ->
           get doc (lit "id") = VStr (lit "missing_id")).
Proof.
  destruct l as [| |[| | | | |rec]]; try (simpl; discriminate).
  rewrite load_line_vector. unfold has_vector. rewrite <- !truthy_por.
  destruct (truthy (por (por (get rec (lit "embedding")) (get rec (lit "vector")))
                        (get rec (lit "content_vector")))) eqn:Ev; [|discriminate].
  destruct (Indexing.value_slice_to (text_payload rec) 32766) as [content|e] eqn:Ec;
    simpl; [|discriminate].
  intros H. injection H as <-. split.
  - split; [reflexivity|]. split.
    + eexists. split; [reflexivity|].
      split; [apply sanitize_id_nonempty|].
      split; [apply sanitize_id_safe|apply sanitize_id_length].
    + split; [eexists; reflexivity|]. split; [|exact Ev].
      destruct (text_payload rec) as [| | |s|x|]; simpl in Ec; try discriminate;
        injection Ec as <-.
      * left. eexists. split; [reflexivity|]. apply len_slice_to. lia.
      * right. eexists. split; [reflexivity|]. apply len_slice_to. lia.
  - exists rec. split; [reflexivity|]. split; [reflexivity|].
    intros Hid. change (get (_ :: _) (lit "id"))
      with (VStr (Indexing.sanitize_id
                    (Indexing.py_str repr (get_default rec (lit "id") (VStr []))))).
    rewrite Hid. reflexivity.
Qed.

(** X11: every document [load_embedded] returns has exactly the fields
    [id], [content], [source] and [embedding]; its id is a valid index
    key (non-empty, key characters only, at most 512), ["missing_id"] when
    the record has no id or an empty one; its content has at most 32766
    characters; and its vector is not empty. *)
Theorem load_embedded_docs (repr : value -> str) (lines : list line) (docs : list dict) :
  Indexing.load_embedded repr lines = Ok docs ->
  Forall index_doc docs
  /\ (forall rec doc,
        Indexing.load_line repr (Parsed (VDict rec)) = Ok (Some doc) ->
        get_default rec (lit "id") (VStr []) = VStr [] ->
        get doc (lit "id") = VStr (lit "missing_id")).
Proof.
  intros Hrun. split.
  - pose proof (load_embedded_ok repr lines docs Hrun) as H2. clear Hrun.
    induction H2 as [|l doc ls ds Hl _ IH]; [constructor|].
    constructor; [|exact IH]. apply (load_line_doc repr l doc Hl).
  - intros rec doc Hl Hid.
    destruct (load_line_doc repr _ doc Hl) as [_ [rec' [Heq [_ Hmiss]]]].
    injection Heq as <-. apply Hmiss, Hid.
Qed.

Lemma load_embedded_docs_witness :
  exists docs,
    Indexing.load_embedded Samples.repr_stub Samples.embedded_lines = Ok docs
    /\ Forall index_doc docs.
Proof.
  eexists. split; [vm_compute; reflexivity|].
  refine (proj1 (load_embedded_docs Samples.repr_stub Samples.embedded_lines _ _)).
  vm_compute. reflexivity.
Defined.

Lemma load_embedded_app repr l1 l2 :
  Indexing.load_embedded repr (l1 ++ l2) =
  d1 <- Indexing.load_embedded repr l1 ;;
  d2 <- Indexing.load_embedded repr l2 ;;
  Ok (d1 ++ d2).
Proof.
  induction l1 as [|l l1 IH]; simpl.
  - destruct (Indexing.load_embedded repr l2); reflexivity.
  - destruct (Indexing.load_line repr l) as [d|e]; simpl; [|reflexivity].
    rewrite IH.
    destruct (Indexing.load_embedded repr l1) as [d1|e]; simpl; [|reflexivity].
    destruct (Indexing.load_embedded repr l2) as [d2|e]; simpl; [|reflexivity].
    destruct d; reflexivity.
Qed.

(** X12: [load_embedded] skips only the lines that fail to parse and the
    records without vector.  A line that parses to something other than
    an object raises [AttributeError], and a record with a vector whose
    text is neither a string nor a list raises [TypeError]: the whole file
    is then rejected. *)
Theorem load_embedded_raises (repr : value -> str)
    (before after : list line) (bad : line) :
  Forall (fun l => corpus_line l = true) before ->
  ((exists v, bad = Parsed v /\ not_object v) ->
     Indexing.load_embedded repr (before ++ bad :: after) = Err AttributeError)
  /\ ((exists rec, bad = Parsed (VDict rec) /\ has_vector rec = true
                   /\ is_text_or_list (text_payload rec) = false) ->
     Indexing.load_embedded repr (before ++ bad :: after) = Err TypeError).
Proof.
  intros Hbefore.
  destruct (load_embedded_total repr before Hbefore) as [docs Hdocs].
  rewrite load_embedded_app, Hdocs. cbn [bind].
  split.
  - intros [v [-> Hv]]. destruct v; try reflexivity. destruct Hv.
  - intros [rec [-> [Hv Ht]]]. cbn [Indexing.load_embedded].
    rewrite load_line_vector, Hv.
    destruct (text_payload rec); try discriminate; reflexivity.
Qed.

Lemma load_embedded_raises_witness :
  Indexing.load_embedded Samples.repr_stub
    (Samples.embedded_lines
     ++ Parsed (VDict [ (lit "id", VStr (lit "x")); (lit "content", VInt 5);
                        (lit "embedding", VList [VInt 1]) ]) :: [Malformed])
  = Err TypeError.
Proof.
  refine (proj2 (load_embedded_raises Samples.repr_stub Samples.embedded_lines [Malformed]
                   _ _) _).
  - vm_compute. repeat constructor.
  - eexists. split; [reflexivity|]. split; reflexivity.
Defined.

(** ** Uploading in batches *)

Lemma slice_window {A : Type} (l : list A) (i b : Z) :
  0 <= i <= len l -> 0 <= b ->
  slice l i (i + b) = firstn (Z.to_nat b) (skipn (Z.to_nat i) l).
Proof.
  intros Hi Hb. unfold slice, slice_bound.
  replace (i <? 0) with false by (symmetry; apply Z.ltb_ge; lia).
  replace (i + b <? 0) with false by (symmetry; apply Z.ltb_ge; lia).
  rewrite (Z.min_r (len l) i) by lia. rewrite (Z.max_r 0 i) by lia.
  destruct (Z.le_gt_cases (i + b) (len l)) as [Hle|Hgt].
  - rewrite Z.min_r by lia. rewrite Z.max_r by lia.
    replace (i + b - i) with b by lia. reflexivity.
  - rewrite Z.min_l by lia. rewrite Z.max_r by lia.
    assert (Hsk : (length (skipn (Z.to_nat i) l) = length l - Z.to_nat i)%nat)
      by apply length_skipn.
    unfold len in *.
    rewrite (firstn_all2 (n := Z.to_nat (Z.of_nat (length l) - i))) by lia.
    rewrite (firstn_all2 (n := Z.to_nat b)) by lia.
    reflexivity.
Qed.

Lemma len_cons {A : Type} (x : A) (l : list A) : len (x :: l) = len l + 1.
Proof. unfold len. simpl length. lia. Qed.

(** The windows cut from position [i] on make up the rest of the list. *)
Lemma upload_windows (docs : list dict) (b : Z) :
  0 < b ->
  forall fuel i,
    0 <= i -> len docs - i < Z.of_nat fuel ->
    let batches := map (fun k => slice docs k (k + b))
                       (Upload.range_loop fuel i (len docs) b) in
    concat batches = skipn (Z.to_nat i) docs
    /\ Forall (fun batch => 0 < len batch <= b) batches
    /\ b * len batches <= Z.max 0 (len docs - i + b - 1)
    /\ Z.max 0 (len docs - i) <= b * len batches.
Proof.
  intros Hb. induction fuel as [|fuel IH]; intros i Hi Hfuel.
  { cbv zeta. simpl. rewrite skipn_all2 by (unfold len in Hfuel; lia).
    split; [reflexivity|]. split; [constructor|]. unfold len at 1 4. simpl. lia. }
  cbv zeta. simpl Upload.range_loop.
  replace (0 <? b) with true by (symmetry; apply Z.ltb_lt; lia).
  destruct (i <? len docs) eqn:Elt.
  - apply Z.ltb_lt in Elt.
    destruct (IH (i + b)) as [Hc [Hf [Hup Hlow]]]; [lia|lia|].
    cbn [map concat]. rewrite Hc.
    rewrite slice_window by lia.
    assert (Hlen : len (firstn (Z.to_nat b) (skipn (Z.to_nat i) docs))
                   = Z.min b (len docs - i)).
    { unfold len. rewrite length_firstn, length_skipn. unfold len in Elt. lia. }
    split; [|split; [|split]].
    + replace (Z.to_nat (i + b)) with (Z.to_nat b + Z.to_nat i)%nat by lia.
      rewrite <- skipn_skipn. apply firstn_skipn.
    + constructor; [lia|exact Hf].
    + rewrite len_cons. pose proof (len_nonneg
        (map (fun k => slice docs k (k + b))
             (Upload.range_loop fuel (i + b) (len docs) b))). nia.
    + rewrite len_cons. nia.
  - apply Z.ltb_ge in Elt. simpl.
    rewrite skipn_all2 by (unfold len in Elt; lia).
    split; [reflexivity|]. split; [constructor|]. unfold len at 1 4. simpl. lia.
Qed.

(** X13: with a positive batch size [upload_all] uploads every document
    once, in order, in non-empty batches of at most [batch_size]
    documents, [ceil(n / batch_size)] of them; with a negative batch size
    it uploads nothing at all, and with a batch size of zero it raises. *)
Theorem upload_all_batches (docs : list dict) (batch_size : Z) :
  (0 < batch_size ->
     exists batches,
       Upload.upload_all docs batch_size = Some batches
       /\ concat batches = docs
       /\ Forall (fun batch => 0 < len batch <= batch_size) batches
       /\ len batches = (len docs + batch_size - 1) / batch_size)
  /\ (batch_size < 0 -> Upload.upload_all docs batch_size = Some [])
  /\ (batch_size = 0 -> Upload.upload_all docs batch_size = None).
Proof.
  pose proof (len_nonneg docs) as Hn.
  unfold Upload.upload_all, Upload.range. split; [|split].
  - intros Hb. replace (batch_size =? 0) with false by (symmetry; apply Z.eqb_neq; lia).
    destruct (upload_windows docs batch_size Hb
                (Datatypes.S (Z.to_nat (Z.abs (len docs - 0)))) 0)
      as [Hc [Hf [Hup Hlow]]]; [lia|lia|].
    eexists. split; [reflexivity|]. split; [exact Hc|]. split; [exact Hf|].
    apply (Z.div_unique_pos _ batch_size _
             (len docs + batch_size - 1
              - batch_size * len (map (fun k => slice docs k (k + batch_size))
                                      (Upload.range_loop
                                         (Datatypes.S (Z.to_nat (Z.abs (len docs - 0))))
                                         0 (len docs) batch_size)))); lia.
  - intros Hb. replace (batch_size =? 0) with false by (symmetry; apply Z.eqb_neq; lia).
    simpl Upload.range_loop.
    replace (0 <? batch_size) with false by (symmetry; apply Z.ltb_ge; lia).
    replace (len docs <? 0) with false by (symmetry; apply Z.ltb_ge; lia).
    reflexivity.
  - intros ->. reflexivity.
Qed.

Lemma upload_all_batches_witness :
  exists batches,
    Upload.upload_all (map (fun i => [(lit "id", VInt (Z.of_nat i))]) (seq 0 5)) 2
    = Some batches
    /\ map len batches = [2; 2; 1].
Proof.
  destruct (proj1 (upload_all_batches
                     (map (fun i => [(lit "id", VInt (Z.of_nat i))]) (seq 0 5)) 2))
    as [batches [Hrun _]]; [lia|].
  exists batches. split; [exact Hrun|].
  vm_compute in Hrun. injection Hrun as <-. reflexivity.
Defined.

(** ** What embedding does to a record *)

Lemma lookup_None_keys d k : lookup d k = None <-> ~ In k (map fst d).
Proof.
  induction d as [|[k1 v1] d IH]; simpl.
  - split; [intros _ []|reflexivity].
  - destruct (str_eqb k k1) eqn:E.
    + apply str_eqb_eq in E. subst. split; [discriminate|]. intros H. exfalso. apply H. auto.
    + rewrite IH. split.
      * intros H [Heq|Hin]; [|exact (H Hin)]. subst. rewrite str_eqb_refl in E. discriminate.
      * intros H Hin. apply H. right. exact Hin.
Qed.

Lemma lookup_remove_same d k : NoDup (map fst d) -> lookup (remove d k) k = None.
Proof.
  induction d as [|[k1 v1] d IH]; simpl; intros Hnd; [reflexivity|].
  inversion Hnd as [|? ? Hk1 Hd]; subst.
  destruct (str_eqb k k1) eqn:E.
  - apply str_eqb_eq in E. subst. apply lookup_None_keys. exact Hk1.
  - simpl. rewrite E. apply IH, Hd.
Qed.

Lemma keys_set d k v :
  map fst (set d k v) = if has_key d k then map fst d else map fst d ++ [k].
Proof.
  unfold has_key. induction d as [|[k1 v1] d IH]; simpl; [reflexivity|].
  destruct (str_eqb k k1) eqn:E; simpl; [reflexivity|].
  rewrite IH. destruct (lookup d k); reflexivity.
Qed.

Lemma NoDup_keys_set d k v : NoDup (map fst d) -> NoDup (map fst (set d k v)).
Proof.
  intros Hnd. rewrite keys_set. unfold has_key.
  destruct (lookup d k) eqn:E; [exact Hnd|].
  apply NoDup_snoc; [exact Hnd|]. apply lookup_None_keys, E.
Qed.

Lemma has_key_set_other d k v k' :
  str_eqb k' k = false -> has_key (set d k v) k' = has_key d k'.
Proof. intros H. unfold has_key. rewrite lookup_set, H. reflexivity. Qed.

(** X14: embedding a record adds the vector and its dimension and leaves
    every other field alone, except that a record without [content] has
    its [text] moved to [content] (its keys being distinct, no [text] is
    left); a record that has a [content] field keeps both as they were. *)
Theorem attach_fields (rec : dict) (e : list value) :
  get (Embeddings.attach rec e) (lit "embedding") = VList e
  /\ get (Embeddings.attach rec e) (lit "embedding_dim") = VInt (len e)
  /\ (forall k,
        str_eqb k (lit "embedding") = false -> str_eqb k (lit "embedding_dim") = false ->
        str_eqb k (lit "text") = false -> str_eqb k (lit "content") = false ->
        lookup (Embeddings.attach rec e) k = lookup rec k)
  /\ (has_key rec (lit "content") = true ->
      lookup (Embeddings.attach rec e) (lit "content") = lookup rec (lit "content")
      /\ lookup (Embeddings.attach rec e) (lit "text") = lookup rec (lit "text"))
  /\ (has_key rec (lit "content") = false -> NoDup (map fst rec) ->
      lookup (Embeddings.attach rec e) (lit "content") = lookup rec (lit "text")
      /\ lookup (Embeddings.attach rec e) (lit "text") = None).
Proof.
  split; [apply attach_embedding|].
  unfold Embeddings.attach.
  set (rec1 := set rec (lit "embedding") (VList e)).
  set (rec2 := set rec1 (lit "embedding_dim") (VInt (len e))).
  assert (Hc : has_key rec2 (lit "content") = has_key rec (lit "content")).
  { unfold rec2, rec1. rewrite !has_key_set_other by reflexivity. reflexivity. }
  assert (Ht : has_key rec2 (lit "text") = has_key rec (lit "text")).
  { unfold rec2, rec1. rewrite !has_key_set_other by reflexivity. reflexivity. }
  assert (Hother : forall k,
            str_eqb k (lit "embedding") = false -> str_eqb k (lit "embedding_dim") = false ->
            lookup rec2 k = lookup rec k).
  { intros k H1 H2. unfold rec2, rec1. rewrite !lookup_set, H1, H2. reflexivity. }
  rewrite Hc, Ht.
  split; [|split; [|split]].
  - destruct (negb (has_key rec (lit "content")) && has_key rec (lit "text")).
    + rewrite get_set_other by reflexivity. rewrite get_remove_other by reflexivity.
      apply get_set_same.
    + apply get_set_same.
  - intros k H1 H2 H3 H4.
    destruct (negb (has_key rec (lit "content")) && has_key rec (lit "text")).
    + rewrite lookup_set, H4. rewrite lookup_remove_other by exact H3.
      apply Hother; assumption.
    + apply Hother; assumption.
  - intros Hhas. rewrite Hhas. simpl.
    split; apply Hother; reflexivity.
  - intros Hhas Hnd. rewrite Hhas. simpl.
    assert (Hnd2 : NoDup (map fst rec2)).
    { unfold rec2, rec1. apply NoDup_keys_set, NoDup_keys_set, Hnd. }
    destruct (has_key rec (lit "text")) eqn:Etext.
    + split.
      * rewrite lookup_set, str_eqb_refl. unfold get, get_default.
        rewrite Hother by reflexivity.
        unfold has_key in Etext. destruct (lookup rec (lit "text")); [reflexivity|discriminate].
      * rewrite lookup_set. replace (str_eqb (lit "text") (lit "content")) with false
          by reflexivity.
        apply lookup_remove_same, Hnd2.
    + rewrite !Hother by reflexivity.
      unfold has_key in Hhas, Etext.
      destruct (lookup rec (lit "content")); [discriminate|].
      destruct (lookup rec (lit "text")); [discriminate|]. split; reflexivity.
Qed.

Lemma attach_fields_witness :
  lookup (Embeddings.attach (Samples.file_rec "guide_1" "alpha" "aa11") [VInt 1])
         (lit "content") = Some (VStr (lit "alpha"))
  /\ lookup (Embeddings.attach (Samples.file_rec "guide_1" "alpha" "aa11") [VInt 1])
            (lit "text") = None.
Proof.
  destruct (attach_fields (Samples.file_rec "guide_1" "alpha" "aa11") [VInt 1])
    as [_ [_ [_ [_ H]]]].
  destruct H as [H1 H2]; [reflexivity| |].
  - vm_compute. repeat constructor; simpl; intuition discriminate.
  - split; [rewrite H1; reflexivity|exact H2].
Defined.

(** ** Bad lines, failing services and short responses while embedding *)

Lemma read_lines_record create B rec rest st :
  Embeddings.read_lines create B (Parsed (VDict rec) :: rest) st =
  if negb (embeddable rec) then Embeddings.read_lines create B rest st
  else
    let st1 := {| Embeddings.batch_texts := Embeddings.batch_texts st ++ [record_text rec];
                  Embeddings.batch_recs := Embeddings.batch_recs st ++ [rec];
                  Embeddings.fout := Embeddings.fout st;
                  Embeddings.calls := Embeddings.calls st |} in
    if len (Embeddings.batch_texts st ++ [record_text rec]) >=? B
    then st2 <- Embeddings.flush_batch create st1 ;; Embeddings.read_lines create B rest st2
    else Embeddings.read_lines create B rest st1.
Proof. reflexivity. Qed.

Lemma read_lines_app create B l1 l2 st :
  Embeddings.read_lines create B (l1 ++ l2) st =
  (st' <- Embeddings.read_lines create B l1 st ;; Embeddings.read_lines create B l2 st').
Proof.
  revert st. induction l1 as [|l l1 IH]; intros st; [reflexivity|].
  destruct l as [| |[| | | | |rec]]; try reflexivity.
  - simpl. apply IH.
  - rewrite <- app_comm_cons, !read_lines_record.
    destruct (negb (embeddable rec)); [apply IH|]. cbv zeta.
    destruct (_ >=? B); [|apply IH].
    destruct (Embeddings.flush_batch create _); simpl; [apply IH|reflexivity].
Qed.

Lemma flush_batch_returns create st :
  one_vector_per_text create -> exists st', Embeddings.flush_batch create st = Ok st'.
Proof.
  intros Hc. unfold Embeddings.flush_batch.
  destruct (negb _); [eauto|].
  destruct (Hc (Embeddings.batch_texts st)) as [data [-> _]]. simpl. eauto.
Qed.

Lemma read_lines_returns create B lines :
  one_vector_per_text create ->
  Forall (fun l => record_line l = true) lines ->
  forall st, exists st', Embeddings.read_lines create B lines st = Ok st'.
Proof.
  intros Hc. induction 1 as [|l lines Hl _ IH]; intros st; [simpl; eauto|].
  destruct l as [| |[| | | | |rec]]; try discriminate.
  - simpl. apply IH.
  - rewrite read_lines_record.
    destruct (negb (embeddable rec)); [apply IH|]. cbv zeta.
    destruct (_ >=? B); [|apply IH].
    destruct (flush_batch_returns create
                {| Embeddings.batch_texts := Embeddings.batch_texts st ++ [record_text rec];
                   Embeddings.batch_recs := Embeddings.batch_recs st ++ [rec];
                   Embeddings.fout := Embeddings.fout st;
                   Embeddings.calls := Embeddings.calls st |} Hc) as [st2 ->].
    simpl. apply IH.
Qed.

(** X15: unlike the merge and the loader, [build_embeddings] does not
    skip a line that fails to parse.  After any number of good lines, a
    non-blank line that is not JSON makes the run raise [JSONDecodeError],
    and a line that is JSON but not an object makes it raise
    [AttributeError]; nothing is returned, whatever follows. *)
Theorem build_embeddings_bad_line
    (create : list value -> result (list (list value)))
    (env_batch : Z) (batch_size : option Z) (before after : list line) :
  one_vector_per_text create ->
  Forall (fun l => record_line l = true) before ->
  Embeddings.build_embeddings create env_batch (before ++ Malformed :: after) batch_size
  = Err JSONDecodeError
  /\ (forall v, not_object v ->
        Embeddings.build_embeddings create env_batch (before ++ Parsed v :: after) batch_size
        = Err AttributeError).
Proof.
  intros Hc Hbefore. unfold Embeddings.build_embeddings.
  split; [|intros v Hv]; rewrite read_lines_app;
    match goal with
    | |- context [Embeddings.read_lines create ?B before ?st] =>
        destruct (read_lines_returns create B before Hc Hbefore st) as [st' ->]
    end; cbn [bind].
  - reflexivity.
  - destruct v; try reflexivity. destruct Hv.
Qed.

Lemma build_embeddings_bad_line_witness :
  Embeddings.build_embeddings Samples.constant_service 16
    (firstn 20 Samples.corpus_35 ++ Malformed :: skipn 20 Samples.corpus_35) None
  = Err JSONDecodeError.
Proof.
  refine (proj1 (build_embeddings_bad_line Samples.constant_service 16 None
                   (firstn 20 Samples.corpus_35) (skipn 20 Samples.corpus_35) _ _)).
  - intros batch. eexists. split; [reflexivity|apply length_map].
  - vm_compute. repeat constructor.
Defined.

Lemma read_lines_no_text create B lines :
  Forall (fun l => record_line l = true) lines ->
  filter embeddable (records_of lines) = [] ->
  forall st, Embeddings.read_lines create B lines st = Ok st.
Proof.
  induction 1 as [|l lines Hl _ IH]; intros Hnone st; [reflexivity|].
  destruct l as [| |[| | | | |rec]]; try discriminate.
  - simpl. apply IH. exact Hnone.
  - rewrite records_of_cons in Hnone. simpl loads in Hnone. cbv iota in Hnone.
    simpl in Hnone. rewrite read_lines_record.
    destruct (embeddable rec); [discriminate|]. simpl. apply IH. exact Hnone.
Qed.

Lemma read_lines_failing create B e lines :
  (forall batch, create batch = Err e) ->
  Forall (fun l => record_line l = true) lines ->
  forall st,
    Embeddings.read_lines create B lines st = Err e
    \/ exists st',
         Embeddings.read_lines create B lines st = Ok st'
         /\ Embeddings.batch_texts st'
            = Embeddings.batch_texts st
              ++ map record_text (filter embeddable (records_of lines)).
Proof.
  intros Hdown. induction 1 as [|l lines Hl _ IH]; intros st.
  - right. exists st. simpl. rewrite app_nil_r. auto.
  - destruct l as [| |[| | | | |rec]]; try discriminate.
    + simpl. apply IH.
    + rewrite records_of_cons. simpl loads. cbv iota. simpl filter.
      rewrite read_lines_record.
      destruct (embeddable rec); simpl negb; cbv iota; [|apply IH]. cbv zeta.
      destruct (_ >=? B).
      * left. unfold Embeddings.flush_batch. cbn [Embeddings.batch_texts].
        destruct (Embeddings.batch_texts st); simpl; rewrite Hdown; reflexivity.
      * match goal with
        | |- context [Embeddings.read_lines create B lines ?s] =>
            destruct (IH s) as [Herr|[st' [Hrun Htexts]]]
        end; [left; exact Herr|].
        right. exists st'. split; [exact Hrun|].
        rewrite Htexts. simpl. rewrite <- app_assoc. reflexivity.
Qed.

(** X16: the embedding service is called only when there is text to
    embed.  On a corpus in which no record has text, no call is made and
    the output is empty, whatever the service would do; and when the
    service fails on every call, a corpus with at least one record with
    text makes [build_embeddings] raise the service's error. *)
Theorem build_embeddings_service_error
    (create : list value -> result (list (list value)))
    (env_batch : Z) (batch_size : option Z) (lines : list line) :
  Forall (fun l => record_line l = true) lines ->
  (filter embeddable (records_of lines) = [] ->
     Embeddings.build_embeddings create env_batch lines batch_size = Ok ([], []))
  /\ (forall e,
        (forall batch, create batch = Err e) ->
        filter embeddable (records_of lines) <> [] ->
        Embeddings.build_embeddings create env_batch lines batch_size = Err e).
Proof.
  intros Hlines. unfold Embeddings.build_embeddings. split.
  - intros Hnone. rewrite read_lines_no_text by assumption. reflexivity.
  - intros e Hdown Hsome.
    match goal with
    | |- context [Embeddings.read_lines create ?B lines ?s] =>
        destruct (read_lines_failing create B e lines Hdown Hlines s)
          as [->|[st' [-> Htexts]]]
    end; [reflexivity|].
    cbn [bind]. simpl in Htexts. unfold Embeddings.flush_batch. rewrite Htexts.
    destruct (filter embeddable (records_of lines)) as [|r rs]; [congruence|].
    simpl. rewrite Hdown. reflexivity.
Qed.

Lemma build_embeddings_service_error_witness :
  Embeddings.build_embeddings SampleServices.failing_service 16 Samples.corpus_35 None
  = Err ServiceError.
Proof.
  refine (proj2 (build_embeddings_service_error SampleServices.failing_service 16 None
                   Samples.corpus_35 _) ServiceError _ _).
  - vm_compute. repeat constructor.
  - reflexivity.
  - vm_compute. discriminate.
Defined.

Lemma read_lines_pending create B lines :
  Forall (fun l => record_line l = true) lines ->
  forall st,
    len (Embeddings.batch_texts st) + len (filter embeddable (records_of lines)) < B ->
    Embeddings.read_lines create B lines st =
    Ok {| Embeddings.batch_texts :=
            Embeddings.batch_texts st
            ++ map record_text (filter embeddable (records_of lines));
          Embeddings.batch_recs :=
            Embeddings.batch_recs st ++ filter embeddable (records_of lines);
          Embeddings.fout := Embeddings.fout st;
          Embeddings.calls := Embeddings.calls st |}.
Proof.
  induction 1 as [|l lines Hl _ IH]; intros st Hroom.
  - simpl. rewrite !app_nil_r. destruct st; reflexivity.
  - destruct l as [| |[| | | | |rec]]; try discriminate.
    + simpl. apply IH. exact Hroom.
    + rewrite records_of_cons in *. simpl loads in *. cbv iota in *.
      simpl filter in *. rewrite read_lines_record.
      destruct (embeddable rec); simpl negb; cbv iota; [|apply IH; exact Hroom].
      cbv zeta. simpl app in Hroom. rewrite len_cons in Hroom.
      pose proof (len_nonneg (filter embeddable (records_of lines))) as Hn.
      destruct (len (Embeddings.batch_texts st ++ [record_text rec]) >=? B) eqn:Ege.
      * rewrite Z.geb_leb in Ege. apply Z.leb_le in Ege. rewrite len_app in Ege.
        change (len [record_text rec]) with 1 in Ege. lia.
      * rewrite IH.
        -- simpl. rewrite <- !app_assoc. reflexivity.
        -- simpl. rewrite len_app. change (len [record_text rec]) with 1. lia.
Qed.

Lemma length_attach_all recs vectors :
  length (attach_all recs vectors) = Nat.min (length recs) (length vectors).
Proof. unfold attach_all. rewrite length_map. apply length_combine. Qed.

(** X17: the vectors of a response are paired with the records of the
    call position by position, and nothing checks that there is one per
    record.  For a corpus that fits in one call, whatever list of vectors
    the service returns is accepted: the output holds as many records as
    the shorter of the two lists, so records beyond the last vector are
    left out without any error. *)
Theorem build_embeddings_short_response
    (create : list value -> result (list (list value)))
    (env_batch : Z) (batch_size : option Z) (lines : list line)
    (data : list (list value)) :
  Forall (fun l => record_line l = true) lines ->
  filter embeddable (records_of lines) <> [] ->
  len (filter embeddable (records_of lines)) < Embeddings.BATCH env_batch batch_size ->
  create (map record_text (filter embeddable (records_of lines))) = Ok data ->
  Embeddings.build_embeddings create env_batch lines batch_size
  = Ok (attach_all (filter embeddable (records_of lines)) data,
        [map record_text (filter embeddable (records_of lines))])
  /\ length (attach_all (filter embeddable (records_of lines)) data)
     = Nat.min (length (filter embeddable (records_of lines))) (length data).
Proof.
  intros Hlines Hsome Hfit Hdata. split; [|apply length_attach_all].
  unfold Embeddings.build_embeddings.
  rewrite read_lines_pending by (try assumption; simpl; change (len (@nil value)) with 0; lia).
  cbn [bind]. unfold Embeddings.flush_batch. simpl.
  destruct (filter embeddable (records_of lines)) as [|r rs] eqn:E; [congruence|].
  simpl map in *. cbn [nonempty negb]. rewrite Hdata. reflexivity.
Qed.

Lemma build_embeddings_short_response_witness :
  exists out calls,
    Embeddings.build_embeddings SampleServices.short_service 16
      (firstn 3 Samples.corpus_35) None = Ok (out, calls)
    /\ length calls = 1%nat
    /\ length out = 2%nat.
Proof.
  destruct (build_embeddings_short_response SampleServices.short_service 16 None
              (firstn 3 Samples.corpus_35)
              (map (fun _ => [VInt 1])
                   (removelast (map record_text
                                    (filter embeddable
                                            (records_of (firstn 3 Samples.corpus_35)))))))
    as [Hrun Hlen].
  - vm_compute. repeat constructor.
  - vm_compute. discriminate.
  - vm_compute. reflexivity.
  - reflexivity.
  - eexists. eexists. split; [exact Hrun|]. split; [reflexivity|].
    rewrite Hlen. reflexivity.
Defined.

(** ** One call per record *)

Lemma responses_cons create c cs :
  responses create (c :: cs) = response create c ++ responses create cs.
Proof. reflexivity. Qed.

Lemma concat_single_calls recs :
  concat (map single_call recs) = map record_text recs.
Proof. induction recs as [|r recs IH]; simpl; [|rewrite IH]; reflexivity. Qed.

Lemma responses_single_calls create recs :
  one_vector_per_text create ->
  length (responses create (map single_call recs)) = length recs.
Proof.
  intros Hc. induction recs as [|r recs IH]; [reflexivity|].
  simpl map. rewrite responses_cons, length_app, IH.
  rewrite (response_length create Hc). reflexivity.
Qed.

Lemma read_lines_single create B lines :
  B <= 1 -> one_vector_per_text create ->
  Forall (fun l => record_line l = true) lines ->
  forall st,
    Embeddings.batch_texts st = [] -> Embeddings.batch_recs st = [] ->
    Embeddings.read_lines create B lines st =
    Ok {| Embeddings.batch_texts := [];
          Embeddings.batch_recs := [];
          Embeddings.fout :=
            Embeddings.fout st
            ++ attach_all (filter embeddable (records_of lines))
                 (responses create (map single_call (filter embeddable (records_of lines))));
          Embeddings.calls :=
            Embeddings.calls st
            ++ map single_call (filter embeddable (records_of lines)) |}.
Proof.
  intros HB Hc. induction 1 as [|l lines Hl _ IH]; intros st Hbt Hbr.
  - simpl. unfold attach_all. simpl. rewrite !app_nil_r.
    destruct st; simpl in *; subst; reflexivity.
  - destruct l as [| |[| | | | |rec]]; try discriminate.
    + simpl. apply IH; assumption.
    + rewrite records_of_cons. simpl loads. cbv iota. simpl filter.
      rewrite read_lines_record.
      destruct (embeddable rec); simpl negb; cbv iota; [|apply IH; assumption].
      cbv zeta. rewrite Hbt, Hbr. simpl app.
      replace (len [record_text rec] >=? B) with true
        by (symmetry; rewrite Z.geb_leb; apply Z.leb_le;
            change (len [record_text rec]) with 1; lia).
      rewrite (flush_pending create Hc) by (simpl; discriminate).
      cbn [bind Embeddings.batch_texts Embeddings.batch_recs Embeddings.fout
           Embeddings.calls].
      rewrite IH by reflexivity.
      cbn [Embeddings.fout Embeddings.calls map].
      rewrite responses_cons.
      change (rec :: filter embeddable (records_of lines))
        with ([rec] ++ filter embeddable (records_of lines)).
      rewrite attach_all_app.
      * rewrite <- !app_assoc. reflexivity.
      * rewrite (response_length create Hc). reflexivity.
Qed.

(** X18: a batch size of 1, and equally a zero or negative [EMBED_BATCH]
    or a negative [batch_size] argument, which nothing rejects, sends the
    text of every record in a call of its own: as many calls as there are
    records with text, in input order, and every such record is written
    with the vector of its own call. *)
Theorem build_embeddings_one_by_one
    (create : list value -> result (list (list value)))
    (env_batch : Z) (batch_size : option Z) (lines : list line) :
  Embeddings.BATCH env_batch batch_size <= 1 ->
  one_vector_per_text create ->
  Forall (fun l => record_line l = true) lines ->
  Embeddings.build_embeddings create env_batch lines batch_size
  = Ok (attach_all (filter embeddable (records_of lines))
          (responses create (map single_call (filter embeddable (records_of lines)))),
        map single_call (filter embeddable (records_of lines)))
  /\ length (attach_all (filter embeddable (records_of lines))
               (responses create (map single_call (filter embeddable (records_of lines)))))
     = length (filter embeddable (records_of lines)).
Proof.
  intros HB Hc Hlines. split.
  - unfold Embeddings.build_embeddings.
    rewrite (read_lines_single create _ lines HB Hc Hlines) by reflexivity.
    reflexivity.
  - rewrite length_attach_all, (responses_single_calls create _ Hc). apply Nat.min_id.
Qed.

Lemma build_embeddings_one_by_one_witness :
  exists out,
    Embeddings.build_embeddings Samples.constant_service 0 Samples.corpus_35 (Some (-4))
    = Ok (out, map single_call (filter embeddable (records_of Samples.corpus_35)))
    /\ length out = 35%nat.
Proof.
  destruct (build_embeddings_one_by_one Samples.constant_service 0 (Some (-4))
              Samples.corpus_35) as [Hrun Hlen].
  - vm_compute. discriminate.
  - intros batch. eexists. split; [reflexivity|apply length_map].
  - vm_compute. repeat constructor.
  - eexists. split; [exact Hrun|]. rewrite Hlen. reflexivity.
Defined.

(** Whatever the batch size, a corpus of records is embedded in full when
    the service returns one vector per text. *)
Lemma build_embeddings_output create env_batch batch_size lines :
  one_vector_per_text create ->
  Forall (fun l => record_line l = true) lines ->
  exists calls,
    Embeddings.build_embeddings create env_batch lines batch_size
    = Ok (attach_all (filter embeddable (records_of lines)) (responses create calls), calls)
    /\ concat calls = map record_text (filter embeddable (records_of lines))
    /\ length (responses create calls) = length (filter embeddable (records_of lines)).
Proof.
  intros Hc Hlines.
  destruct (Z_le_gt_dec (Embeddings.BATCH env_batch batch_size) 1) as [HB|HB].
  - exists (map single_call (filter embeddable (records_of lines))).
    split; [|split].
    + unfold Embeddings.build_embeddings.
      rewrite (read_lines_single create _ lines HB Hc Hlines) by reflexivity.
      reflexivity.
    + apply concat_single_calls.
    + apply responses_single_calls, Hc.
  - set (B := Embeddings.BATCH env_batch batch_size) in *.
    assert (HB1 : 1 <= B) by lia.
    set (st0 := {| Embeddings.batch_texts := []; Embeddings.batch_recs := [];
                   Embeddings.fout := []; Embeddings.calls := [] |}).
    assert (Hinv0 : batching create B st0 []).
    { constructor; simpl; try reflexivity; [constructor|unfold len; simpl; lia]. }
    destruct (read_lines_batching create B HB1 Hc lines Hlines st0 [] Hinv0)
      as [st [flushed [Hrun [[Hfull Hroom Htexts Hsent Hresp Hout] Hall]]]].
    simpl in Hall.
    unfold Embeddings.build_embeddings. fold B. fold st0. rewrite Hrun. cbn [bind].
    destruct (Embeddings.batch_texts st) as [|t ts] eqn:Ebt.
    + assert (Hbr : Embeddings.batch_recs st = []).
      { destruct (Embeddings.batch_recs st); [reflexivity|discriminate]. }
      rewrite Hbr, app_nil_r in Hall. subst flushed.
      exists (Embeddings.calls st).
      unfold Embeddings.flush_batch. rewrite Ebt. simpl.
      rewrite Hout. auto.
    + assert (Hne : Embeddings.batch_texts st <> []) by (rewrite Ebt; discriminate).
      rewrite <- Ebt in Htexts.
      destruct (flush_batching create Hc st flushed Htexts Hsent Hresp Hout Hne)
        as [st2 [Hflush [_ [_ [Hcalls [Hs2 [Hr2 Ho2]]]]]]].
      rewrite Hall in Hs2, Hr2, Ho2.
      exists (Embeddings.calls st2). rewrite Hflush. simpl.
      rewrite Ho2. auto.
Qed.

(** ** From the corpus to the index *)

Lemma attach_lookup_other rec e k :
  str_eqb k (lit "embedding") = false -> str_eqb k (lit "embedding_dim") = false ->
  str_eqb k (lit "text") = false -> str_eqb k (lit "content") = false ->
  lookup (Embeddings.attach rec e) k = lookup rec k.
Proof.
  intros H1 H2 H3 H4. unfold Embeddings.attach.
  destruct (negb _ && _).
  - rewrite lookup_set, H4. rewrite lookup_remove_other by exact H3.
    rewrite !lookup_set, H1, H2. reflexivity.
  - rewrite !lookup_set, H1, H2. reflexivity.
Qed.

Lemma attach_get_other rec e k d :
  str_eqb k (lit "embedding") = false -> str_eqb k (lit "embedding_dim") = false ->
  str_eqb k (lit "text") = false -> str_eqb k (lit "content") = false ->
  get_default (Embeddings.attach rec e) k d = get_default rec k d.
Proof.
  intros H1 H2 H3 H4. unfold get_default.
  rewrite attach_lookup_other by assumption. reflexivity.
Qed.

Lemma attach_text_record rec e c :
  has_key rec (lit "content") = false ->
  get rec (lit "text") = VStr c -> c <> [] ->
  get (Embeddings.attach rec e) (lit "content") = VStr c.
Proof.
  intros Hc Ht Hne. unfold Embeddings.attach.
  rewrite !has_key_set_other by reflexivity. rewrite Hc.
  assert (Hk : has_key rec (lit "text") = true).
  { unfold has_key. unfold get, get_default in Ht.
    destruct (lookup rec (lit "text")); [reflexivity|discriminate]. }
  rewrite Hk. simpl andb. cbv iota.
  rewrite get_set_same. rewrite !get_set_other by reflexivity. exact Ht.
Qed.

Lemma text_record_embeddable rec : text_record rec -> embeddable rec = true.
Proof.
  intros [_ [c [Ht Hne]]]. unfold embeddable, record_text.
  rewrite truthy_por, Ht. simpl. apply nonempty_true in Hne. rewrite Hne. reflexivity.
Qed.

Lemma records_of_dumps recs : records_of (map dumps recs) = recs.
Proof. induction recs as [|r recs IH]; simpl; [|rewrite IH]; reflexivity. Qed.

Lemma filter_all {A : Type} (f : A -> bool) (l : list A) :
  Forall (fun x => f x = true) l -> filter f l = l.
Proof. induction 1 as [|x l Hx _ IH]; simpl; [|rewrite Hx, IH]; reflexivity. Qed.

Lemma attach_get rec e k :
  str_eqb k (lit "embedding") = false -> str_eqb k (lit "embedding_dim") = false ->
  str_eqb k (lit "text") = false -> str_eqb k (lit "content") = false ->
  get (Embeddings.attach rec e) k = get rec k.
Proof. intros. apply attach_get_other; assumption. Qed.

Lemma por_truthy a b : truthy a = true -> por a b = a.
Proof. intros H. unfold por. rewrite H. reflexivity. Qed.

Lemma load_line_attached repr rec e :
  text_record rec -> e <> [] ->
  Indexing.load_line repr (dumps (Embeddings.attach rec e))
  = Ok (Some (index_document repr rec e)).
Proof.
  intros [Hc [c [Ht Hne]]] He. unfold dumps. rewrite load_line_vector.
  assert (Hemb : truthy (VList e) = true) by (apply nonempty_true, He).
  assert (Htc : truthy (VStr c) = true) by (apply nonempty_true, Hne).
  unfold has_vector, text_payload, index_document.
  rewrite attach_embedding, Hemb. simpl orb. cbv iota.
  rewrite (attach_text_record rec e c Hc Ht Hne).
  rewrite !(por_truthy (VStr c)) by exact Htc.
  rewrite !(por_truthy (VList e)) by exact Hemb.
  cbn [Indexing.value_slice_to bind].
  rewrite !attach_get by reflexivity.
  rewrite attach_get_other by reflexivity.
  rewrite Ht. reflexivity.
Qed.

Lemma load_embedded_attached repr recs :
  Forall text_record recs ->
  forall vectors,
    Forall (fun v => v <> []) vectors ->
    Indexing.load_embedded repr (map dumps (attach_all recs vectors))
    = Ok (map (fun p => index_document repr (fst p) (snd p)) (combine recs vectors)).
Proof.
  induction 1 as [|r recs Hr _ IH]; intros vectors Hv; [reflexivity|].
  destruct Hv as [|v vectors Hv Hvs]; [reflexivity|].
  unfold attach_all. cbn [combine map fst snd Indexing.load_embedded].
  rewrite (load_line_attached repr r v Hr Hv). cbn [bind].
  fold (attach_all recs vectors). rewrite (IH vectors Hvs). reflexivity.
Qed.

Lemma Forall_concat {A : Type} (P : A -> Prop) (ls : list (list A)) :
  Forall (Forall P) ls -> Forall P (concat ls).
Proof.
  induction 1 as [|l ls Hl _ IH]; simpl; [constructor|].
  apply Forall_app. split; assumption.
Qed.

(** X19: the whole indexing run.  The input is the file corpus, or the
    merge of the file and web corpora when the web corpus exists.  When
    its records carry a non-empty string under [text] and no [content],
    and the service returns one non-empty vector per text, [build_index]
    hands to the upload exactly one document per record, in input order,
    whatever the batch size: its id is the sanitised id of the record, its
    content the first 32766 characters of the record's text, its source
    the record's [source] or [file_name] or ["local"], and its vector the
    one returned for the record. *)
Theorem build_index_documents
    (repr : value -> str) (create : list value -> result (list (list value)))
    (env_batch : Z) (fs : str -> option (list line)) (IN_PATH WEB_PATH : str)
    (recs : list dict) :
  index_input fs IN_PATH WEB_PATH recs ->
  Forall text_record recs ->
  one_vector_per_text create ->
  nonempty_vectors create ->
  exists calls,
    Indexing.build_index repr create env_batch fs IN_PATH WEB_PATH
    = Ok (map (fun p => index_document repr (fst p) (snd p))
              (combine recs (responses create calls)))
    /\ concat calls = map record_text recs
    /\ length (responses create calls) = length recs.
Proof.
  intros Hinput Hrecs Hc Hne.
  assert (Hin : Indexing.build_index repr create env_batch fs IN_PATH WEB_PATH
                = (embedded <- Embeddings.build_embeddings create env_batch
                                  (map dumps recs) None ;;
                   Indexing.load_embedded repr (map dumps (fst embedded)))).
  { unfold Indexing.build_index.
    destruct Hinput as [[Hweb Hfile]|[Hweb Hmerge]].
    - rewrite Hweb, Hfile. reflexivity.
    - destruct (fs WEB_PATH) as [w|]; [|congruence].
      rewrite Hmerge. reflexivity. }
  assert (Hlines : Forall (fun l => record_line l = true) (map dumps recs)).
  { apply Forall_map. apply Forall_forall. intros r _. reflexivity. }
  destruct (build_embeddings_output create env_batch None (map dumps recs) Hc Hlines)
    as [calls [Hrun [Hsent Hlen]]].
  rewrite records_of_dumps in Hrun, Hsent, Hlen.
  rewrite (filter_all embeddable recs) in Hrun, Hsent, Hlen
    by (eapply Forall_impl; [|exact Hrecs]; apply text_record_embeddable).
  exists calls. split; [|split; assumption].
  rewrite Hin, Hrun. cbn [bind fst].
  apply load_embedded_attached; [exact Hrecs|].
  unfold responses. apply Forall_concat, Forall_map, Forall_forall.
  intros batch _. apply Hne.
Qed.

Lemma build_index_documents_witness :
  exists calls,
    Indexing.build_index Samples.repr_stub Samples.constant_service 16
      Samples.corpus_fs (lit "out/ndis_parsed.jsonl") (lit "out/web_parsed.jsonl")
    = Ok (map (fun p => index_document Samples.repr_stub (fst p) (snd p))
              (combine [ Samples.file_rec "guide_1" "alpha" "aa11";
                         Samples.file_rec "guide_2" "beta" "bb22";
                         Samples.file_rec "host/#1" "gamma" "cc33" ]
                       (responses Samples.constant_service calls)))
    /\ length (responses Samples.constant_service calls) = 3%nat.
Proof.
  destruct (build_index_documents Samples.repr_stub Samples.constant_service 16
              Samples.corpus_fs (lit "out/ndis_parsed.jsonl") (lit "out/web_parsed.jsonl")
              [ Samples.file_rec "guide_1" "alpha" "aa11";
                Samples.file_rec "guide_2" "beta" "bb22";
                Samples.file_rec "host/#1" "gamma" "cc33" ])
    as [calls [Hrun [_ Hlen]]].
  - right. split; [discriminate|reflexivity].
  - apply Forall_cons; [|apply Forall_cons; [|apply Forall_cons; [|apply Forall_nil]]];
      (split; [reflexivity|eexists; split; [reflexivity|discriminate]]).
  - intros batch. eexists. split; [reflexivity|apply length_map].
  - intros batch. unfold response, Samples.constant_service.
    apply Forall_map, Forall_forall. intros x _. discriminate.
  - exists calls. split; [exact Hrun|exact Hlen].
Defined.

Lemma attach_keeps rec e k :
  has_key rec (lit "content") = true ->
  str_eqb k (lit "embedding") = false -> str_eqb k (lit "embedding_dim") = false ->
  get (Embeddings.attach rec e) k = get rec k.
Proof.
  intros Hc H1 H2. unfold Embeddings.attach.
  rewrite !has_key_set_other by reflexivity. rewrite Hc. simpl.
  rewrite !get_set_other by assumption. reflexivity.
Qed.

(** X20: a record that has both a [text] and a [content] is embedded by
    one and indexed under the other.  The service is sent [text]; the
    document that reaches the upload stores [content], cut to 32766
    characters, with the vector computed from [text]. *)
Theorem text_embedded_content_indexed
    (repr : value -> str) (create : list value -> result (list (list value)))
    (env_batch : Z) (fs : str -> option (list line)) (IN_PATH WEB_PATH : str)
    (rec : dict) (t c : str) (e : list value) :
  fs WEB_PATH = None -> fs IN_PATH = Some [dumps rec] ->
  get rec (lit "text") = VStr t -> t <> [] ->
  get rec (lit "content") = VStr c -> c <> [] ->
  create [VStr t] = Ok [e] -> e <> [] ->
  exists doc,
    Indexing.build_index repr create env_batch fs IN_PATH WEB_PATH = Ok [doc]
    /\ get doc (lit "content") = VStr (slice_to c 32766)
    /\ get doc (lit "embedding") = VList e.
Proof.
  intros Hweb Hfile Ht Htne Hcont Hcne Hcreate He.
  assert (Htt : truthy (VStr t) = true) by (apply nonempty_true, Htne).
  assert (Htc : truthy (VStr c) = true) by (apply nonempty_true, Hcne).
  assert (Hemb : truthy (VList e) = true) by (apply nonempty_true, He).
  assert (Htext : record_text rec = VStr t).
  { unfold record_text. rewrite Ht. apply por_truthy, Htt. }
  assert (Hkey : has_key rec (lit "content") = true).
  { unfold has_key. unfold get, get_default in Hcont.
    destruct (lookup rec (lit "content")); [reflexivity|discriminate]. }
  assert (Hrun : Embeddings.build_embeddings create env_batch [dumps rec] None
                 = Ok ([Embeddings.attach rec e], [[VStr t]])).
  { unfold Embeddings.build_embeddings, dumps. rewrite read_lines_record.
    unfold embeddable. rewrite Htext, Htt. simpl negb. cbv iota zeta.
    cbn [Embeddings.batch_texts Embeddings.batch_recs Embeddings.fout Embeddings.calls app].
    destruct (len [VStr t] >=? Embeddings.BATCH env_batch None);
      unfold Embeddings.flush_batch; simpl; rewrite Hcreate; reflexivity. }
  unfold Indexing.build_index. rewrite Hweb, Hfile. cbn [bind]. rewrite Hrun.
  cbn [bind fst map Indexing.load_embedded]. unfold dumps. rewrite load_line_vector.
  unfold has_vector, text_payload. rewrite attach_embedding, Hemb. simpl orb. cbv iota.
  rewrite (attach_keeps rec e (lit "content") Hkey) by reflexivity.
  rewrite Hcont, !(por_truthy (VStr c)) by exact Htc.
  cbn [Indexing.value_slice_to bind].
  eexists. split; [reflexivity|]. split; [reflexivity|].
  rewrite !(por_truthy (VList e)) by exact Hemb. reflexivity.
Qed.

Lemma text_embedded_content_indexed_witness :
  exists doc,
    Indexing.build_index Samples.repr_stub Samples.constant_service 16
      (Samples.corpus_only
         [dumps [ (lit "id", VStr (lit "guide_1")); (lit "text", VStr (lit "alpha"));
                  (lit "content", VStr (lit "omega")) ]])
      (lit "out/ndis_parsed.jsonl") (lit "out/web_parsed.jsonl") = Ok [doc]
    /\ get doc (lit "content") = VStr (slice_to (lit "omega") 32766)
    /\ get doc (lit "embedding") = VList [VInt 1; VInt 0].
Proof.
  apply (text_embedded_content_indexed Samples.repr_stub Samples.constant_service 16
           (Samples.corpus_only
              [dumps [ (lit "id", VStr (lit "guide_1")); (lit "text", VStr (lit "alpha"));
                       (lit "content", VStr (lit "omega")) ]])
           (lit "out/ndis_parsed.jsonl") (lit "out/web_parsed.jsonl")
           [ (lit "id", VStr (lit "guide_1")); (lit "text", VStr (lit "alpha"));
             (lit "content", VStr (lit "omega")) ]
           (lit "alpha") (lit "omega") [VInt 1; VInt 0]);
    try reflexivity; discriminate.
Defined.

(** ** Answering a question *)

Lemma render_nonempty e : RAGLLM.render e <> [].
Proof.
  unfold RAGLLM.render. change (lit "[") with [91%N]. cbn [app]. discriminate.
Qed.

Lemma join_nonempty sep p ps : p <> [] -> join sep (p :: ps) <> [].
Proof.
  intros Hp. destruct p as [|c p]; [congruence|].
  destruct ps; simpl; discriminate.
Qed.

Lemma has_text_enumerate docs :
  forall s,
    filter has_text (enumerate s docs) = [] <-> Forall textless docs.
Proof.
  induction docs as [|d docs IH]; intros s; simpl.
  - split; [constructor|reflexivity].
  - unfold has_text at 1. simpl snd. unfold textless at 1.
    destruct (truthy (RAGLLM._txt d)) eqn:Et.
    + split; [discriminate|]. intros H. inversion H as [|? ? Hd _]; subst.
      unfold textless in Hd. congruence.
    + rewrite IH. split; [intros H; constructor; assumption|].
      intros H. inversion H; assumption.
Qed.

(** The context is empty exactly when no document has text. *)
Lemma build_context_empty repr lower title docs context :
  RAGLLM.build_context repr lower title docs = Ok context ->
  (context = [] <-> Forall textless docs).
Proof.
  unfold RAGLLM.build_context, RAGLLM.build_context_lines.
  destruct (RAGLLM.context_entries repr lower title (enumerate 1 docs)) as [es|e] eqn:Ees;
    simpl; [|discriminate].
  intros H. injection H as <-.
  pose proof (context_entries_ok repr lower title _ es Ees) as H2.
  rewrite <- (has_text_enumerate docs 1).
  destruct es as [|e es].
  - inversion H2. split; reflexivity.
  - split.
    + intros Habs. exfalso. revert Habs. cbn [map]. apply join_nonempty, render_nonempty.
    + intros Hnone. rewrite Hnone in H2. inversion H2.
Qed.

(** X21: a query that is empty or only whitespace gets the fixed
    no-context sentence, and no service is called for it: no embedding,
    no search, no chat completion. *)
Theorem rag_blank_query
    (embed_query : str -> list value) (vector_search : list value -> Z -> list dict)
    (chat_create : str -> str -> option str)
    (repr : value -> str) (str_lower str_title : str -> str) (SYSTEM_PROMPT : str)
    (query : str) (k : Z) :
  strip query = [] ->
  Answer.rag embed_query vector_search chat_create repr str_lower str_title
    SYSTEM_PROMPT query k
  = Ok (Answer.NO_CONTEXT, []).
Proof.
  intros Hblank. unfold Answer.rag, QueryIndex.search_with_query.
  rewrite Hblank. simpl nonempty. rewrite orb_true_r. reflexivity.
Qed.

Lemma rag_blank_query_witness :
  Answer.rag SampleServices.embed_stub SampleServices.search_stub SampleServices.chat_stub
    Samples.repr_stub Samples.ascii_lower Samples.title_stub (lit "system")
    (lit "   ") 5
  = Ok (Answer.NO_CONTEXT, []).
Proof.
  apply rag_blank_query. reflexivity.
Defined.

(** X22: for matches the search loop can print, [rag] asks the chat
    model exactly when some match has text.  When none has, it returns
    the no-context sentence after the retrieval and makes no chat call.
    When one has, the context is not empty and one chat call follows the
    retrieval, with the system prompt and the question and
    context as the user message; the answer is the reply with the
    whitespace at its ends removed, empty when the reply has no content.
    An exception of [build_context] is raised by [rag] as it is. *)
Theorem rag_answers
    (embed_query : str -> list value) (vector_search : list value -> Z -> list dict)
    (chat_create : str -> str -> option str)
    (repr : value -> str) (str_lower str_title : str -> str) (SYSTEM_PROMPT : str)
    (query : str) (k : Z) (docs : list dict) (calls : list QueryIndex.call) :
  QueryIndex.search_with_query embed_query vector_search query k = (docs, calls) ->
  Forall search_result docs ->
  (forall e,
     RAGLLM.build_context repr str_lower str_title docs = Err e ->
     Answer.rag embed_query vector_search chat_create repr str_lower str_title
       SYSTEM_PROMPT query k = Err e)
  /\ (forall context,
        RAGLLM.build_context repr str_lower str_title docs = Ok context ->
        (Forall textless docs ->
           Answer.rag embed_query vector_search chat_create repr str_lower str_title
             SYSTEM_PROMPT query k
           = Ok (Answer.NO_CONTEXT, map Answer.Retrieval calls))
        /\ (~ Forall textless docs ->
            context <> []
            /\ exists answer,
                 Answer.rag embed_query vector_search chat_create repr str_lower str_title
                   SYSTEM_PROMPT query k
                 = Ok (answer,
                       map Answer.Retrieval calls
                       ++ [Answer.ChatCall SYSTEM_PROMPT (Answer.user_message query context)])
                 /\ strip answer = answer
                 /\ (forall reply,
                       chat_create SYSTEM_PROMPT (Answer.user_message query context)
                       = Some reply -> answer = strip reply)
                 /\ (chat_create SYSTEM_PROMPT (Answer.user_message query context) = None ->
                     answer = []))).
Proof.
  intros Hsearch _. unfold Answer.rag. rewrite Hsearch. split.
  - intros e ->. reflexivity.
  - intros context Hctx. rewrite Hctx. cbn [bind].
    pose proof (build_context_empty repr str_lower str_title docs context Hctx) as Hempty.
    split.
    + intros Hnone. apply Hempty in Hnone. subst context. reflexivity.
    + intros Hsome.
      assert (Hne : context <> []) by (intros Habs; apply Hsome, Hempty, Habs).
      split; [exact Hne|].
      apply nonempty_true in Hne. rewrite Hne. simpl negb. cbv iota.
      eexists. split; [reflexivity|].
      split; [apply strip_idem|]. split.
      * intros reply ->. reflexivity.
      * intros ->. reflexivity.
Qed.

Lemma rag_answers_witness :
  exists context,
    Answer.rag SampleServices.embed_stub SampleServices.search_stub SampleServices.chat_stub
      Samples.repr_stub Samples.ascii_lower Samples.title_stub (lit "system")
      (lit "How often are plans reviewed?") 5
    = Ok (lit "Plans are reviewed every year [1].",
          [ Answer.Retrieval (QueryIndex.EmbedCall (lit "How often are plans reviewed?"));
            Answer.Retrieval (QueryIndex.SearchCall [VInt 1; VInt 0] 5);
            Answer.ChatCall (lit "system")
              (Answer.user_message (lit "How often are plans reviewed?") context) ]).
Proof.
  destruct (rag_answers SampleServices.embed_stub SampleServices.search_stub
              SampleServices.chat_stub Samples.repr_stub Samples.ascii_lower
              Samples.title_stub (lit "system") (lit "How often are plans reviewed?") 5
              (SampleServices.search_stub [VInt 1; VInt 0] 5)
              [ QueryIndex.EmbedCall (lit "How often are plans reviewed?");
                QueryIndex.SearchCall [VInt 1; VInt 0] 5 ])
    as [_ Hok].
  - reflexivity.
  - apply Forall_cons; [|apply Forall_cons; [|apply Forall_nil]];
      (split; [reflexivity|]; split; [discriminate|]; split; [reflexivity|]).
    + right. reflexivity.
    + left. reflexivity.
  - eexists.
    destruct (Hok _ eq_refl) as [_ Hchat].
    destruct Hchat as [_ [answer [Hrun [_ [Hreply _]]]]].
    + intros Hnone. inversion Hnone as [|? ? Hd _]. discriminate Hd.
    + rewrite Hrun. rewrite (Hreply _ eq_refl). reflexivity.
Defined.

(** ** Tidying the answer *)

Lemma bounded_runs_repeat m :
  forall k t, (k + m <= 2)%nat ->
    bounded_runs k (repeat 10%N m ++ t) = bounded_runs (k + m) t.
Proof.
  induction m as [|m IH]; intros k t Hk; simpl.
  - rewrite Nat.add_0_r. reflexivity.
  - rewrite IH by lia.
    replace (k <? 2)%nat with true by (symmetry; apply Nat.ltb_lt; lia).
    simpl. f_equal. lia.
Qed.

Lemma squeeze_newlines_bounded s :
  forall run, bounded_runs 0 (Flaskui.squeeze_newlines run s) = true.
Proof.
  induction s as [|c s IH]; intros run; simpl.
  - rewrite <- (app_nil_r (repeat 10%N (Nat.min run 2))).
    rewrite bounded_runs_repeat by lia. reflexivity.
  - destruct (N.eqb c 10) eqn:Ec; [apply IH|].
    rewrite bounded_runs_repeat by lia. simpl. rewrite Ec. apply IH.
Qed.

Lemma bounded_runs_no_blank_run s :
  bounded_runs 0 s = true -> no_blank_run s.
Proof.
  intros H a b ->. revert H.
  assert (Hgen : forall k, bounded_runs k (a ++ [10%N; 10%N; 10%N] ++ b) = false).
  { induction a as [|c a IH]; intros k.
    - simpl. destruct k as [|[|k]]; reflexivity.
    - simpl. destruct (N.eqb c 10); [|apply IH].
      rewrite IH. apply andb_false_r. }
  rewrite Hgen. discriminate.
Qed.

Lemma no_blank_run_strip s : no_blank_run s -> no_blank_run (strip s).
Proof.
  intros H a b Heq. destruct (strip_infix s) as [a' [b' Hs]].
  apply (H (a' ++ a) (b ++ b')). rewrite Hs, Heq. rewrite <- !app_assoc. reflexivity.
Qed.

Lemma bullet_not_marker l :
  strip l <> [] -> Flaskui.is_marker (strip (lit "- " ++ lstrip l)) = false.
Proof.
  intros Hne.
  assert (Hs : strip (lit "- " ++ lstrip l) = 45%N :: 32%N :: strip l).
  { unfold strip at 1. change (lit "- " ++ lstrip l) with (45%N :: 32%N :: lstrip l).
    change (lstrip (45%N :: 32%N :: lstrip l)) with (45%N :: 32%N :: lstrip l).
    rewrite !rstrip_cons. fold (strip l).
    apply nonempty_true in Hne. rewrite Hne. reflexivity. }
  rewrite Hs. reflexivity.
Qed.

Lemma bullet_fixed_incl lines lines' o :
  incl lines lines' -> bullet_fixed lines o -> bullet_fixed lines' o.
Proof.
  intros Hincl [Hm [l [Hin Ho]]]. split; [exact Hm|]. exists l. split; [apply Hincl, Hin|exact Ho].
Qed.

Lemma fix_lines_shape lines :
  forall pending, Forall (bullet_fixed lines) (Flaskui.fix_lines pending lines).
Proof.
  induction lines as [|l lines IH]; intros pending; [constructor|].
  assert (Hrest : forall p, Forall (bullet_fixed (l :: lines)) (Flaskui.fix_lines p lines)).
  { intros p. eapply Forall_impl; [|apply IH].
    intros o. apply bullet_fixed_incl. intros x Hx. right. exact Hx. }
  simpl. destruct pending.
  - destruct (nonempty (strip l)) eqn:En; [|apply Hrest].
    apply nonempty_true in En. constructor; [|apply Hrest].
    split; [apply bullet_not_marker, En|].
    exists l. split; [left; reflexivity|]. right. split; [exact En|reflexivity].
  - destruct (Flaskui.is_marker (strip l)) eqn:Em; [apply Hrest|].
    constructor; [|apply Hrest].
    split; [exact Em|]. exists l. split; [left; reflexivity|]. left. reflexivity.
Qed.

(** X23: the text [_fix_bullets] returns has no whitespace at either end
    and never three line feeds in a row; it is made of the lines written
    by the bullet pass, each of which is a line of the input with its
    trailing whitespace removed, either as it stands or, after a lone
    bullet marker, turned into ["- "] followed by the line without its
    leading whitespace; none of the lines written is a lone marker. *)
Theorem fix_bullets_shape (text : str) :
  strip (Flaskui._fix_bullets text) = Flaskui._fix_bullets text
  /\ no_blank_run (Flaskui._fix_bullets text)
  /\ exists out,
       Flaskui._fix_bullets text
       = strip (Flaskui.squeeze_newlines 0 (join RAGLLM.newline out))
       /\ Forall (bullet_fixed (map rstrip (Flaskui.splitlines text))) out.
Proof.
  unfold Flaskui._fix_bullets. split; [apply strip_idem|]. split.
  - apply no_blank_run_strip, bounded_runs_no_blank_run, squeeze_newlines_bounded.
  - eexists. split; [reflexivity|apply fix_lines_shape].
Qed.

Lemma lstrip_rstrip s : lstrip (rstrip s) = rstrip (lstrip s).
Proof.
  induction s as [|c s IH]; [reflexivity|].
  rewrite rstrip_cons. simpl lstrip.
  destruct (isspace c) eqn:Ec.
  - simpl andb. destruct (nonempty (rstrip s)) eqn:En; simpl negb; cbv iota.
    + simpl lstrip. rewrite Ec. exact IH.
    + apply nonempty_false in En. rewrite <- IH, En. reflexivity.
  - simpl andb. cbv iota. simpl lstrip. rewrite Ec.
    rewrite rstrip_cons, Ec. reflexivity.
Qed.

Lemma strip_rstrip s : strip (rstrip s) = strip s.
Proof. unfold strip. rewrite lstrip_rstrip. apply rstrip_idem. Qed.

Lemma splitlines_one_line s :
  one_line s ->
  forall cur, Flaskui.splitlines_loop cur s
              = if nonempty (rev cur ++ s) then [rev cur ++ s] else [].
Proof.
  induction 1 as [|c s Hc _ IH]; intros cur; simpl.
  - rewrite app_nil_r. destruct cur as [|x cur]; [reflexivity|].
    simpl. destruct (rev cur ++ [x]) eqn:E; [|reflexivity].
    apply app_eq_nil in E. destruct E; discriminate.
  - rewrite Hc, IH. simpl rev. rewrite <- app_assoc. reflexivity.
Qed.

Lemma squeeze_no_newline s :
  Forall (fun c => N.eqb c 10 = false) s -> Flaskui.squeeze_newlines 0 s = s.
Proof.
  induction 1 as [|c s Hc _ IH]; simpl; [reflexivity|].
  rewrite Hc, IH. reflexivity.
Qed.

Lemma rstrip_sublist s : Forall (fun c => Flaskui.linebreak c = false) s ->
  Forall (fun c => Flaskui.linebreak c = false) (rstrip s).
Proof.
  intros H. destruct (rstrip_prefix s) as [b Hb]. rewrite Hb in H.
  apply Forall_app in H. apply H.
Qed.

Lemma linebreak_newline c : Flaskui.linebreak c = false -> N.eqb c 10 = false.
Proof.
  intros H. destruct (N.eqb c 10) eqn:E; [|reflexivity].
  apply N.eqb_eq in E. subst c. discriminate H.
Qed.

(** X24: an answer of one line comes back trimmed, unless it is a lone
    bullet marker: the marker waits for a line to attach to, finds none,
    and the answer comes back empty. *)
Theorem fix_bullets_one_line (text : str) :
  one_line text ->
  Flaskui._fix_bullets text
  = if Flaskui.is_marker (strip text) then [] else strip text.
Proof.
  intros Hone. unfold Flaskui._fix_bullets, Flaskui.splitlines.
  rewrite (splitlines_one_line text Hone []). simpl rev. simpl app.
  destruct text as [|c text]; [reflexivity|].
  simpl nonempty. cbv iota. cbn [map Flaskui.fix_lines].
  rewrite strip_rstrip.
  destruct (Flaskui.is_marker (strip (c :: text))); [reflexivity|].
  cbn [Flaskui.fix_lines join].
  rewrite squeeze_no_newline.
  - apply strip_rstrip.
  - eapply Forall_impl; [|apply rstrip_sublist, Hone].
    intros x. apply linebreak_newline.
Qed.

Lemma fix_bullets_one_line_witness :
  Flaskui._fix_bullets (lit "  * ") = []
  /\ Flaskui._fix_bullets (lit " Plans are reviewed yearly. ")
     = lit "Plans are reviewed yearly.".
Proof.
  split.
  - rewrite (fix_bullets_one_line (lit "  * ")); [reflexivity|].
    vm_compute. repeat constructor.
  - rewrite (fix_bullets_one_line (lit " Plans are reviewed yearly. ")); [reflexivity|].
    vm_compute. repeat constructor.
Defined.

(** ** The question endpoint *)

Lemma query_of_asks body q : asks body q -> Flaskui.query_of body = Ok q.
Proof.
  intros [d [s [-> [Hq [Hs Hne]]]]]. unfold Flaskui.query_of.
  destruct d as [|kv d].
  - simpl in Hq. injection Hq as <-. subst q. exfalso. apply Hne. reflexivity.
  - cbn [truthy nonempty]. rewrite Hq, Hs. reflexivity.
Qed.

Lemma query_of_no_query body : no_query body -> Flaskui.query_of body = Ok [].
Proof.
  intros [->|[[v [-> Hv]]|[d [s [-> [Hq Hs]]]]]]; unfold Flaskui.query_of.
  - reflexivity.
  - rewrite Hv. reflexivity.
  - destruct (truthy (VDict d)) eqn:Et.
    + rewrite Hq, Hs. reflexivity.
    + reflexivity.
Qed.

(** X25: what the endpoint answers.  A request that is not JSON gets
    status 400, and so does one without a usable query (no body, an
    empty body, a missing or blank [query]); [rag] is not consulted for
    either.  A body that is not an object, or whose [query] is not a
    string, makes the handler raise [AttributeError].  Otherwise [rag]
    is called with the trimmed query: its exception leaves the handler,
    and its string answer comes back with status 200, unchanged under
    [answer] and, under [answer_html], as the Markdown rendering of the
    answer tidied by [_fix_bullets]. *)
Theorem plan_responses
    (rag : str -> result value) (markdown : str -> str) (repr : value -> str)
    (is_json : bool) (body : option value) :
  (is_json = false ->
     Flaskui.plan rag markdown repr is_json body
     = Flaskui.Response 400 [ (lit "error", VStr (lit "Send JSON: {'query': '...'}")) ])
  /\ (is_json = true -> no_query body ->
      Flaskui.plan rag markdown repr is_json body
      = Flaskui.Response 400 [ (lit "error", VStr (lit "Please provide 'query'")) ])
  /\ (is_json = true -> unreadable body ->
      Flaskui.plan rag markdown repr is_json body = Flaskui.Raises AttributeError)
  /\ (is_json = true -> forall q, asks body q ->
      (forall e, rag q = Err e ->
         Flaskui.plan rag markdown repr is_json body = Flaskui.Raises e)
      /\ (forall answer, rag q = Ok (VStr answer) ->
            Flaskui.plan rag markdown repr is_json body
            = Flaskui.Response 200
                [ (lit "answer", VStr answer);
                  (lit "answer_html", VStr (markdown (Flaskui._fix_bullets answer))) ])).
Proof.
  split; [|split; [|split]].
  - intros ->. reflexivity.
  - intros -> Hno. unfold Flaskui.plan. rewrite (query_of_no_query body Hno). reflexivity.
  - intros -> [[v [-> [Hv Hobj]]]|[d [-> [Hd Hq]]]]; unfold Flaskui.plan, Flaskui.query_of.
    + rewrite Hv. destruct v; try reflexivity. destruct Hobj.
    + destruct d as [|kv d]; [congruence|]. cbn [truthy nonempty negb].
      destruct (get_default (kv :: d) (lit "query") (VStr [])); try reflexivity.
      discriminate Hq.
  - intros -> q Hq. unfold Flaskui.plan. rewrite (query_of_asks body q Hq).
    destruct Hq as [_ [_ [_ [_ [_ Hne]]]]]. apply nonempty_true in Hne.
    cbn [negb]. rewrite Hne. cbn [negb]. split.
    + intros e ->. reflexivity.
    + intros answer ->. reflexivity.
Qed.

Lemma plan_responses_witness :
  Flaskui.plan (fun q => Ok (VStr (lit "Yearly."))) SampleServices.markdown_stub
    Samples.repr_stub true
    (Some (VDict [ (lit "query", VStr (lit " How often are plans reviewed? ")) ]))
  = Flaskui.Response 200
      [ (lit "answer", VStr (lit "Yearly."));
        (lit "answer_html",
           VStr (SampleServices.markdown_stub (Flaskui._fix_bullets (lit "Yearly.")))) ].
Proof.
  destruct (plan_responses (fun q => Ok (VStr (lit "Yearly."))) SampleServices.markdown_stub
              Samples.repr_stub true
              (Some (VDict [ (lit "query", VStr (lit " How often are plans reviewed? ")) ])))
    as [_ [_ [_ Hask]]].
  refine (proj2 (Hask eq_refl (lit "How often are plans reviewed?") _) _ eq_refl).
  eexists. eexists. split; [reflexivity|]. split; [reflexivity|].
  split; [reflexivity|discriminate].
Defined.

Lemma strip_no_context : strip Answer.NO_CONTEXT = Answer.NO_CONTEXT.
Proof. reflexivity. Qed.

Lemma search_nonblank embed_query vector_search q k :
  q <> [] -> strip q = q ->
  QueryIndex.search_with_query embed_query vector_search q k
  = (vector_search (embed_query q) k,
     [QueryIndex.EmbedCall q; QueryIndex.SearchCall (embed_query q) k]).
Proof.
  intros Hne Hs. unfold QueryIndex.search_with_query. rewrite Hs.
  apply nonempty_true in Hne. rewrite Hne. reflexivity.
Qed.

(** X26: the endpoint over [rag].  Every query the endpoint accepts is
    trimmed and not empty, so the blank-query shortcut of
    [search_with_query] is never taken: when the matches are printable,
    the query is embedded and searched before anything else, the answer
    of [rag] has no whitespace at its ends and comes back under [answer]
    as it is, with status 200, and the undefined [_link_citations] is
    never reached; an exception of [rag] leaves the handler. *)
Theorem endpoint_always_retrieves
    (embed_query : str -> list value) (vector_search : list value -> Z -> list dict)
    (chat_create : str -> str -> option str)
    (repr : value -> str) (str_lower str_title : str -> str) (SYSTEM_PROMPT : str)
    (TOP_K : Z) (markdown : str -> str) (body : option value) (q : str) :
  asks body q ->
  Forall search_result (vector_search (embed_query q) TOP_K) ->
  (forall e,
     Answer.rag embed_query vector_search chat_create repr str_lower str_title
       SYSTEM_PROMPT q TOP_K = Err e ->
     endpoint embed_query vector_search chat_create repr str_lower str_title
       SYSTEM_PROMPT TOP_K markdown true body = Flaskui.Raises e)
  /\ (forall answer trace,
        Answer.rag embed_query vector_search chat_create repr str_lower str_title
          SYSTEM_PROMPT q TOP_K = Ok (answer, trace) ->
        endpoint embed_query vector_search chat_create repr str_lower str_title
          SYSTEM_PROMPT TOP_K markdown true body
        = Flaskui.Response 200
            [ (lit "answer", VStr answer);
              (lit "answer_html", VStr (markdown (Flaskui._fix_bullets answer))) ]
        /\ strip answer = answer
        /\ exists rest,
             trace = Answer.Retrieval (QueryIndex.EmbedCall q)
                     :: Answer.Retrieval (QueryIndex.SearchCall (embed_query q) TOP_K)
                     :: rest).
Proof.
  intros Hq _.
  assert (Hplan : forall r,
            Answer.rag embed_query vector_search chat_create repr str_lower str_title
              SYSTEM_PROMPT q TOP_K = r ->
            endpoint embed_query vector_search chat_create repr str_lower str_title
              SYSTEM_PROMPT TOP_K markdown true body
            = match r with
              | Ok (answer, _) =>
                  Flaskui.Response 200
                    [ (lit "answer", VStr answer);
                      (lit "answer_html", VStr (markdown (Flaskui._fix_bullets answer))) ]
              | Err e => Flaskui.Raises e
              end).
  { intros r Hr. unfold endpoint, Flaskui.plan. rewrite (query_of_asks body q Hq).
    destruct Hq as [_ [_ [_ [_ [_ Hne]]]]]. apply nonempty_true in Hne.
    cbn [negb]. rewrite Hne. cbn [negb]. rewrite Hr.
    destruct r as [[answer trace]|e]; reflexivity. }
  destruct Hq as [d [s [_ [_ [Hs Hne]]]]].
  assert (Htrim : strip q = q) by (rewrite <- Hs; apply strip_idem).
  split.
  - intros e He. apply (Hplan _ He).
  - intros answer trace Hrag. split; [apply (Hplan _ Hrag)|].
    unfold Answer.rag in Hrag.
    rewrite (search_nonblank embed_query vector_search q TOP_K Hne Htrim) in Hrag.
    destruct (RAGLLM.build_context repr str_lower str_title
                (vector_search (embed_query q) TOP_K)) as [context|e];
      cbn [bind] in Hrag; [|discriminate].
    destruct (negb (nonempty context)); injection Hrag as <- <-.
    + split; [apply strip_no_context|]. exists []. reflexivity.
    + split; [apply strip_idem|]. eexists. reflexivity.
Qed.

Lemma endpoint_always_retrieves_witness :
  endpoint SampleServices.embed_stub SampleServices.search_stub SampleServices.chat_stub
    Samples.repr_stub Samples.ascii_lower Samples.title_stub (lit "system") 5
    SampleServices.markdown_stub true
    (Some (VDict [ (lit "query", VStr (lit " How often are plans reviewed? ")) ]))
  = Flaskui.Response 200
      [ (lit "answer", VStr (lit "Plans are reviewed every year [1]."));
        (lit "answer_html",
           VStr (SampleServices.markdown_stub
                   (Flaskui._fix_bullets (lit "Plans are reviewed every year [1].")))) ].
Proof.
  destruct (endpoint_always_retrieves SampleServices.embed_stub SampleServices.search_stub
              SampleServices.chat_stub Samples.repr_stub Samples.ascii_lower
              Samples.title_stub (lit "system") 5 SampleServices.markdown_stub
              (Some (VDict [ (lit "query", VStr (lit " How often are plans reviewed? ")) ]))
              (lit "How often are plans reviewed?")) as [_ Hok].
  - eexists. eexists. split; [reflexivity|]. split; [reflexivity|].
    split; [reflexivity|discriminate].
  - apply Forall_cons; [|apply Forall_cons; [|apply Forall_nil]];
      (split; [reflexivity|]; split; [discriminate|]; split; [reflexivity|]).
    + right. reflexivity.
    + left. reflexivity.
  - refine (proj1 (Hok _ _ _)). vm_compute. reflexivity.
Defined.

Lemma refs_of_titled val :
  Forall titled val ->
  exists out,
    Flaskui.refs_of val = Ok out
    /\ (Exists (fun it => exists o, it = VDict o) val -> out <> []).
Proof.
  induction 1 as [|it val [r Hr] _ [out [Hout Hsome]]].
  - exists []. split; [reflexivity|]. intros H. inversion H.
  - simpl. rewrite Hr, Hout. cbn [bind].
    eexists. split; [reflexivity|].
    intros Hex. destruct r as [x|]; [discriminate|].
    inversion Hex as [? ? [o ->]|? ? Hrest]; subst.
    + simpl in Hr. destruct (Flaskui.strip_or_empty _); discriminate.
    + apply Hsome, Hrest.
Qed.

(** X27: [plan] calls [_link_citations], which is defined nowhere, as
    soon as it finds references.  When [rag] returns a dictionary with a
    text under [answer] and, under [refs], a list that holds at least one
    object and whose titles can be trimmed, every accepted request ends
    in [NameError]. *)
Theorem plan_link_citations_undefined
    (rag : str -> result value) (markdown : str -> str) (repr : value -> str)
    (body : option value) (q : str) (res : dict) (answer : str) (val : list value) :
  asks body q ->
  rag q = Ok (VDict res) ->
  get res (lit "answer") = VStr answer -> answer <> [] ->
  get res (lit "refs") = VList val ->
  Forall titled val ->
  Exists (fun it => exists o, it = VDict o) val ->
  Flaskui.plan rag markdown repr true body = Flaskui.RaisesNameError.
Proof.
  intros Hq Hrag Hans Hne Hrefs Htitled Hobj.
  unfold Flaskui.plan. rewrite (query_of_asks body q Hq).
  destruct Hq as [_ [_ [_ [_ [_ Hqne]]]]]. apply nonempty_true in Hqne.
  cbn [negb]. rewrite Hqne. cbn [negb]. rewrite Hrag.
  unfold Flaskui.respond, Flaskui.answer_text_of. rewrite Hans.
  rewrite !(por_truthy (VStr answer)) by (apply nonempty_true, Hne).
  unfold Flaskui._collect_refs, Flaskui.REF_KEYS. cbn [Flaskui.collect_keys].
  rewrite Hrefs.
  destruct (refs_of_titled val Htitled) as [out [-> Hsome]]. cbn [bind].
  specialize (Hsome Hobj). apply nonempty_true in Hsome.
  rewrite Hsome. cbv beta iota. rewrite Hsome. reflexivity.
Qed.

Lemma plan_link_citations_undefined_witness :
  Flaskui.plan SampleServices.rag_with_refs SampleServices.markdown_stub Samples.repr_stub
    true (Some (VDict [ (lit "query", VStr (lit "How often are plans reviewed?")) ]))
  = Flaskui.RaisesNameError.
Proof.
  eapply (plan_link_citations_undefined SampleServices.rag_with_refs
            SampleServices.markdown_stub Samples.repr_stub _
            (lit "How often are plans reviewed?")).
  - eexists. eexists. split; [reflexivity|]. split; [reflexivity|].
    split; [reflexivity|discriminate].
  - reflexivity.
  - reflexivity.
  - discriminate.
  - reflexivity.
  - apply Forall_cons; [eexists; reflexivity|].
    apply Forall_cons; [eexists; reflexivity|apply Forall_nil].
  - apply Exists_cons_tl. apply Exists_cons_hd. eexists. reflexivity.
Defined.

(** ** A crawl that ends *)

Section CrawlEnds.

Variable str_lower sha1_hex : str -> str.
Variable urlparse : str -> option Webscrape.url_parts.
Variable urlsplit : str -> Webscrape.url_parts.
Variable scrape_page : str -> str * option (list str).

Lemma write_chunks_short url chunks :
  Forall (fun ic : Z * str => len (snd ic) < 100) chunks ->
  forall seen out seen' out',
    Webscrape.write_chunks sha1_hex urlsplit url chunks seen out = (seen', out') ->
    Forall short_record out -> Forall short_record out'.
Proof.
  induction 1 as [|[i chunk] chunks Hc _ IH]; intros seen out seen' out' Hrun Hout.
  - simpl in Hrun. injection Hrun as <- <-. exact Hout.
  - simpl in Hrun. simpl in Hc.
    destruct (str_mem (sha1_hex chunk) seen); [eapply IH; eassumption|].
    eapply IH; [exact Hrun|].
    apply Forall_app. split; [exact Hout|]. constructor; [|constructor].
    exists chunk. split; [reflexivity|exact Hc].
Qed.

(** The chunks the web chunker returns for the crawler come from a text
    of fewer than 100 characters. *)
Lemma web_chunks_short text fuel chunks :
  Webscrape.chunk_text text 2500 100 fuel = Some chunks ->
  Forall (fun c => len c < 100) chunks.
Proof.
  intros Hc.
  assert (Hlen : len text < 100).
  { destruct (Z_lt_ge_dec (len text) 100) as [H|H]; [exact H|].
    rewrite (web_chunk_text_diverges text 2500 100) in Hc; [discriminate|lia|lia|lia]. }
  assert (Hall : Forall (chunk_of text 2500) chunks).
  { unfold Webscrape.chunk_text in Hc.
    eapply (web_chunk_loop_shape text 2500 100); [lia| | |exact Hc]; [lia|constructor]. }
  eapply Forall_impl; [|exact Hall].
  intros c [_ [_ [_ [a [b Heq]]]]].
  rewrite Heq in Hlen. rewrite !len_app in Hlen.
  pose proof (len_nonneg a). pose proof (len_nonneg b). lia.
Qed.

Lemma crawl_loop_short start_url max_pages :
  forall fuel st out,
    Forall short_record (Webscrape.written st) ->
    Webscrape.crawl_loop str_lower sha1_hex urlparse urlsplit scrape_page
      fuel start_url max_pages st = Some out ->
    Forall short_record out.
Proof.
  induction fuel as [|fuel IH]; intros st out Hshort Hrun; [discriminate|].
  simpl in Hrun.
  destruct (Webscrape.to_visit st) as [|url queue]; [injection Hrun as <-; exact Hshort|].
  destruct (Webscrape.pages_written st <? max_pages);
    [|injection Hrun as <-; exact Hshort].
  destruct (str_mem url (Webscrape.visited st)); [eapply IH; [|exact Hrun]; exact Hshort|].
  destruct (scrape_page url) as [text [links|]]; [|eapply IH; [|exact Hrun]; exact Hshort].
  destruct (nonempty text); [|eapply IH; [|exact Hrun]; exact Hshort].
  destruct (Webscrape.chunk_text text 2500 100 fuel) as [chunks|] eqn:Ec; [|discriminate].
  destruct (Webscrape.write_chunks sha1_hex urlsplit url (enumerate 1 chunks)
              (Webscrape.seen_chunks st) (Webscrape.written st)) as [seen' out'] eqn:Ew.
  eapply IH; [|exact Hrun]. simpl.
  eapply (write_chunks_short url (enumerate 1 chunks)); [|exact Ew|exact Hshort].
  apply (Forall_enumerate (fun c : str => len c < 100)).
  eapply web_chunks_short, Ec.
Qed.

(** X28: the crawler cuts every page with windows of 2500 characters
    overlapping by 100, and the web chunker never returns on a text of
    100 characters or more.  So a crawl whose start page has that much
    text never ends when at least one page is asked for, and a crawl
    that does end has written only texts of fewer than 100 characters. *)
Theorem crawl_ends_only_on_short_pages (start_url : str) (max_pages : Z) :
  (forall fuel out,
     Webscrape.crawl_website str_lower sha1_hex urlparse urlsplit scrape_page
       start_url max_pages fuel = Some out ->
     Forall short_record out)
  /\ (forall text links,
        1 <= max_pages ->
        scrape_page start_url = (text, Some links) ->
        100 <= len text ->
        diverges (Webscrape.crawl_website str_lower sha1_hex urlparse urlsplit scrape_page
                    start_url max_pages)).
Proof.
  split.
  - intros fuel out Hrun. unfold Webscrape.crawl_website in Hrun.
    eapply crawl_loop_short; [|exact Hrun]. constructor.
  - intros text links Hmax Hpage Hlen fuel.
    destruct fuel as [|fuel]; [reflexivity|].
    unfold Webscrape.crawl_website. simpl.
    replace (0 <? max_pages) with true by (symmetry; apply Z.ltb_lt; lia).
    rewrite Hpage.
    destruct text as [|c text]; [unfold len in Hlen; simpl in Hlen; lia|].
    simpl nonempty. cbv iota.
    rewrite (web_chunk_text_diverges (c :: text) 2500 100); [reflexivity|lia|lia|exact Hlen].
Qed.

End CrawlEnds.

Lemma crawl_ends_only_on_short_pages_witness :
  diverges (Webscrape.crawl_website Samples.ascii_lower Samples.digest_stub
              (fun u => Some (SampleSite.parts u)) SampleSite.parts
              SampleServices.long_page SampleSite.home 5).
Proof.
  refine (proj2 (crawl_ends_only_on_short_pages Samples.ascii_lower Samples.digest_stub
                   (fun u => Some (SampleSite.parts u)) SampleSite.parts
                   SampleServices.long_page SampleSite.home 5)
                (repeat 97%N 100) [] _ _ _).
  - lia.
  - reflexivity.
  - vm_compute. discriminate.
Defined.
